(** * march-madness.py: the bracket engine, embedded and verified

    The program is Python 2: every number it computes with is a C double, so
    the embedding computes with IEEE 754 binary64 values ([spec_float] with
    53 bits of precision) and with CPython 2.7's [round] and [int].  Team
    objects and lineups live in a store and are passed by reference, as in
    the source; exceptions are outcomes, and whatever was written to the
    store before an exception stays written. *)

From Stdlib Require Import ZArith Lia SpecFloat.
From stdpp Require Import gmap strings list.

Local Open Scope Z_scope.

(** ** Binary64 arithmetic *)

Module F64.

Definition prec : Z := 53.
Definition emax : Z := 1024.

Definition add : spec_float -> spec_float -> spec_float := SFadd prec emax.
Definition mul : spec_float -> spec_float -> spec_float := SFmul prec emax.
Definition div : spec_float -> spec_float -> spec_float := SFdiv prec emax.
Definition ltb : spec_float -> spec_float -> bool := SFltb.
Definition leb : spec_float -> spec_float -> bool := SFleb.
Definition eqb : spec_float -> spec_float -> bool := SFeqb.

(** The double nearest to an integer (exact below 2^53). *)
Definition of_Z (n : Z) : spec_float := binary_normalize prec emax n 0 false.

Definition is_zero (x : spec_float) : bool :=
  match x with S754_zero _ => true | _ => false end.

Definition is_finite (x : spec_float) : bool :=
  match x with S754_zero _ | S754_finite _ _ _ => true | _ => false end.

(** A strictly positive finite double in canonical form. *)
Definition pos_finite (x : spec_float) : bool :=
  match x with
  | S754_finite false m e => bounded prec emax m e
  | _ => false
  end.

End F64.

(** ** Python values and exceptions *)

Inductive exn : Type :=
  | ZeroDivisionError
  | AssertionError
  | IndexError
  | ValueError
  | OverflowError
  | NoSuchObject.   (* a reference to nothing; no Python program reaches it *)

Inductive outcome (A : Type) : Type :=
  | Returned (a : A)
  | Raised (e : exn).
Arguments Returned {A} a.
Arguments Raised {A} e.

Definition obind {A B} (o : outcome A) (k : A -> outcome B) : outcome B :=
  match o with
  | Returned a => k a
  | Raised e => Raised e
  end.

(** [a / b] on floats: CPython raises when the divisor compares equal to zero. *)
Definition float_div (a b : spec_float) : outcome spec_float :=
  if F64.is_zero b then Raised ZeroDivisionError else Returned (F64.div a b).

(** Nearest integer to [num / den], halves away from zero ([0 <= num], [0 < den]). *)
Definition half_away (num den : Z) : Z := (2 * num + den) / (2 * den).

(** The integer nearest to [m * 2^e * 10^ndigits], halves away from zero. *)
Definition scaled_round (m : positive) (e ndigits : Z) : Z :=
  if 0 <=? e then Z.pos m * 2 ^ e * 10 ^ ndigits
  else half_away (Z.pos m * 10 ^ ndigits) (2 ^ (- e)).

(** [round(x, ndigits)] of CPython 2.7 for [0 <= ndigits]: the exact value of
    [x] is rounded to [ndigits] decimals, halves away from zero, and the
    decimal result is converted back to the nearest double.  NaN, the
    infinities and the zeros round to themselves. *)
Definition py_round (x : spec_float) (ndigits : Z) : spec_float :=
  match x with
  | S754_finite s m e =>
      match scaled_round m e ndigits with
      | Z.pos n =>
          F64.div (S754_finite s n 0)
                  (S754_finite false (Z.to_pos (10 ^ ndigits)) 0)
      | _ => S754_zero s
      end
  | _ => x
  end.

(** [int(x)]: truncation toward zero. *)
Definition py_int (x : spec_float) : outcome Z :=
  match x with
  | S754_nan => Raised ValueError
  | S754_infinity _ => Raised OverflowError
  | S754_zero _ => Returned 0
  | S754_finite s m e =>
      let n := if 0 <=? e then Z.pos m * 2 ^ e else Z.pos m / 2 ^ (- e) in
      Returned (if s then - n else n)
  end.

(** [range(start, stop, step)] for a positive step. *)
Definition py_range (start stop step : Z) : list Z :=
  map (fun i => start + Z.of_nat i * step)
      (seq 0 (Z.to_nat ((stop - start + step - 1) / step))).

(** [l[i]] on a list, with Python's negative indices. *)
Definition list_getitem {A} (l : list A) (i : Z) : outcome A :=
  let n := Z.of_nat (length l) in
  let j := if i <? 0 then i + n else i in
  if (0 <=? j) && (j <? n) then
    match l !! Z.to_nat j with
    | Some a => Returned a
    | None => Raised IndexError
    end
  else Raised IndexError.

(** ** The store *)

Definition loc := nat.

Record Team : Type := mkTeam {
  name : string;
  seed : string;
  division : string;
  odds : spec_float;
  probability : spec_float;
  previous_upset : bool
}.

Definition with_previous_upset (b : bool) (T : Team) : Team :=
  mkTeam (name T) (seed T) (division T) (odds T) (probability T) b.

(** Team objects and list objects are kept apart; [tape] is the sequence of
    raw values the random generator will produce and [drawn] how many of
    them have been used. *)
Record world : Type := mkWorld {
  teams : gmap loc Team;
  lists : gmap loc (list loc);
  tape : nat -> nat;
  drawn : nat
}.

Definition with_teams (h : gmap loc Team) (w : world) : world :=
  mkWorld h (lists w) (tape w) (drawn w).
Definition with_lists (h : gmap loc (list loc)) (w : world) : world :=
  mkWorld (teams w) h (tape w) (drawn w).

(** A computation: it ends in a value or an exception, and in a world. *)
Definition Py (A : Type) : Type := world -> outcome A * world.

Definition ret {A} (a : A) : Py A := fun w => (Returned a, w).
Definition raise {A} (e : exn) : Py A := fun w => (Raised e, w).
Definition bind {A B} (c : Py A) (k : A -> Py B) : Py B :=
  fun w =>
    match c w with
    | (Returned a, w') => k a w'
    | (Raised e, w') => (Raised e, w')
    end.
Definition lift {A} (o : outcome A) : Py A := fun w => (o, w).

Declare Scope py_scope.
Delimit Scope py_scope with py.
Notation "x <- c1 ;; c2" := (bind c1 (fun x => c2))
  (at level 100, c1 at next level, right associativity) : py_scope.
Notation "c1 ;;; c2" := (bind c1 (fun _ => c2))
  (at level 100, right associativity) : py_scope.
Local Open Scope py_scope.

Fixpoint mapM {A B} (f : A -> Py B) (l : list A) : Py (list B) :=
  match l with
  | [] => ret []
  | a :: l' => b <- f a ;; bs <- mapM f l' ;; ret (b :: bs)
  end.

Definition py_assert (b : bool) : Py unit :=
  if b then ret tt else raise AssertionError.

Definition get_team (t : loc) : Py Team := fun w =>
  match teams w !! t with
  | Some T => (Returned T, w)
  | None => (Raised NoSuchObject, w)
  end.

Definition set_previous_upset (t : loc) (b : bool) : Py unit := fun w =>
  match teams w !! t with
  | Some T => (Returned tt, with_teams (<[t := with_previous_upset b T]> (teams w)) w)
  | None => (Raised NoSuchObject, w)
  end.

Definition get_list (l : loc) : Py (list loc) := fun w =>
  match lists w !! l with
  | Some L => (Returned L, w)
  | None => (Raised NoSuchObject, w)
  end.

Definition new_team (T : Team) : Py loc := fun w =>
  let t := fresh (dom (teams w)) in
  (Returned t, with_teams (<[t := T]> (teams w)) w).

Definition new_list (L : list loc) : Py loc := fun w =>
  let l := fresh (dom (lists w)) in
  (Returned l, with_lists (<[l := L]> (lists w)) w).

(** [random.randint(a, b)]: the next raw value of the tape, reduced into
    [a .. b]; an empty range raises. *)
Definition randint (a b : Z) : Py Z := fun w =>
  if b <? a then (Raised ValueError, w)
  else (Returned (a + Z.of_nat (tape w (drawn w)) mod (b - a + 1)),
        mkWorld (teams w) (lists w) (tape w) (S (drawn w))).

(** ** The program *)

(** [Team.__init__]: [self.probability = 1 / odds], with [odds] the float
    that [ImportData] passes. *)
Definition Team_init (name seed division : string) (odds : spec_float) : outcome Team :=
  obind (float_div (F64.of_Z 1) odds) (fun probability =>
  Returned (mkTeam name seed division odds probability false)).

(** [Team(name, seed, division, odds)]. *)
Definition Team_new (name seed division : string) (odds : spec_float) : Py loc :=
  T <- lift (Team_init name seed division odds) ;; new_team T.

(** The arithmetic of [CalculateWinProbabilities] on the two [probability]
    attributes. *)
Definition win_probabilities (w1 w2 : spec_float) : outcome (spec_float * spec_float) :=
  obind (float_div w1 (F64.add w1 w2)) (fun q1 =>
  let team1_win_probability := F64.mul (py_round q1 3) (F64.of_Z 100) in
  obind (float_div w2 (F64.add w1 w2)) (fun q2 =>
  let team2_win_probability := F64.mul (py_round q2 3) (F64.of_Z 100) in
  Returned (team1_win_probability, team2_win_probability))).

Definition CalculateWinProbabilities (team1 team2 : loc) : Py (spec_float * spec_float) :=
  T1 <- get_team team1 ;;
  T2 <- get_team team2 ;;
  lift (win_probabilities (probability T1) (probability T2)).

(** [int(round(p * 10, 0))]: the number of slips a team gets. *)
Definition slips (p : spec_float) : outcome Z :=
  py_int (py_round (F64.mul p (F64.of_Z 10)) 0).

(** Matches up two teams and returns the winner, weighted by the odds; also
    sets [previous_upset]. *)
Definition WeightedCoinFlip (team1 team2 : loc) : Py loc :=
  set_previous_upset team1 false ;;;
  set_previous_upset team2 false ;;;
  probabilities <- CalculateWinProbabilities team1 team2 ;;
  let '(team1_win_probability, team2_win_probability) := probabilities in
  let underdog : option Z :=
    if F64.ltb team2_win_probability team1_win_probability then Some 2
    else if F64.ltb team1_win_probability team2_win_probability then Some 1
    else None in
  n1 <- lift (slips team1_win_probability) ;;
  let hat := replicate (Z.to_nat n1) team1 in
  n2 <- lift (slips team2_win_probability) ;;
  let hat := hat ++ replicate (Z.to_nat n2) team2 in
  py_assert (Z.of_nat (length hat) =? 1000) ;;;
  winner_index <- randint 0 (Z.of_nat (length hat) - 1) ;;
  winner <- lift (list_getitem hat winner_index) ;;
  W <- get_team winner ;;
  T1 <- get_team team1 ;;
  (if String.eqb (name W) (name T1) && bool_decide (underdog = Some 1)
   then set_previous_upset winner true else ret tt) ;;;
  W <- get_team winner ;;
  T2 <- get_team team2 ;;
  (if String.eqb (name W) (name T2) && bool_decide (underdog = Some 2)
   then set_previous_upset winner true else ret tt) ;;;
  ret winner.

(** The element expression of the comprehension in [SingleRoundPlayBall]:
    [WeightedCoinFlip(lineup[index], lineup[index + 1])]. *)
Definition play_pair (lineup : loc) (index : Z) : Py loc :=
  L1 <- get_list lineup ;;
  team1 <- lift (list_getitem L1 index) ;;
  L2 <- get_list lineup ;;
  team2 <- lift (list_getitem L2 (index + 1)) ;;
  WeightedCoinFlip team1 team2.

(** Takes a lineup and produces the next one. *)
Definition SingleRoundPlayBall (lineup : loc) : Py loc :=
  L <- get_list lineup ;;
  winners <- mapM (play_pair lineup) (py_range 0 (Z.of_nat (length L)) 2) ;;
  new_list winners.

(** ** Frames: what a computation leaves alone *)

(** Two states of a team object that differ at most in [previous_upset]. *)
Definition frozen (T T' : Team) : Prop :=
  name T = name T' /\ seed T = seed T' /\ division T = division T' /\
  odds T = odds T' /\ probability T = probability T'.

(** The same team objects exist, and each kept every field but the flag. *)
Definition teams_frame (h h' : gmap loc Team) : Prop :=
  forall t, option_Forall2 frozen (h !! t) (h' !! t).

(** Every list object of [w] is still there in [w'] with the same items. *)
Definition lists_kept (w w' : world) : Prop :=
  forall l L, lists w !! l = Some L -> lists w' !! l = Some L.

Definition frame (w w' : world) : Prop :=
  teams_frame (teams w) (teams w') /\ lists_kept w w' /\ tape w' = tape w.

(** A computation keeps the frame when every run of it does, whatever the
    outcome. *)
Definition keeps_frame {A} (c : Py A) : Prop := forall w, frame w (snd (c w)).

(** ** Vocabulary for the matchup *)

Definition underdog_of (p1 p2 : spec_float) : option Z :=
  if F64.ltb p2 p1 then Some 2
  else if F64.ltb p1 p2 then Some 1
  else None.

Definition flag_of (w : world) (t : loc) : option bool :=
  previous_upset <$> teams w !! t.

(** The number of slips in the hat: [range] of a negative count is empty. *)
Definition hat_size (n1 n2 : Z) : nat := (Z.to_nat n1 + Z.to_nat n2)%nat.

(** Everything [WeightedCoinFlip] computes before it draws: the two
    probabilities, the two slip counts, and the check that the hat holds
    1000 slips. *)
Definition fill_hat (a b : spec_float) : outcome (spec_float * spec_float * Z * Z) :=
  obind (win_probabilities a b) (fun ps =>
  obind (slips ps.1) (fun n1 =>
  obind (slips ps.2) (fun n2 =>
  if (hat_size n1 n2 =? 1000)%nat then Returned (ps.1, ps.2, n1, n2)
  else Raised AssertionError))).

Definition full_hat (T1 T2 : Team) : bool :=
  match fill_hat (probability T1) (probability T2) with
  | Returned _ => true
  | Raised _ => false
  end.

(** The world once both flags of a matchup have been reset. *)
Definition flags_reset (w w2 : world) (t1 t2 : loc) : Prop :=
  drawn w2 = drawn w /\ tape w2 = tape w /\ lists w2 = lists w /\
  flag_of w2 t1 = Some false /\ flag_of w2 t2 = Some false /\
  teams_frame (teams w) (teams w2) /\
  (forall t, t <> t1 -> t <> t2 -> teams w2 !! t = teams w !! t).

(** ** Vocabulary for the round *)

(** The pair of lineup positions [2i], [2i+1] and the team objects there. *)
Definition pair_at (w : world) (L : list loc) (i : nat)
    (a b : loc) (Ta Tb : Team) : Prop :=
  L !! (2 * i)%nat = Some a /\ L !! (2 * i + 1)%nat = Some b /\
  teams w !! a = Some Ta /\ teams w !! b = Some Tb.

(** The first [k] pairs of the lineup are matchups with a full hat. *)
Definition resolvable (w : world) (L : list loc) (k : nat) : Prop :=
  forall i, (i < k)%nat ->
    exists a b Ta Tb, pair_at w L i a b Ta Tb /\ full_hat Ta Tb = true.

(** The winner of a matchup with a full hat, as the raw draw [r] decides it. *)
Definition winner_of (Ta Tb : Team) (a b : loc) (r : nat) : option loc :=
  match fill_hat (probability Ta) (probability Tb) with
  | Returned (_, _, n1, _) => Some (if (r mod 1000 <? Z.to_nat n1)%nat then a else b)
  | Raised _ => None
  end.

(** ** The matchup with the upset attributed by identity *)

(** [WeightedCoinFlip] as section 4.3 of the specification words its third
    effect ("if the drawn winner is the underdog"): the same procedure, but
    the drawn winner is compared with the two entrants as an object, not
    through its [name]. *)
Definition WeightedCoinFlip_by_identity (team1 team2 : loc) : Py loc :=
  set_previous_upset team1 false ;;;
  set_previous_upset team2 false ;;;
  probabilities <- CalculateWinProbabilities team1 team2 ;;
  let '(team1_win_probability, team2_win_probability) := probabilities in
  let underdog : option Z :=
    if F64.ltb team2_win_probability team1_win_probability then Some 2
    else if F64.ltb team1_win_probability team2_win_probability then Some 1
    else None in
  n1 <- lift (slips team1_win_probability) ;;
  let hat := replicate (Z.to_nat n1) team1 in
  n2 <- lift (slips team2_win_probability) ;;
  let hat := hat ++ replicate (Z.to_nat n2) team2 in
  py_assert (Z.of_nat (length hat) =? 1000) ;;;
  winner_index <- randint 0 (Z.of_nat (length hat) - 1) ;;
  winner <- lift (list_getitem hat winner_index) ;;
  (if bool_decide (winner = team1) && bool_decide (underdog = Some 1)
   then set_previous_upset winner true else ret tt) ;;;
  (if bool_decide (winner = team2) && bool_decide (underdog = Some 2)
   then set_previous_upset winner true else ret tt) ;;;
  ret winner.

(** ** Worked inputs *)

Definition empty_world (tape : nat -> nat) : world := mkWorld ∅ ∅ tape 0.

(** Two entrants built the way [ImportData] builds them, and their lineup. *)
Definition two_teams (name1 name2 : string) (odds1 odds2 : Z) : Py loc :=
  team1 <- Team_new name1 "1" "East" (F64.of_Z odds1) ;;
  team2 <- Team_new name2 "2" "East" (F64.of_Z odds2) ;;
  new_list [team1; team2].

(** Odds 1 against odds 79; teams [0] and [1], lineup [0]. *)
Definition long_shot : world :=
  snd (two_teams "Kentucky" "Hampton" 1 79 (empty_world (fun _ => 0%nat))).

(** Two entrants that share a name, odds 4 against odds 1, and a tape whose
    first draw falls on a slip of the favourite. *)
Definition namesakes : world :=
  snd (two_teams "Wildcats" "Wildcats" 4 1 (empty_world (fun _ => 500%nat))).

(** A division of four, odds 2, 3, 4 and 1; lineup [0] holds all four,
    lineup [1] only the first three. *)
Definition four_teams : world :=
  snd ((a <- Team_new "Duke" "1" "South" (F64.of_Z 2) ;;
        b <- Team_new "Butler" "8" "South" (F64.of_Z 3) ;;
        c <- Team_new "Xavier" "6" "South" (F64.of_Z 4) ;;
        d <- Team_new "Kansas" "2" "South" (F64.of_Z 1) ;;
        new_list [a; b; c; d] ;;;
        new_list [a; b; c])
       (empty_world (fun n => (700 * n + 123)%nat))).

(** Two entrants of infinite odds: their win weight is zero. *)
Definition no_hopers : world :=
  snd ((a <- Team_new "Alpha" "15" "West" (S754_infinity false) ;;
        b <- Team_new "Omega" "16" "West" (S754_infinity false) ;;
        new_list [a; b])
       (empty_world (fun _ => 0%nat))).

(** ** Vocabulary for the arithmetic *)

(** The value [m1 * 2^e1] is at most [m2 * 2^e2]. *)
Definition val_le (m1 : positive) (e1 : Z) (m2 : positive) (e2 : Z) : Prop :=
  Z.pos m1 * 2 ^ (e1 - Z.min e1 e2) <= Z.pos m2 * 2 ^ (e2 - Z.min e1 e2).

(** The double nearest to [n / 1000], as [round(x, 3)] produces it. *)
Definition thousandth (n : Z) : spec_float :=
  match n with
  | Z.pos p => F64.div (S754_finite false p 0) (S754_finite false 1000 0)
  | _ => S754_zero false
  end.

(** The percentage [CalculateWinProbabilities] returns for [n] thousandths. *)
Definition percent (n : Z) : spec_float := F64.mul (thousandth n) (F64.of_Z 100).

(** What holds of the percentage for [n] thousandths: it lies between 0 and
    100, and it puts [n] slips into the hat. *)
Definition percent_ok (n : Z) : bool :=
  F64.leb (F64.of_Z 0) (percent n) && F64.leb (percent n) (F64.of_Z 100) &&
  match slips (percent n) with
  | Returned k => k =? n
  | Raised _ => false
  end.

(** [round3] of section 4.2 of the specification. *)
Definition round3 (x : spec_float) : spec_float := py_round x 3.

(** The win weight of an entrant of integer odds. *)
Definition weight_of_odds (n : Z) : spec_float := F64.div (F64.of_Z 1) (F64.of_Z n).

(** The largest power of two, [2^1023]: twice it overflows. *)
Definition huge : spec_float := S754_finite false 4503599627370496 971.

(** Two entrants of the same odds 7. *)
Definition even_match : world :=
  snd (two_teams "Gonzaga" "Villanova" 7 7 (empty_world (fun _ => 999%nat))).

(** Two entrants of odds [2^-1023] (about 1.1e-308): each has win weight
    [huge]. *)
Definition giants : world :=
  snd ((a <- Team_new "Goliath" "1" "East" (S754_finite false 2251799813685248 (-1074)) ;;
        b <- Team_new "Titan" "2" "East" (S754_finite false 2251799813685248 (-1074)) ;;
        new_list [a; b])
       (empty_world (fun _ => 0%nat))).

(** * The rest of the program: the coin, the presenter, the loader, [main] *)

From Stdlib Require Import DecimalString Ascii.

(** ** The unweighted coin *)

(** Matches up two teams and returns a winner: [team_list[random.randint(0, 1)]]. *)
Definition RandomCoinFlip (team1 team2 : loc) : Py loc :=
  let team_list := [team1; team2] in
  winner_index <- randint 0 1 ;;
  lift (list_getitem team_list winner_index).

(** ** Text *)

(** [str.upper()] and [str.lower()] of a byte string: the program sets no
    locale, so only the ASCII letters change. *)
Definition ascii_upper (c : ascii) : ascii :=
  let n := nat_of_ascii c in
  if (97 <=? n)%nat && (n <=? 122)%nat then ascii_of_nat (n - 32) else c.

Definition ascii_lower (c : ascii) : ascii :=
  let n := nat_of_ascii c in
  if (65 <=? n)%nat && (n <=? 90)%nat then ascii_of_nat (n + 32) else c.

Fixpoint str_map (f : ascii -> ascii) (s : string) : string :=
  match s with
  | EmptyString => EmptyString
  | String c s' => String (f c) (str_map f s')
  end.

Definition str_upper : string -> string := str_map ascii_upper.
Definition str_lower : string -> string := str_map ascii_lower.

(** The name as [FormattedTeamName] shows it for a state of the team object. *)
Definition formatted (T : Team) : string :=
  if previous_upset T then str_upper (name T) else str_lower (name T).

(** Format team name in all caps if it was the underdog in previous round. *)
Definition FormattedTeamName (team : loc) : Py string :=
  T <- get_team team ;;
  ret (if previous_upset T then str_upper (name T) else str_lower (name T)).

(** *** [str] of a float

    CPython 2.7 prints a float with 12 significant digits, correctly
    rounded (halves to even), trailing zeros dropped, in the layout of the
    C format [%.12g] completed with [.0] when no point or exponent would
    show. *)

Definition decimal (n : Z) : string := NilZero.string_of_uint (N.to_uint (Z.to_N n)).

Definition zeros (n : Z) : string := String.string_of_list_ascii (replicate (Z.to_nat n) "0"%char).

(** Drops the zeros at the end of a digit string. *)
Fixpoint rstrip_zeros (s : string) : string :=
  match s with
  | EmptyString => EmptyString
  | String c s' =>
      match rstrip_zeros s' with
      | EmptyString => if Ascii.eqb c "0" then EmptyString else String c EmptyString
      | t => String c t
      end
  end.

(** The integer nearest to [num / den], halves to the even neighbour. *)
Definition half_even (num den : Z) : Z :=
  let q := num / den in
  let r := num mod den in
  if 2 * r <? den then q
  else if den <? 2 * r then q + 1
  else if Z.even q then q else q + 1.

(** The decimal exponent of [num / den]: the [k] with
    [10^(k-1) <= num / den < 10^k]. *)
Definition decimal_exponent (num den : Z) : Z :=
  if den <=? num then Z.of_nat (String.length (decimal (num / den)))
  else 1 - Z.of_nat (String.length (decimal ((den - 1) / num))).

(** The digits of [m * 2^e] to [ndigits] significant places, and the
    position of the decimal point relative to their start. *)
Definition significant_digits (ndigits : Z) (m : positive) (e : Z) : string * Z :=
  let num := if 0 <=? e then Z.pos m * 2 ^ e else Z.pos m in
  let den := if 0 <=? e then 1 else 2 ^ (- e) in
  let k := decimal_exponent num den in
  let q := if k <=? ndigits then half_even (num * 10 ^ (ndigits - k)) den
           else half_even num (den * 10 ^ (k - ndigits)) in
  let digits := decimal q in
  (rstrip_zeros digits, k + (Z.of_nat (String.length digits) - ndigits)).

(** The exponent as C's [%+.02d] prints it. *)
Definition exponent_text (exp : Z) : string :=
  (if exp <? 0 then "-" else "+") +:+
  (if Z.abs exp <? 10 then "0" else "") +:+ decimal (Z.abs exp).

(** The layout of digits [digits] with the point after [decpt] of them. *)
Definition layout (digits : string) (decpt : Z) : string :=
  let len := Z.of_nat (String.length digits) in
  if (decpt <=? -4) || (11 <? decpt) then
    String.substring 0 1 digits +:+
    (if 1 <? len then "." +:+ String.substring 1 (String.length digits - 1) digits else "") +:+
    "e" +:+ exponent_text (decpt - 1)
  else if decpt <=? 0 then "0." +:+ zeros (- decpt) +:+ digits
  else if decpt <? len then
    String.substring 0 (Z.to_nat decpt) digits +:+ "." +:+
    String.substring (Z.to_nat decpt) (String.length digits - Z.to_nat decpt) digits
  else digits +:+ zeros (decpt - len) +:+ ".0".

Definition float_str (x : spec_float) : string :=
  match x with
  | S754_nan => "nan"
  | S754_infinity s => if s then "-inf" else "inf"
  | S754_zero s => if s then "-0.0" else "0.0"
  | S754_finite s m e =>
      let '(digits, decpt) := significant_digits 12 m e in
      (if s then "-" else "") +:+ layout digits decpt
  end.

(** *** The [%] operator

    [fmt % args] for the two conversions the program's format strings use,
    [%s] and [%%], with the arguments already turned into text.  [None] is
    the [TypeError] of too few or too many arguments; a format string with
    any other conversion, which the program does not have, also gives
    [None]. *)
Fixpoint format (fmt : string) (args : list string) : option string :=
  match fmt with
  | EmptyString => match args with [] => Some EmptyString | _ :: _ => None end
  | String "%" (String "s" rest) =>
      match args with
      | a :: args' => String.append a <$> format rest args'
      | [] => None
      end
  | String "%" (String "%" rest) => String "%" <$> format rest args
  | String "%" _ => None
  | String c rest => String c <$> format rest args
  end.

(** ** The console

    The presenter and [main] also write to standard output and can raise
    more than the engine does.  A session is the store together with what
    has been printed: one entry per [print] statement, each written with a
    newline after it. *)

Inductive failure : Type :=
  | Engine (e : exn)    (* an exception of the engine, as it raised it *)
  | TypeError
  | KeyError
  | IOError.

Inductive result (A : Type) : Type :=
  | Done (a : A)
  | Failed (f : failure).
Arguments Done {A} a.
Arguments Failed {A} f.

Record session : Type := mkSession {
  store : world;
  stdout : list string
}.

Definition Run (A : Type) : Type := session -> result A * session.

Definition done {A} (a : A) : Run A := fun s => (Done a, s).
Definition fail {A} (f : failure) : Run A := fun s => (Failed f, s).
Definition and_then {A B} (c : Run A) (k : A -> Run B) : Run B :=
  fun s =>
    match c s with
    | (Done a, s') => k a s'
    | (Failed f, s') => (Failed f, s')
    end.

(** A computation of the engine, run on the store of the session. *)
Definition engine {A} (c : Py A) : Run A := fun s =>
  match c (store s) with
  | (Returned a, w) => (Done a, mkSession w (stdout s))
  | (Raised e, w) => (Failed (Engine e), mkSession w (stdout s))
  end.

(** [print text]. *)
Definition print (text : string) : Run unit := fun s =>
  (Done tt, mkSession (store s) (stdout s ++ [text])).

(** [fmt % args]. *)
Definition formatted_with (fmt : string) (args : list string) : Run string :=
  match format fmt args with
  | Some text => done text
  | None => fail TypeError
  end.

Declare Scope run_scope.
Delimit Scope run_scope with run.
Notation "x <- c1 ;; c2" := (and_then c1 (fun x => c2))
  (at level 100, c1 at next level, right associativity) : run_scope.
Notation "c1 ;;; c2" := (and_then c1 (fun _ => c2))
  (at level 100, right associativity) : run_scope.
Local Open Scope run_scope.

Fixpoint for_each {A} (body : A -> Run unit) (l : list A) : Run unit :=
  match l with
  | [] => done tt
  | a :: l' => body a ;;; for_each body l'
  end.

(** ** The presenter *)

(** Prints the tournament header. *)
Definition PrintTournamentHeader (tournament_name : string) : Run unit :=
  print "**************************************************" ;;;
  print tournament_name ;;;
  print "**************************************************".

(** The body of the loop of [PritsPrintLineup] for one [index]. *)
Definition print_pair (lineup : loc) (index : Z) : Run unit :=
  L1 <- engine (get_list lineup) ;;
  team1 <- engine (lift (list_getitem L1 index)) ;;
  L2 <- engine (get_list lineup) ;;
  team2 <- engine (lift (list_getitem L2 (index + 1))) ;;
  probabilities <- engine (CalculateWinProbabilities team1 team2) ;;
  let '(team1_win_probability, team2_win_probability) := probabilities in
  T1 <- engine (get_team team1) ;;
  let formatted_team1_name := str_lower (name T1) in
  T2 <- engine (get_team team2) ;;
  let formatted_team2_name := str_lower (name T2) in
  T1 <- engine (get_team team1) ;;
  shown1 <- engine (FormattedTeamName team1) ;;
  T2 <- engine (get_team team2) ;;
  shown2 <- engine (FormattedTeamName team2) ;;
  line <- formatted_with "[%s] %s (%s%%) vs. [%s] %s (%s%%)"
            [seed T1; shown1; float_str team1_win_probability;
             seed T2; shown2; float_str team2_win_probability] ;;
  print line.

(** Prints the lineup pretty print style. *)
Definition PritsPrintLineup (lineup : loc) : Run unit :=
  L <- engine (get_list lineup) ;;
  for_each (print_pair lineup) (py_range 0 (Z.of_nat (length L)) 2) ;;;
  print "".

(** ** The loader *)

(** *** [float] of a string

    Blanks on both sides are skipped; what is left is a sign, then either
    digits with an optional point and an optional exponent, or [inf],
    [infinity] or [nan] in any case; the decimal number is converted to the
    nearest double, halves to even, a number too large to infinity. *)

Definition is_space (c : ascii) : bool :=
  let n := nat_of_ascii c in
  (n =? 32)%nat || ((9 <=? n)%nat && (n <=? 13)%nat).

Definition digit_of (c : ascii) : option Z :=
  let n := nat_of_ascii c in
  if (48 <=? n)%nat && (n <=? 57)%nat then Some (Z.of_nat (n - 48)) else None.

Fixpoint lstrip (s : string) : string :=
  match s with
  | EmptyString => EmptyString
  | String c s' => if is_space c then lstrip s' else s
  end.

(** The digits at the start of [s]: their value continued from [acc], their
    number added to [count], and what follows them. *)
Fixpoint read_digits (s : string) (acc count : Z) : Z * Z * string :=
  match s with
  | EmptyString => (acc, count, EmptyString)
  | String c s' =>
      match digit_of c with
      | Some d => read_digits s' (10 * acc + d) (count + 1)
      | None => (acc, count, s)
      end
  end.

Definition read_sign (s : string) : bool * string :=
  match s with
  | String "-" s' => (true, s')
  | String "+" s' => (false, s')
  | _ => (false, s)
  end.

(** An exponent part [e], sign, digits at the start of [s]; without digits
    nothing is read. *)
Definition read_exponent (s : string) : Z * string :=
  match s with
  | String c s' =>
      if Ascii.eqb c "e" || Ascii.eqb c "E" then
        let '(negative, s1) := read_sign s' in
        let '(value, count, s2) := read_digits s1 0 0 in
        if count =? 0 then (0, s) else (if negative then - value else value, s2)
      else (0, s)
  | EmptyString => (0, s)
  end.

(** A decimal number at the start of [s]: its sign, its digits as an
    integer, the power of ten that scales them, and what follows. *)
Definition read_decimal (s : string) : option (bool * Z * Z * string) :=
  let '(negative, s1) := read_sign s in
  let '(whole, n_whole, s2) := read_digits s1 0 0 in
  let '(mantissa, n_fraction, s3) :=
    match s2 with
    | String "." s2' => read_digits s2' whole 0
    | _ => (whole, 0, s2)
    end in
  if n_whole + n_fraction =? 0 then None
  else
    let '(exponent, s4) := read_exponent s3 in
    Some (negative, mantissa, exponent - n_fraction, s4).

(** [s] starts with [word], letters compared without case. *)
Fixpoint starts_with (word s : string) : option string :=
  match word, s with
  | EmptyString, _ => Some s
  | String a word', String c s' =>
      if Ascii.eqb (ascii_lower c) a then starts_with word' s' else None
  | String _ _, EmptyString => None
  end.

Definition read_inf_or_nan (s : string) : option (spec_float * string) :=
  let '(negative, s1) := read_sign s in
  match starts_with "inf" s1 with
  | Some s2 =>
      match starts_with "inity" s2 with
      | Some s3 => Some (S754_infinity negative, s3)
      | None => Some (S754_infinity negative, s2)
      end
  | None =>
      match starts_with "nan" s1 with
      | Some s2 => Some (S754_nan, s2)
      | None => None
      end
  end.

(** The double nearest to [mantissa * 10^exponent]. *)
Definition decimal_value (negative : bool) (mantissa exponent : Z) : spec_float :=
  match mantissa with
  | Z.pos m =>
      if 0 <=? exponent
      then F64.div (S754_finite negative (Z.to_pos (Z.pos m * 10 ^ exponent)) 0)
                   (S754_finite false 1 0)
      else F64.div (S754_finite negative m 0)
                   (S754_finite false (Z.to_pos (10 ^ (- exponent))) 0)
  | _ => S754_zero negative
  end.

Definition py_float (s : string) : outcome spec_float :=
  let s1 := lstrip s in
  let parsed :=
    match read_decimal s1 with
    | Some (negative, mantissa, exponent, rest) =>
        Some (decimal_value negative mantissa exponent, rest)
    | None => read_inf_or_nan s1
    end in
  match parsed with
  | Some (x, rest) =>
      match lstrip rest with
      | EmptyString => Returned x
      | String _ _ => Raised ValueError
      end
  | None => Raised ValueError
  end.

(** *** The data file

    The file is read through [csv.DictReader], which hands over one
    dictionary per record, from the column names of the header to the cells
    of the record.  The embedding starts from these dictionaries, for the
    records that have a field for every column of the header: all their
    cells are strings, and a [row] maps the column names to them.  A record
    with fewer fields than the header, whose missing cells the reader fills
    with [None], is not a [row]; what is proved of the loader is proved of
    files without such records.  [files] maps a path to the rows of the
    file there. *)

Definition row : Type := gmap string string.

Definition open (files : gmap string (list row)) (csv_path : string) : Run (list row) :=
  match files !! csv_path with
  | Some rows => done rows
  | None => fail IOError
  end.

(** [row[key]]: a [KeyError] when the header has no column [key]. *)
Definition row_getitem (r : row) (key : string) : Run string :=
  match r !! key with
  | Some cell => done cell
  | None => fail KeyError
  end.

(** [l.append(item)] and [l.extend(other)] on list objects. *)
Definition list_append (l item : loc) : Py unit := fun w =>
  match lists w !! l with
  | Some L => (Returned tt, with_lists (<[l := L ++ [item]]> (lists w)) w)
  | None => (Raised NoSuchObject, w)
  end.

Definition list_extend (l other : loc) : Py unit := fun w =>
  match lists w !! l, lists w !! other with
  | Some L, Some L' => (Returned tt, with_lists (<[l := L ++ L']> (lists w)) w)
  | _, _ => (Raised NoSuchObject, w)
  end.

(** The body of the loop over the rows.  [lineup_dict] maps a division to
    its list object; the empty list passed to [setdefault] becomes an object
    of the store when it is kept, that is for a division not seen before. *)
Definition import_row (lineup_dict : gmap string loc) (r : row) : Run (gmap string loc) :=
  name <- row_getitem r "Team" ;;
  seed <- row_getitem r "Seed" ;;
  division <- row_getitem r "Division" ;;
  cell <- row_getitem r "Odds" ;;
  odds <- engine (lift (py_float cell)) ;;
  team <- engine (Team_new name seed division odds) ;;
  match lineup_dict !! division with
  | Some l => engine (list_append l team) ;;; done lineup_dict
  | None =>
      l <- engine (new_list []) ;;
      engine (list_append l team) ;;;
      done (<[division := l]> lineup_dict)
  end.

Fixpoint import_rows (lineup_dict : gmap string loc) (rows : list row)
    : Run (gmap string loc) :=
  match rows with
  | [] => done lineup_dict
  | r :: rows' =>
      lineup_dict <- import_row lineup_dict r ;;
      import_rows lineup_dict rows'
  end.

(** A generator object: resuming it runs its body up to the next [yield]
    and gives the value yielded with the generator that goes on from
    there, or [None] when the body has come to its end. *)
#[warnings="-register-all"]
Inductive generator : Type :=
  | Gen (resume : session -> result (option (loc * generator)) * session).

Definition TOURNAMENT : list string :=
  ["Midwest"; "West"; "South"; "East"; "Final Four"; "Championship"; "Champion!"].

Definition ROUND_NAMES : list string :=
  ["%s Round of 64"; "%s Round of 32"; "%s Sweet Sixteen"; "%s Elite Eight";
   "Final Four"; "Championship"].

Definition LINEUP_ORDER : list string := take 4 TOURNAMENT.

(** [for division in order: yield lineup_dict[division]]. *)
Fixpoint yield_lineups (lineup_dict : gmap string loc) (order : list string)
    : Run (option (loc * generator)) :=
  match order with
  | [] => done None
  | division :: later =>
      match lineup_dict !! division with
      | Some lineup => done (Some (lineup, Gen (yield_lineups lineup_dict later)))
      | None => fail KeyError
      end
  end.

(** Imports data from CSV and creates lineup with team objects.  Calling it
    runs nothing: the file is opened and read when the first lineup is asked
    for. *)
Definition ImportData (files : gmap string (list row)) (csv_path : string) : generator :=
  Gen (rows <- open files csv_path ;;
       lineup_dict <- import_rows ∅ rows ;;
       yield_lineups lineup_dict LINEUP_ORDER).

(** ** [main] *)

Definition newline : string := String (ascii_of_nat 10) EmptyString.

Definition getitem {A} (l : list A) (i : Z) : Run A := engine (lift (list_getitem l i)).

(** The [while len(lineup) > 1] loop of a division.  [round_names] is what
    is left of [ROUND_NAMES] from [round_index] on: [ROUND_NAMES[round_index]]
    is its head, and an [IndexError] once nothing is left. *)
Fixpoint play_rounds (round_names : list string) (tournament_index : Z) (lineup : loc)
    : Run loc :=
  L <- engine (get_list lineup) ;;
  if 1 <? Z.of_nat (length L) then
    match round_names with
    | [] => fail (Engine IndexError)
    | round_name :: later =>
        tournament_name <- getitem TOURNAMENT tournament_index ;;
        heading <- formatted_with round_name [tournament_name] ;;
        print heading ;;;
        PritsPrintLineup lineup ;;;
        lineup <- engine (SingleRoundPlayBall lineup) ;;
        play_rounds later tournament_index lineup
    end
  else done lineup.

(** The body of [for lineup in lineups]. *)
Definition play_division (semi_final_lineup : loc) (tournament_index : Z) (lineup : loc)
    : Run unit :=
  tournament_name <- getitem TOURNAMENT tournament_index ;;
  PrintTournamentHeader tournament_name ;;;
  lineup <- play_rounds ROUND_NAMES tournament_index lineup ;;
  tournament_name <- getitem TOURNAMENT tournament_index ;;
  L <- engine (get_list lineup) ;;
  winner <- getitem L 0 ;;
  shown <- engine (FormattedTeamName winner) ;;
  text <- formatted_with ("%s Final Four" +:+ newline +:+ "%s" +:+ newline)
            [tournament_name; shown] ;;
  print text ;;;
  engine (list_extend semi_final_lineup lineup).

(** [for lineup in lineups: ...; tournament_index += 1]; the value is the
    index after the loop. *)
Fixpoint standard_tournament (lineups : generator) (semi_final_lineup : loc)
    (tournament_index : Z) : Run Z :=
  match lineups with
  | Gen resume => fun s =>
      match resume s with
      | (Done (Some (lineup, later)), s1) =>
          (play_division semi_final_lineup tournament_index lineup ;;;
           standard_tournament later semi_final_lineup (tournament_index + 1)) s1
      | (Done None, s1) => (Done tournament_index, s1)
      | (Failed f, s1) => (Failed f, s1)
      end
  end.

(** The Final Four, Championship and Champion sections of [main]. *)
Definition final_rounds (semi_final_lineup : loc) (tournament_index : Z) : Run unit :=
  tournament_name <- getitem TOURNAMENT tournament_index ;;
  PrintTournamentHeader tournament_name ;;;
  let tournament_index := tournament_index + 1 in
  PritsPrintLineup semi_final_lineup ;;;
  final_lineup <- engine (SingleRoundPlayBall semi_final_lineup) ;;
  tournament_name <- getitem TOURNAMENT tournament_index ;;
  PrintTournamentHeader tournament_name ;;;
  let tournament_index := tournament_index + 1 in
  PritsPrintLineup final_lineup ;;;
  tournament_name <- getitem TOURNAMENT tournament_index ;;
  PrintTournamentHeader tournament_name ;;;
  winners <- engine (SingleRoundPlayBall final_lineup) ;;
  W <- engine (get_list winners) ;;
  champion <- getitem W 0 ;;
  shown <- engine (FormattedTeamName champion) ;;
  print shown ;;;
  print (newline +:+ "-----------------------------------------------------------") ;;;
  print "                        END                                " ;;;
  print "-----------------------------------------------------------".

Definition main (argv : list string) (files : gmap string (list row)) : Run unit :=
  (if bool_decide (length argv <> 2%nat)
   then print "usage: python march-madness.py /path/to/file.csv"
   else done tt) ;;;
  csv_path_to_data <- getitem argv 1 ;;
  semi_final_lineup <- engine (new_list []) ;;
  final_lineup <- engine (new_list []) ;;
  let tournament_index := 0 in
  let lineups := ImportData files csv_path_to_data in
  print (newline +:+ newline +:+ "-----------------------------------------------------------") ;;;
  print "                       START                                 " ;;;
  print ("-----------------------------------------------------------" +:+ newline +:+ newline) ;;;
  tournament_index <- standard_tournament lineups semi_final_lineup tournament_index ;;
  final_rounds semi_final_lineup tournament_index.

(** ** Vocabulary for the presenter *)

Definition is_letter (c : ascii) : bool :=
  let n := nat_of_ascii c in
  ((65 <=? n)%nat && (n <=? 90)%nat) || ((97 <=? n)%nat && (n <=? 122)%nat).

Fixpoint has_letter (s : string) : bool :=
  match s with
  | EmptyString => false
  | String c s' => is_letter c || has_letter s'
  end.

(** [n] tenths written with one decimal: [623] is [62.3]. *)
Definition tenths (n : Z) : string := decimal (n / 10) +:+ "." +:+ decimal (n mod 10).

Definition tenths_ok (n : Z) : bool := String.eqb (float_str (percent n)) (tenths n).

(** The line [PritsPrintLineup] prints for a pair, put together piece by
    piece. *)
Definition matchup_line (T1 T2 : Team) (p1 p2 : spec_float) : string :=
  "[" +:+ seed T1 +:+ "] " +:+ formatted T1 +:+ " (" +:+ float_str p1 +:+ "%) vs. [" +:+
  seed T2 +:+ "] " +:+ formatted T2 +:+ " (" +:+ float_str p2 +:+ "%)".

(** The line for the pair at positions [2i], [2i+1] of a lineup, when both
    entrants exist and their probabilities can be computed. *)
Definition line_at (w : world) (L : list loc) (i : nat) : option string :=
  a ← L !! (2 * i)%nat;
  b ← L !! (2 * i + 1)%nat;
  Ta ← teams w !! a;
  Tb ← teams w !! b;
  match win_probabilities (probability Ta) (probability Tb) with
  | Returned (p1, p2) => Some (matchup_line Ta Tb p1 p2)
  | Raised _ => None
  end.

(** A computation of the engine that only reads the store. *)
Definition reads_only {A} (c : Py A) : Prop := forall w, snd (c w) = w.

(** A computation that leaves the store as it is and only adds to what has
    been printed. *)
Definition only_prints {A} (c : Run A) : Prop :=
  forall s, store (snd (c s)) = store s /\
            exists out, stdout (snd (c s)) = stdout s ++ out.

(** ** Vocabulary for the loader and [main] *)

(** The team object a row of the file gives, when the row has the four
    cells, the odds are a number, and the number is not zero. *)
Definition team_of_row (r : row) : option Team :=
  name ← r !! "Team";
  seed ← r !! "Seed";
  division ← r !! "Division";
  cell ← r !! "Odds";
  match py_float cell with
  | Returned odds =>
      match Team_init name seed division odds with
      | Returned T => Some T
      | Raised _ => None
      end
  | Raised _ => None
  end.

Fixpoint teams_of_rows (rows : list row) : option (list Team) :=
  match rows with
  | [] => Some []
  | r :: rows' =>
      T ← team_of_row r;
      Ts ← teams_of_rows rows';
      Some (T :: Ts)
  end.

(** Among team objects paired with their state, those of a division, in
    order. *)
Definition of_division (d : string) (built : list (loc * Team)) : list loc :=
  (filter (fun p => division p.2 = d) built).*1.

Definition in_division (d : string) (Ts : list Team) : list Team :=
  filter (fun T => division T = d) Ts.

(** What the loop over the rows has built so far: [built] lists the new team
    objects in row order, [lineup_dict] maps each division that has occurred
    to a new list object holding the objects of that division in row order,
    and whatever the store [w0] held before is still there. *)
Definition grouped (w0 w : world) (lineup_dict : gmap string loc)
    (built : list (loc * Team)) : Prop :=
  NoDup built.*1 /\
  (forall t T, (t, T) ∈ built -> teams w0 !! t = None /\ teams w !! t = Some T) /\
  (forall d,
     match lineup_dict !! d with
     | Some l => lists w0 !! l = None /\ lists w !! l = Some (of_division d built) /\
                 of_division d built <> []
     | None => of_division d built = []
     end) /\
  (forall d1 d2 l, lineup_dict !! d1 = Some l -> lineup_dict !! d2 = Some l -> d1 = d2) /\
  (forall t T, teams w0 !! t = Some T -> teams w !! t = Some T) /\
  (forall l L, lists w0 !! l = Some L -> lists w !! l = Some L) /\
  tape w = tape w0 /\ drawn w = drawn w0.

(** Resuming a generator. *)
Definition next (g : generator) : Run (option (loc * generator)) :=
  match g with Gen resume => resume end.

(** Any two entrants of the lineup are live team objects whose hat is full. *)
Definition playable (w : world) (L : list loc) : Prop :=
  forall a b, a ∈ L -> b ∈ L ->
    exists Ta Tb, teams w !! a = Some Ta /\ teams w !! b = Some Tb /\
                  full_hat Ta Tb = true.

(** A format string with exactly one slot. *)
Definition one_slot (fmt : string) : Prop :=
  forall a, exists text, format fmt [a] = Some text.

(** The sizes of a division that four round names allow. *)
Definition bracket_size (n : nat) : bool := bool_decide (n ∈ [1; 2; 4; 8; 16]%nat).

(** Any two teams of the field have a full hat. *)
Definition all_full (Ts : list Team) : bool :=
  forallb (fun Ta => forallb (full_hat Ta) Ts) Ts.

(** The teams of the four divisions that play. *)
Definition field (Ts : list Team) : list Team :=
  filter (fun T => division T ∈ LINEUP_ORDER) Ts.

(** [frame] but for the list object [semi], which [main] extends. *)
Definition frame_but (semi : loc) (w w' : world) : Prop :=
  teams_frame (teams w) (teams w') /\
  (forall l L, l <> semi -> lists w !! l = Some L -> lists w' !! l = Some L) /\
  tape w' = tape w.

(** The number of entrants of the division [d] in the store. *)
Definition lineup_size (w : world) (lineup_dict : gmap string loc) (d : string) : nat :=
  match lineup_dict !! d with
  | Some l => match lists w !! l with Some L => length L | None => 0 end
  | None => 0
  end.

(** What [main] needs of a division before it plays it. *)
Definition ready (semi : loc) (w : world) (lineup_dict : gmap string loc) (d : string) : Prop :=
  exists l L k, lineup_dict !! d = Some l /\ l <> semi /\ lists w !! l = Some L /\
                length L = (2 ^ k)%nat /\ (k <= 4)%nat /\ playable w L.

(** The store once [main] has made its two empty lineups. *)
Definition started (w : world) : world :=
  snd ((new_list [] ;;; new_list [])%py w).

(** ** A worked file

    Nine rows, not in division order: two entrants for each of the four
    divisions and one entrant of a division that does not play. *)

Definition csv_row (name seed division odds : string) : row :=
  {[ "Team" := name; "Seed" := seed; "Division" := division; "Odds" := odds ]}.

Definition bracket_rows : list row :=
  [csv_row "Duke" "1" "Midwest" "2"; csv_row "Butler" "8" "West" "3.5";
   csv_row "Kansas" "2" "Midwest" "7"; csv_row "Xavier" "3" "West" " 12e0 ";
   csv_row "Gonzaga" "1" "South" "4"; csv_row "Villanova" "1" "East" "1";
   csv_row "Siena" "16" "NIT" "250"; csv_row "Hampton" "16" "East" "3";
   csv_row "Baylor" "9" "South" "6"].

Definition bracket_files : gmap string (list row) := {[ "teams.csv" := bracket_rows ]}.

Definition bracket_teams : list Team := default [] (teams_of_rows bracket_rows).

(** A session that starts from nothing. *)
Definition fresh_session : session :=
  mkSession (empty_world (fun n => (700 * n + 123)%nat)) [].

(** The generator yields exactly these lineups, then stops, and resuming it
    leaves the session as it is. *)
Fixpoint yields (g : generator) (lineups : list loc) : Prop :=
  match lineups with
  | [] => forall s, next g s = (Done None, s)
  | l :: later =>
      exists g', (forall s, next g s = (Done (Some (l, g')), s)) /\ yields g' later
  end.

(** The first four rows of [bracket_rows]: no entrant of South or East. *)
Definition half_bracket_files : gmap string (list row) :=
  {[ "teams.csv" := take 4 bracket_rows ]}.

Definition half_bracket_teams : list Team :=
  default [] (teams_of_rows (take 4 bracket_rows)).

(** A computation of [main] that keeps the teams up to their flags and
    every list but [semi], whatever its outcome. *)
Definition keeps_but {A} (semi : loc) (c : Run A) : Prop :=
  forall s, frame_but semi (store s) (store (snd (c s))).


(** Every row has the same columns, as the dictionaries of one
    [csv.DictReader] have: those of the header.  With all cells strings,
    these are the rows of a file none of whose records is shorter than the
    header. *)
Definition same_columns (rows : list row) : Prop :=
  Forall (fun r => Forall (fun r' => dom r = dom r') rows) rows.


(** A computation of the engine that leaves the list objects as they are,
    whatever its outcome. *)
Definition same_lists {A} (c : Py A) : Prop := forall w, lists (snd (c w)) = lists w.

(** ** More worked inputs *)

(** An entrant whose odds are not a number, as [float] reads them from the
    text [nan], and an ordinary one. *)
Definition unknown_odds : world :=
  snd ((a <- Team_new "Alpha" "1" "West" S754_nan ;;
        b <- Team_new "Omega" "2" "West" (F64.of_Z 2) ;;
        new_list [a; b])%py
       (empty_world (fun _ => 0%nat))).

(** A pair that resolves followed by the pair of [long_shot], whose hat is
    one slip short. *)
Definition mixed_field : world :=
  snd ((a <- Team_new "Duke" "1" "South" (F64.of_Z 2) ;;
        b <- Team_new "Butler" "8" "South" (F64.of_Z 3) ;;
        c <- Team_new "Kentucky" "1" "South" (F64.of_Z 1) ;;
        d <- Team_new "Hampton" "16" "South" (F64.of_Z 79) ;;
        new_list [a; b; c; d])%py
       (empty_world (fun n => (700 * n + 123)%nat))).

(** [n] entrants of the same odds. *)
Fixpoint enroll (n : nat) (division : string) (odds : Z) : Py (list loc) :=
  match n with
  | O => ret []
  | S n' =>
      (t <- Team_new "Team" "1" division (F64.of_Z odds) ;;
       ts <- enroll n' division odds ;;
       ret (t :: ts))%py
  end.

(** A division of thirty-two, all of odds 5; lineup [0] holds them and
    lineup [1] is empty. *)
Definition crowd : world :=
  snd ((ts <- enroll 32 "Midwest" 5 ;; new_list ts ;;; new_list [])%py
       (empty_world (fun n => n))).

Local Close Scope run_scope.

(** * Proofs *)

(** ** Comparisons of doubles *)

Lemma SFcompare_antisym x y :
  SFcompare y x = CompOpp <$> SFcompare x y.
Proof.
  destruct x as [sx|sx| |sx mx ex], y as [sy|sy| |sy my ey]; simpl;
    try reflexivity; try (destruct sx; reflexivity); try (destruct sy; reflexivity);
    try (destruct sx, sy; reflexivity).
  assert (H : Pos.compare_cont Eq my mx = CompOpp (Pos.compare_cont Eq mx my))
    by (rewrite Pos.compare_cont_antisym; reflexivity).
  destruct sx, sy; simpl; try reflexivity;
    rewrite (Z.compare_antisym ex ey); destruct (ex ?= ey); simpl; try reflexivity;
    rewrite H; destruct (Pos.compare_cont Eq mx my); reflexivity.
Qed.

Lemma ltb_asym x y : F64.ltb x y = true -> F64.ltb y x = false.
Proof.
  unfold F64.ltb, SFltb. rewrite (SFcompare_antisym x y).
  destruct (SFcompare x y) as [[]|]; simpl; congruence.
Qed.

Lemma eqb_not_ltb x y :
  F64.eqb x y = true -> F64.ltb x y = false /\ F64.ltb y x = false.
Proof.
  unfold F64.eqb, F64.ltb, SFeqb, SFltb. rewrite (SFcompare_antisym x y).
  destruct (SFcompare x y) as [[]|]; simpl; done.
Qed.

(** ** Rounding to binary64 *)

Local Abbreviation fexp := (SpecFloat.fexp F64.prec F64.emax).

Lemma fexp_eq e : fexp e = Z.max (e - 53) (-1074).
Proof. reflexivity. Qed.

Lemma digits2_pos_bounds p :
  2 ^ (Z.pos (digits2_pos p) - 1) <= Z.pos p < 2 ^ Z.pos (digits2_pos p).
Proof.
  induction p as [p IH|p IH|]; simpl digits2_pos.
  - rewrite Pos2Z.inj_succ. replace (Z.succ (Z.pos (digits2_pos p)) - 1) with (Z.succ (Z.pos (digits2_pos p) - 1)) by lia.
    rewrite !Z.pow_succ_r by lia. lia.
  - rewrite Pos2Z.inj_succ. replace (Z.succ (Z.pos (digits2_pos p)) - 1) with (Z.succ (Z.pos (digits2_pos p) - 1)) by lia.
    rewrite !Z.pow_succ_r by lia. lia.
  - simpl. lia.
Qed.

Lemma Zdigits2_log2 m : 0 < m -> Zdigits2 m = Z.log2 m + 1.
Proof.
  intros Hm. destruct m as [|p|p]; try lia.
  change (Zdigits2 (Z.pos p)) with (Z.pos (digits2_pos p)).
  pose proof (digits2_pos_bounds p) as [Hl Hu].
  assert (E : Z.log2 (Z.pos p) = Z.pos (digits2_pos p) - 1); [|lia].
  apply Z.log2_unique; [lia|].
  replace (Z.succ (Z.pos (digits2_pos p) - 1)) with (Z.pos (digits2_pos p)) by lia. lia.
Qed.

Lemma Zdigits2_bounds m :
  0 < m -> 2 ^ (Zdigits2 m - 1) <= m < 2 ^ Zdigits2 m.
Proof.
  intros Hm. destruct m as [|p|p]; try lia. apply digits2_pos_bounds.
Qed.

Lemma Zdigits2_nonneg m : 0 <= Zdigits2 m.
Proof. destruct m; simpl; lia. Qed.

Lemma Zdigits2_pos m : 0 < m -> 0 < Zdigits2 m.
Proof. destruct m; simpl; lia. Qed.

(** [d] is the number of digits of [m] as soon as [m] lies in the binade. *)
Lemma Zdigits2_unique m d :
  2 ^ (d - 1) <= m < 2 ^ d -> 0 < d -> Zdigits2 m = d.
Proof.
  intros [Hl Hu] Hd.
  assert (0 < m) by (pose proof (Z.pow_pos_nonneg 2 (d - 1)); lia).
  rewrite Zdigits2_log2 by lia.
  rewrite (Z.log2_unique m (d - 1)); [lia|lia|].
  replace (Z.succ (d - 1)) with d by lia. lia.
Qed.

Lemma Zdigits2_le m n : 0 < m -> m <= n -> Zdigits2 m <= Zdigits2 n.
Proof.
  intros Hm Hmn. rewrite !Zdigits2_log2 by lia.
  pose proof (Z.log2_le_mono m n Hmn). lia.
Qed.

Lemma Zdigits2_lt_pow m d : 0 <= d -> 0 <= m < 2 ^ d -> Zdigits2 m <= d.
Proof.
  intros Hd [Hm Hu]. destruct (Z.eq_dec m 0) as [->|]; [simpl; lia|].
  rewrite Zdigits2_log2 by lia.
  assert (Z.log2 m < d) by (apply Z.log2_lt_pow2; lia). lia.
Qed.

Lemma Zdigits2_ge_pow m d : 0 <= d -> 2 ^ d <= m -> d < Zdigits2 m.
Proof.
  intros Hd Hl.
  assert (0 < m) by (pose proof (Z.pow_pos_nonneg 2 d); lia).
  rewrite Zdigits2_log2 by lia.
  assert (d <= Z.log2 m) by (apply Z.log2_le_pow2; lia). lia.
Qed.

Lemma Zdigits2_div_pow2 m k :
  0 < m -> 0 <= k -> k < Zdigits2 m -> Zdigits2 (m / 2 ^ k) = Zdigits2 m - k.
Proof.
  intros Hm Hk Hd.
  pose proof (Zdigits2_bounds m Hm) as [Hl Hu].
  apply Zdigits2_unique; [|lia].
  assert (P : 0 < 2 ^ k) by (apply Z.pow_pos_nonneg; lia).
  split.
  - apply Z.div_le_lower_bound; [lia|].
    rewrite <- Z.pow_add_r by lia. replace (k + (Zdigits2 m - k - 1)) with (Zdigits2 m - 1) by lia. lia.
  - apply Z.div_lt_upper_bound; [lia|].
    rewrite <- Z.pow_add_r by lia. replace (k + (Zdigits2 m - k)) with (Zdigits2 m) by lia. lia.
Qed.

(** *** Shifting a mantissa right *)

Lemma shr_1_m r : 0 <= shr_m r -> shr_m (shr_1 r) = shr_m r / 2.
Proof.
  destruct r as [m b s]. simpl. intros Hm.
  destruct m as [|[p|p|]|p]; cbn [shr_1 shr_m]; try lia; try reflexivity.
  - apply (Z.div_unique _ 2 (Z.pos p) 1); lia.
  - apply (Z.div_unique _ 2 (Z.pos p) 0); lia.
Qed.

Lemma iter_shr_1_m p r :
  0 <= shr_m r ->
  shr_m (SpecFloat.iter_pos shr_1 p r) = shr_m r / 2 ^ Z.pos p.
Proof.
  revert r. induction p as [p IH|p IH|]; intros r Hr; simpl SpecFloat.iter_pos.
  - assert (H1 : 0 <= shr_m (shr_1 r)) by (rewrite shr_1_m by lia; apply Z.div_pos; lia).
    assert (H2 : 0 <= shr_m (SpecFloat.iter_pos shr_1 p (shr_1 r)))
      by (rewrite IH by lia; apply Z.div_pos; [lia|apply Z.pow_pos_nonneg; lia]).
    rewrite IH, IH, shr_1_m by lia.
    rewrite !Z.div_div by (try apply Z.pow_pos_nonneg; lia).
    change 2 with (2 ^ 1) at 1. rewrite <- !Z.pow_add_r by lia. do 2 f_equal. lia.
  - assert (H2 : 0 <= shr_m (SpecFloat.iter_pos shr_1 p r))
      by (rewrite IH by lia; apply Z.div_pos; [lia|apply Z.pow_pos_nonneg; lia]).
    rewrite IH, IH by lia.
    rewrite !Z.div_div by (try apply Z.pow_pos_nonneg; lia).
    rewrite <- Z.pow_add_r by lia. do 2 f_equal. lia.
  - rewrite shr_1_m by lia. reflexivity.
Qed.

Lemma shr_m_of_loc m l : shr_m (shr_record_of_loc m l) = m.
Proof. destruct l as [|[]]; reflexivity. Qed.

(** [shr_fexp] brings a mantissa to the exponent of its format, by a floor. *)
Lemma shr_fexp_spec m e l :
  0 <= m ->
  let e1 := Z.max e (fexp (Zdigits2 m + e)) in
  shr_m (fst (shr_fexp F64.prec F64.emax m e l)) = m / 2 ^ (e1 - e) /\
  snd (shr_fexp F64.prec F64.emax m e l) = e1.
Proof.
  intros Hm e1. unfold shr_fexp, shr.
  destruct (fexp (Zdigits2 m + e) - e) as [|p|p] eqn:E; simpl fst; simpl snd.
  - replace e1 with e by lia. rewrite Z.sub_diag, Z.div_1_r.
    split; [apply shr_m_of_loc|reflexivity].
  - replace (e1 - e) with (Z.pos p) by lia.
    rewrite iter_shr_1_m by (rewrite shr_m_of_loc; lia).
    rewrite shr_m_of_loc. split; [reflexivity|lia].
  - replace e1 with e by lia. rewrite Z.sub_diag, Z.div_1_r.
    split; [apply shr_m_of_loc|reflexivity].
Qed.

Lemma round_nearest_even_step m l :
  round_nearest_even m l = m \/ round_nearest_even m l = m + 1.
Proof.
  destruct l as [|[]]; simpl; auto. destruct (Z.even m); auto.
Qed.

(** The shape of every rounding: a floor to the exponent of the format, at
    most one unit more, and a second floor should that unit have carried
    into the next binade. *)
Lemma binary_round_aux_shape s mx ex lx :
  0 <= mx ->
  let e1 := Z.max ex (fexp (Zdigits2 mx + ex)) in
  let m0 := mx / 2 ^ (e1 - ex) in
  exists m1, (m1 = m0 \/ m1 = m0 + 1) /\
    let e2 := Z.max e1 (fexp (Zdigits2 m1 + e1)) in
    binary_round_aux F64.prec F64.emax s mx ex lx =
    match m1 / 2 ^ (e2 - e1) with
    | 0 => S754_zero s
    | Z.pos m => if e2 <=? F64.emax - F64.prec then S754_finite s m e2 else S754_infinity s
    | Z.neg _ => S754_nan
    end.
Proof.
  intros Hm e1 m0. unfold binary_round_aux.
  destruct (shr_fexp_spec mx ex lx Hm) as [E1 E2].
  destruct (shr_fexp F64.prec F64.emax mx ex lx) as [mrs' e'].
  simpl in E1, E2. fold e1 in E1, E2. fold m0 in E1. subst e'.
  set (m1 := round_nearest_even (shr_m mrs') (loc_of_shr_record mrs')).
  assert (H1 : m1 = m0 \/ m1 = m0 + 1)
    by (subst m1; rewrite <- E1; apply round_nearest_even_step).
  assert (0 <= m0) by (apply Z.div_pos; [lia|apply Z.pow_pos_nonneg; lia]).
  exists m1. split; [exact H1|]. cbv zeta.
  destruct (shr_fexp_spec m1 e1 loc_Exact ltac:(lia)) as [E3 E4].
  destruct (shr_fexp F64.prec F64.emax m1 e1 loc_Exact) as [mrs'' e''].
  simpl in E3, E4. rewrite E3, E4. reflexivity.
Qed.

Lemma fexp_le e1 e2 : e1 <= e2 -> fexp e1 <= fexp e2.
Proof. rewrite !fexp_eq. lia. Qed.

Lemma fexp_succ e : fexp (e + 1) <= fexp e + 1.
Proof. rewrite !fexp_eq. lia. Qed.

Lemma fexp_ge_emin e : -1074 <= fexp e.
Proof. rewrite fexp_eq. lia. Qed.

(** After the first floor the mantissa fits the format at its exponent. *)
Lemma floor_fits mx ex :
  0 <= mx ->
  let e1 := Z.max ex (fexp (Zdigits2 mx + ex)) in
  fexp (Zdigits2 (mx / 2 ^ (e1 - ex)) + e1) <= e1.
Proof.
  intros Hm e1.
  assert (He1 : -1074 <= e1) by (pose proof (fexp_ge_emin (Zdigits2 mx + ex)); lia).
  assert (Z0 : fexp (0 + e1) <= e1) by (rewrite fexp_eq; lia).
  destruct (Z.eq_dec mx 0) as [->|Hne].
  { rewrite Z.div_0_l by (apply Z.pow_nonzero; lia). exact Z0. }
  destruct (Z_lt_le_dec (e1 - ex) (Zdigits2 mx)) as [Hlt|Hge].
  - rewrite Zdigits2_div_pow2 by lia.
    replace (Zdigits2 mx - (e1 - ex) + e1) with (Zdigits2 mx + ex) by lia. lia.
  - rewrite Z.div_small; [exact Z0|].
    pose proof (Zdigits2_bounds mx ltac:(lia)) as [_ Hu].
    split; [lia|]. eapply Z.lt_le_trans; [exact Hu|].
    apply Z.pow_le_mono_r; lia.
Qed.

(** The value of every rounding: [m1] units of [2^e1], where [m1] is the
    floor of the exact value or one more; the result holds that value
    exactly, at the exponent [e1] or the next one. *)
Lemma binary_round_aux_value s mx ex lx e1 m0 :
  0 <= mx ->
  e1 = Z.max ex (fexp (Zdigits2 mx + ex)) ->
  m0 = mx / 2 ^ (e1 - ex) ->
  exists m1 e2 m2,
    (m1 = m0 \/ m1 = m0 + 1) /\ e1 <= e2 <= e1 + 1 /\ m1 = m2 * 2 ^ (e2 - e1) /\
    binary_round_aux F64.prec F64.emax s mx ex lx =
    match m2 with
    | 0 => S754_zero s
    | Z.pos m => if e2 <=? 971 then S754_finite s m e2 else S754_infinity s
    | Z.neg _ => S754_nan
    end.
Proof.
  intros Hm De1 Dm0.
  destruct (binary_round_aux_shape s mx ex lx Hm) as (m1 & H1 & E).
  cbv zeta in E. rewrite <- De1 in E, H1. rewrite <- Dm0 in H1.
  pose proof (floor_fits mx ex Hm) as Hfit. cbv zeta in Hfit.
  rewrite <- De1 in Hfit. rewrite <- Dm0 in Hfit.
  assert (H0 : 0 <= m0) by (subst m0; apply Z.div_pos; [lia|apply Z.pow_pos_nonneg; lia]).
  assert (He1 : -1074 <= e1) by (pose proof (fexp_ge_emin (Zdigits2 mx + ex)); lia).
  clear De1 Dm0.
  remember (Z.max e1 (fexp (Zdigits2 m1 + e1))) as e2 eqn:De2.
  exists m1, e2, (m1 / 2 ^ (e2 - e1)). split; [exact H1|].
  assert (Hstep : e1 <= e2 <= e1 + 1 /\ m1 = m1 / 2 ^ (e2 - e1) * 2 ^ (e2 - e1)).
  { destruct H1 as [->| ->].
    - replace e2 with e1 by lia. rewrite Z.sub_diag, Z.div_1_r. lia.
    - assert (Hd : Zdigits2 (m0 + 1) <= Zdigits2 m0 + 1).
      { apply Zdigits2_lt_pow; [pose proof (Zdigits2_nonneg m0); lia|].
        split; [lia|]. rewrite Z.pow_add_r by (pose proof (Zdigits2_nonneg m0); lia).
        destruct (Z.eq_dec m0 0) as [->|]; [simpl; lia|].
        pose proof (Zdigits2_bounds m0 ltac:(lia)). lia. }
      assert (Hf : fexp (Zdigits2 (m0 + 1) + e1) <= e1 + 1).
      { eapply Z.le_trans; [apply fexp_le with (e2 := Zdigits2 m0 + e1 + 1); lia|].
        pose proof (fexp_succ (Zdigits2 m0 + e1)). lia. }
      split; [lia|].
      destruct (Z.eq_dec e2 e1) as [->|Hne].
      { rewrite Z.sub_diag, Z.div_1_r. lia. }
      replace (e2 - e1) with 1 by lia.
      assert (Hgt : Zdigits2 m0 < Zdigits2 (m0 + 1)).
      { destruct (Z_lt_le_dec (Zdigits2 m0) (Zdigits2 (m0 + 1))); [done|].
        pose proof (fexp_le (Zdigits2 (m0 + 1) + e1) (Zdigits2 m0 + e1) ltac:(lia)). lia. }
      destruct (Z.eq_dec m0 0) as [->|Hm0].
      { change (Zdigits2 (0 + 1)) with 1 in *. rewrite fexp_eq in De2. lia. }
      pose proof (Zdigits2_bounds m0 ltac:(lia)) as [Hl Hu].
      assert (Hp : m0 + 1 = 2 ^ Zdigits2 m0).
      { destruct (Z.eq_dec (m0 + 1) (2 ^ Zdigits2 m0)); [done|].
        assert (Zdigits2 (m0 + 1) <= Zdigits2 m0); [|lia].
        apply Zdigits2_lt_pow; [apply Zdigits2_nonneg|lia]. }
      rewrite Hp.
      replace (Zdigits2 m0) with (Zdigits2 m0 - 1 + 1) at 1 2
        by lia.
      rewrite Z.pow_add_r by (pose proof (Zdigits2_pos m0); lia).
      change (2 ^ 1) with 2. rewrite Z.div_mul by lia. reflexivity. }
  destruct Hstep as [He2 Hex]. split; [exact He2|]. split; [exact Hex|].
  rewrite E. reflexivity.
Qed.

(** *** Division *)

Lemma SFdiv_core_spec m1 e1 m2 e2 e' :
  e' = Z.min (fexp (Z.pos (digits2_pos m1) + e1 - (Z.pos (digits2_pos m2) + e2))) (e1 - e2) ->
  exists l,
    SFdiv_core_binary F64.prec F64.emax (Z.pos m1) e1 (Z.pos m2) e2 =
    (Z.pos m1 * 2 ^ (e1 - e2 - e') / Z.pos m2, e', l).
Proof.
  intros De'. unfold SFdiv_core_binary.
  change (Zdigits2 (Z.pos m1)) with (Z.pos (digits2_pos m1)).
  change (Zdigits2 (Z.pos m2)) with (Z.pos (digits2_pos m2)).
  rewrite <- De'.
  assert (Hs : 0 <= e1 - e2 - e') by lia.
  assert (Hm : match e1 - e2 - e' with
               | 0 => Z.pos m1
               | Z.pos _ => Z.shiftl (Z.pos m1) (e1 - e2 - e')
               | Z.neg _ => 0
               end = Z.pos m1 * 2 ^ (e1 - e2 - e')).
  { destruct (e1 - e2 - e') as [|p|p] eqn:E; [simpl; lia| |lia].
    rewrite Z.shiftl_mul_pow2 by lia. reflexivity. }
  rewrite Hm. unfold Z.div.
  destruct (Z.div_eucl _ _) as [q r]. eauto.
Qed.

Lemma val_le_digits m1 e1 m2 e2 :
  val_le m1 e1 m2 e2 ->
  Z.pos (digits2_pos m1) + e1 <= Z.pos (digits2_pos m2) + e2.
Proof.
  unfold val_le. intros H.
  pose proof (digits2_pos_bounds m1) as [L1 _].
  pose proof (digits2_pos_bounds m2) as [_ U2].
  set (c := Z.min e1 e2) in *.
  assert (P1 : 0 < 2 ^ (e1 - c)) by (apply Z.pow_pos_nonneg; lia).
  assert (P2 : 0 < 2 ^ (e2 - c)) by (apply Z.pow_pos_nonneg; lia).
  assert (A : 2 ^ (Z.pos (digits2_pos m1) - 1 + (e1 - c)) < 2 ^ (Z.pos (digits2_pos m2) + (e2 - c))).
  { rewrite !Z.pow_add_r by lia. nia. }
  apply Z.pow_lt_mono_r_iff in A; lia.
Qed.

Lemma val_le_quotient m1 e1 m2 e2 e' :
  val_le m1 e1 m2 e2 -> e' <= e1 - e2 -> e' <= 0 ->
  Z.pos m1 * 2 ^ (e1 - e2 - e') / Z.pos m2 <= 2 ^ (- e').
Proof.
  unfold val_le. intros H He' Hn.
  apply Z.div_le_upper_bound; [lia|].
  destruct (Z_le_dec e2 e1) as [Hle|Hgt].
  - replace (Z.min e1 e2) with e2 in H by lia.
    rewrite Z.sub_diag, Z.mul_1_r in H.
    replace (e1 - e2 - e') with ((e1 - e2) + (- e')) by lia.
    rewrite Z.pow_add_r by lia.
    assert (0 < 2 ^ (- e')) by (apply Z.pow_pos_nonneg; lia). nia.
  - replace (Z.min e1 e2) with e1 in H by lia.
    rewrite Z.sub_diag, Z.mul_1_r in H.
    replace (- e') with ((e2 - e1) + (e1 - e2 - e')) by lia.
    rewrite Z.pow_add_r by lia.
    assert (0 < 2 ^ (e1 - e2 - e')) by (apply Z.pow_pos_nonneg; lia). nia.
Qed.

(** A quotient of at most one rounds, to three decimals, to a number of
    thousandths between 0 and 1000. *)
Lemma round3_of_quotient ma ea ms es :
  val_le ma ea ms es ->
  exists n, 0 <= n <= 1000 /\
    py_round (F64.div (S754_finite false ma ea) (S754_finite false ms es)) 3
    = thousandth n.
Proof.
  intros Hle.
  pose proof (val_le_digits _ _ _ _ Hle) as HD.
  remember (Z.min (fexp (Z.pos (digits2_pos ma) + ea - (Z.pos (digits2_pos ms) + es))) (ea - es))
    as e' eqn:De'.
  assert (He' : e' <= -53).
  { pose proof (fexp_le (Z.pos (digits2_pos ma) + ea - (Z.pos (digits2_pos ms) + es)) 0 ltac:(lia)) as F.
    rewrite (fexp_eq 0) in F. lia. }
  destruct (SFdiv_core_spec ma ea ms es e' De') as (l & Hcore).
  remember (Z.pos ma * 2 ^ (ea - es - e') / Z.pos ms) as q eqn:Dq.
  assert (Hq0 : 0 <= q).
  { subst q. apply Z.div_pos; [|lia]. apply Z.mul_nonneg_nonneg; [lia|].
    apply Z.pow_nonneg. lia. }
  assert (Hq : q <= 2 ^ (- e')).
  { subst q. apply val_le_quotient; [done|lia|lia]. }
  unfold F64.div, SFdiv. rewrite Hcore. cbn [xorb].
  remember (Z.max e' (fexp (Zdigits2 q + e'))) as e1 eqn:De1.
  destruct (binary_round_aux_value false q e' l e1 _ Hq0 De1 eq_refl)
    as (m1 & e2 & m2 & H1 & He2 & Hex & ->).
  assert (Hdq : Zdigits2 q <= - e' + 1).
  { apply Zdigits2_lt_pow; [lia|]. split; [lia|].
    rewrite Z.pow_add_r by lia. change (2 ^ 1) with 2.
    assert (0 < 2 ^ (- e')) by (apply Z.pow_pos_nonneg; lia). lia. }
  assert (He1 : e1 <= -52).
  { pose proof (fexp_le (Zdigits2 q + e') 1 ltac:(lia)) as F.
    rewrite (fexp_eq 1) in F. lia. }
  assert (Hm0 : q / 2 ^ (e1 - e') <= 2 ^ (- e1)).
  { apply Z.div_le_upper_bound; [apply Z.pow_pos_nonneg; lia|].
    rewrite <- Z.pow_add_r by lia. replace (e1 - e' + - e1) with (- e') by lia. exact Hq. }
  assert (Hm00 : 0 <= q / 2 ^ (e1 - e'))
    by (apply Z.div_pos; [lia|apply Z.pow_pos_nonneg; lia]).
  assert (Hm1 : 0 <= m1 <= 2 ^ (- e1) + 1) by lia.
  assert (P52 : 2 ^ 52 <= 2 ^ (- e1)) by (apply Z.pow_le_mono_r; lia).
  assert (Hm2 : 0 <= m2 /\ 2000 * m2 < 2001 * 2 ^ (- e2)).
  { destruct (Z.eq_dec e2 e1) as [->|Hne].
    - rewrite Z.sub_diag, Z.mul_1_r in Hex. subst m2.
      change (2 ^ 52) with 4503599627370496 in P52. lia.
    - replace (e2 - e1) with 1 in Hex by lia. change (2 ^ 1) with 2 in Hex.
      replace (- e1) with (1 + - e2) in * by lia.
      rewrite Z.pow_add_r in * by lia. change (2 ^ 1) with 2 in *.
      assert (0 < 2 ^ (- e2)) by (apply Z.pow_pos_nonneg; lia). lia. }
  destruct Hm2 as [Hm2 Hb].
  destruct m2 as [|m|m]; [exists 0; split; [lia|reflexivity]| |lia].
  destruct (Z.leb_spec e2 971) as [_|]; [|lia].
  unfold py_round, scaled_round.
  destruct (Z.leb_spec 0 e2) as [|_]; [lia|].
  unfold half_away. change (10 ^ 3) with 1000.
  remember ((2 * (Z.pos m * 1000) + 2 ^ (- e2)) / (2 * 2 ^ (- e2))) as n eqn:Dn.
  assert (P : 0 < 2 ^ (- e2)) by (apply Z.pow_pos_nonneg; lia).
  assert (Hn : 0 <= n <= 1000).
  { subst n. split.
    - apply Z.div_pos; lia.
    - assert (L : (2 * (Z.pos m * 1000) + 2 ^ (- e2)) / (2 * 2 ^ (- e2)) < 1001); [|lia].
      apply Z.div_lt_upper_bound; lia. }
  exists n. split; [exact Hn|].
  destruct n as [|p|p]; reflexivity.
Qed.

(** *** Addition *)

Lemma iter_xO m d : Z.pos (Pos.iter xO m d) = Z.pos m * 2 ^ Z.pos d.
Proof.
  induction d as [|d IH] using Pos.peano_ind.
  - simpl. lia.
  - rewrite Pos.iter_succ, Pos2Z.inj_xO, IH, Pos2Z.inj_succ, Z.pow_succ_r by lia. lia.
Qed.

Lemma shl_align_spec m e e' :
  e' <= e ->
  Z.pos (fst (shl_align m e e')) = Z.pos m * 2 ^ (e - e') /\
  snd (shl_align m e e') = e'.
Proof.
  intros He. unfold shl_align.
  destruct (e' - e) as [|p|p] eqn:E; try lia.
  - assert (e' = e) by lia. subst e'. rewrite Z.sub_diag, Z.mul_1_r. done.
  - replace (e - e') with (Z.pos p) by lia. rewrite <- iter_xO. done.
Qed.

Lemma shl_align_id m e e' : e <= e' -> shl_align m e e' = (m, e).
Proof.
  intros He. unfold shl_align. destruct (e' - e) as [|p|p] eqn:E; try lia; reflexivity.
Qed.

Lemma canonical_spec m e :
  canonical_mantissa F64.prec F64.emax m e = true ->
  fexp (Z.pos (digits2_pos m) + e) = e.
Proof. unfold canonical_mantissa. apply Z.eqb_eq. Qed.

Lemma bounded_spec m e :
  bounded F64.prec F64.emax m e = true ->
  fexp (Z.pos (digits2_pos m) + e) = e /\ -1074 <= e <= 971.
Proof.
  unfold bounded. intros [Hc He]%andb_true_iff.
  apply canonical_spec in Hc. apply Z.leb_le in He.
  split; [exact Hc|]. pose proof (fexp_ge_emin (Z.pos (digits2_pos m) + e)).
  change (F64.emax - F64.prec) with 971 in He. lia.
Qed.

(** Rounding a value never falls below a double that is below the value. *)
Lemma round_ge_canonical M ez m e l :
  0 < M -> -1074 <= ez <= e ->
  fexp (Z.pos (digits2_pos m) + e) = e ->
  Z.pos m * 2 ^ (e - ez) <= M ->
  binary_round_aux F64.prec F64.emax false M ez l = S754_infinity false \/
  exists ms es,
    binary_round_aux F64.prec F64.emax false M ez l = S754_finite false ms es /\
    val_le m e ms es.
Proof.
  intros HM Hez Hc Hle.
  remember (Z.max ez (fexp (Zdigits2 M + ez))) as e1 eqn:De1.
  destruct (binary_round_aux_value false M ez l e1 _ ltac:(lia) De1 eq_refl)
    as (m1 & e2 & m2 & H1 & He2 & Hex & ->).
  pose proof (digits2_pos_bounds m) as [Lm Um].
  pose proof (Zdigits2_bounds M HM) as [LM UM].
  assert (Pk : 0 < 2 ^ (e - ez)) by (apply Z.pow_pos_nonneg; lia).
  assert (HdM : Z.pos (digits2_pos m) + e <= Zdigits2 M + ez).
  { assert (A : 2 ^ (Z.pos (digits2_pos m) - 1 + (e - ez)) < 2 ^ Zdigits2 M).
    { rewrite Z.pow_add_r by lia. nia. }
    apply Z.pow_lt_mono_r_iff in A; [lia|lia|]. pose proof (Zdigits2_pos M HM). lia. }
  assert (Hee1 : e <= e1).
  { pose proof (fexp_le _ _ HdM). lia. }
  assert (Hfloor : Z.pos m * 2 ^ (e - ez) <= M / 2 ^ (e1 - ez) * 2 ^ (e1 - ez)).
  { destruct (Z.eq_dec e1 e) as [->|Hne].
    - apply Z.mul_le_mono_nonneg_r; [lia|].
      apply Z.div_le_lower_bound; lia.
    - assert (Hlt : Z.pos (digits2_pos m) + e < Zdigits2 M + ez).
      { destruct (Z_lt_le_dec (Z.pos (digits2_pos m) + e) (Zdigits2 M + ez)); [done|].
        pose proof (fexp_le (Zdigits2 M + ez) (Z.pos (digits2_pos m) + e) ltac:(lia)). lia. }
      assert (Hk : e1 - ez <= Zdigits2 M - 1) by (rewrite fexp_eq in De1; lia).
      assert (Pk1 : 0 < 2 ^ (e1 - ez)) by (apply Z.pow_pos_nonneg; lia).
      apply Z.le_trans with (2 ^ (Zdigits2 M - 1)).
      + apply Z.le_trans with (2 ^ (Z.pos (digits2_pos m) + (e - ez))).
        * rewrite Z.pow_add_r by lia. nia.
        * apply Z.pow_le_mono_r; lia.
      + replace (Zdigits2 M - 1) with ((Zdigits2 M - 1 - (e1 - ez)) + (e1 - ez)) at 1 by lia.
        rewrite Z.pow_add_r by lia.
        apply Z.mul_le_mono_nonneg_r; [lia|].
        apply Z.div_le_lower_bound; [lia|].
        rewrite <- Z.pow_add_r by lia.
        replace (e1 - ez + (Zdigits2 M - 1 - (e1 - ez))) with (Zdigits2 M - 1) by lia. lia. }
  assert (Pk1 : 0 < 2 ^ (e1 - ez)) by (apply Z.pow_pos_nonneg; lia).
  assert (P21 : 0 < 2 ^ (e2 - e1)) by (apply Z.pow_pos_nonneg; lia).
  assert (Hm1 : Z.pos m * 2 ^ (e - ez) <= m2 * 2 ^ (e2 - e1) * 2 ^ (e1 - ez)).
  { rewrite <- Hex. eapply Z.le_trans; [exact Hfloor|].
    apply Z.mul_le_mono_nonneg_r; lia. }
  assert (Hm2 : 0 < m2) by nia.
  destruct m2 as [|ms|ms]; try lia.
  destruct (e2 <=? 971); [right|left; reflexivity].
  exists ms, e2. split; [reflexivity|].
  unfold val_le. replace (Z.min e e2) with e by lia.
  rewrite Z.sub_diag, Z.mul_1_r.
  rewrite <- Z.mul_assoc, <- Z.pow_add_r in Hm1 by lia.
  replace (e2 - e1 + (e1 - ez)) with ((e2 - e) + (e - ez)) in Hm1 by lia.
  rewrite Z.pow_add_r in Hm1 by lia.
  assert (0 < 2 ^ (e2 - e)) by (apply Z.pow_pos_nonneg; lia). nia.
Qed.

(** The sum of two positive doubles is no smaller than either, or is [+inf]. *)
Lemma add_ge ma ea mb eb :
  bounded F64.prec F64.emax ma ea = true ->
  bounded F64.prec F64.emax mb eb = true ->
  F64.add (S754_finite false ma ea) (S754_finite false mb eb) = S754_infinity false \/
  exists ms es,
    F64.add (S754_finite false ma ea) (S754_finite false mb eb) = S754_finite false ms es /\
    val_le ma ea ms es /\ val_le mb eb ms es.
Proof.
  intros [Ca Ba]%bounded_spec [Cb Bb]%bounded_spec.
  unfold F64.add, SFadd. cbn [cond_Zopp].
  remember (Z.min ea eb) as ez eqn:Dez.
  destruct (shl_align_spec ma ea ez ltac:(lia)) as [Ea _].
  destruct (shl_align_spec mb eb ez ltac:(lia)) as [Eb _].
  remember (fst (shl_align ma ea ez)) as pa.
  remember (fst (shl_align mb eb ez)) as pb.
  change (Z.pos pa + Z.pos pb) with (Z.pos (pa + pb)).
  assert (EM : Z.pos (pa + pb) = Z.pos ma * 2 ^ (ea - ez) + Z.pos mb * 2 ^ (eb - ez))
    by (rewrite Pos2Z.inj_add; lia).
  clear Ea Eb Heqpa Heqpb. remember (pa + pb)%positive as M. clear HeqM pa pb.
  assert (Pa : 0 < 2 ^ (ea - ez)) by (apply Z.pow_pos_nonneg; lia).
  assert (Pb : 0 < 2 ^ (eb - ez)) by (apply Z.pow_pos_nonneg; lia).
  cbn [binary_normalize]. unfold binary_round.
  assert (Hd : Z.pos (digits2_pos ma) + ea <= Z.pos (digits2_pos M) + ez).
  { pose proof (digits2_pos_bounds ma) as [Lm _].
    pose proof (digits2_pos_bounds M) as [_ UM].
    assert (A : 2 ^ (Z.pos (digits2_pos ma) - 1 + (ea - ez)) < 2 ^ Z.pos (digits2_pos M)).
    { rewrite Z.pow_add_r by lia. nia. }
    apply Z.pow_lt_mono_r_iff in A; lia. }
  rewrite shl_align_id by (pose proof (fexp_le _ _ Hd); lia).
  destruct (round_ge_canonical (Z.pos M) ez ma ea loc_Exact) as [Hinf|(ms & es & Hfin & Hle)];
    [lia|lia|exact Ca|nia| |].
  { left. exact Hinf. }
  right. exists ms, es. split; [exact Hfin|]. split; [exact Hle|].
  destruct (round_ge_canonical (Z.pos M) ez mb eb loc_Exact) as [Hinf|(ms' & es' & Hfin' & Hle')];
    [lia|lia|exact Cb|nia| |].
  - congruence.
  - rewrite Hfin in Hfin'. injection Hfin' as <- <-. exact Hle'.
Qed.

(** *** The reciprocal of a positive double *)

Lemma reciprocal_positive m e :
  bounded F64.prec F64.emax m e = true ->
  F64.div (F64.of_Z 1) (S754_finite false m e) = S754_infinity false \/
  exists mr er, F64.div (F64.of_Z 1) (S754_finite false m e) = S754_finite false mr er.
Proof.
  intros [Hc Hb]%bounded_spec.
  change (F64.of_Z 1) with (S754_finite false 4503599627370496 (-52)).
  remember (Z.min (fexp (Z.pos (digits2_pos 4503599627370496) + -52 - (Z.pos (digits2_pos m) + e)))
                  (-52 - e)) as e' eqn:De'.
  destruct (SFdiv_core_spec 4503599627370496 (-52) m e e' De') as (l & Hcore).
  unfold F64.div, SFdiv. rewrite Hcore. cbn [xorb]. clear Hcore.
  change (Z.pos (digits2_pos 4503599627370496)) with 53 in De'.
  pose proof (digits2_pos_bounds m) as [Lm Um].
  set (d := Z.pos (digits2_pos m)) in *.
  assert (Hd : 1 <= d <= 53) by (rewrite fexp_eq in Hc; lia).
  change (Z.pos 4503599627370496) with (2 ^ 52).
  rewrite <- Z.pow_add_r by (rewrite fexp_eq in De'; lia).
  remember (2 ^ (52 + (-52 - e - e')) / Z.pos m) as q eqn:Dq.
  assert (He' : e' <= fexp (1 - d - e)) by (subst e'; replace (53 + -52 - (d + e)) with (1 - d - e) by lia; lia).
  rewrite fexp_eq in He'.
  assert (Hq : 2 ^ (1 - d - e - 1 - e') <= q).
  { subst q. apply Z.div_le_lower_bound; [lia|].
    apply Z.le_trans with (2 ^ d * 2 ^ (1 - d - e - 1 - e')).
    - apply Z.mul_le_mono_nonneg_r; [apply Z.pow_nonneg|]; lia.
    - rewrite <- Z.pow_add_r by lia. apply Z.pow_le_mono_r; lia. }
  assert (Hq1 : 1 <= q).
  { eapply Z.le_trans; [|exact Hq].
    assert (0 < 2 ^ (1 - d - e - 1 - e')) by (apply Z.pow_pos_nonneg; lia). lia. }
  pose proof (Zdigits2_ge_pow q (1 - d - e - 1 - e') ltac:(lia) Hq) as Hdq.
  remember (Z.max e' (fexp (Zdigits2 q + e'))) as e1 eqn:De1.
  destruct (binary_round_aux_value false q e' l e1 _ ltac:(lia) De1 eq_refl)
    as (m1 & e2 & m2 & H1 & He2 & Hex & ->).
  assert (Hk : e1 - e' <= Zdigits2 q - 1) by (rewrite fexp_eq in De1; lia).
  pose proof (Zdigits2_bounds q ltac:(lia)) as [Lq _].
  assert (Hm0 : 1 <= q / 2 ^ (e1 - e')).
  { apply Z.div_le_lower_bound; [apply Z.pow_pos_nonneg; lia|].
    rewrite Z.mul_1_r. eapply Z.le_trans; [|exact Lq].
    apply Z.pow_le_mono_r; lia. }
  assert (P : 0 < 2 ^ (e2 - e1)) by (apply Z.pow_pos_nonneg; lia).
  assert (Hm2 : 0 < m2) by nia.
  destruct m2 as [|mr|mr]; try lia.
  destruct (e2 <=? 971); eauto.
Qed.

(** *** A double and its double *)

(** [a + a] is [a] with the exponent raised, or the mantissa doubled, or an
    overflow. *)
Lemma add_self m e :
  bounded F64.prec F64.emax m e = true ->
  F64.add (S754_finite false m e) (S754_finite false m e) = S754_infinity false \/
  F64.add (S754_finite false m e) (S754_finite false m e) = S754_finite false m (e + 1) \/
  F64.add (S754_finite false m e) (S754_finite false m e) = S754_finite false m~0 e.
Proof.
  intros [Hc Hb]%bounded_spec.
  unfold F64.add, SFadd. cbn [cond_Zopp]. rewrite Z.min_id.
  rewrite shl_align_id by lia. cbn [fst].
  change (Z.pos m + Z.pos m) with (Z.pos (m + m)). rewrite Pos.add_diag.
  cbn [binary_normalize]. unfold binary_round.
  assert (HD : Z.pos (digits2_pos m~0) = Z.pos (digits2_pos m) + 1)
    by (change (digits2_pos m~0) with (Pos.succ (digits2_pos m)); lia).
  assert (Hn : fexp (Z.pos (digits2_pos m~0) + e) = e \/
               fexp (Z.pos (digits2_pos m~0) + e) = e + 1)
    by (rewrite fexp_eq in *; lia).
  rewrite shl_align_id by lia.
  unfold binary_round_aux, shr_fexp.
  change (Zdigits2 (Z.pos m~0)) with (Z.pos (digits2_pos m~0)).
  destruct Hn as [Hn | Hn]; rewrite Hn.
  - rewrite Z.sub_diag. cbn [shr shr_record_of_loc shr_m loc_of_shr_record round_nearest_even].
    change (Zdigits2 (Z.pos m~0)) with (Z.pos (digits2_pos m~0)).
    rewrite Hn, Z.sub_diag. cbn [shr shr_m].
    destruct (Z.leb_spec e (F64.emax - F64.prec)) as [_|H]; [auto|].
    change (F64.emax - F64.prec) with 971 in H. lia.
  - replace (e + 1 - e) with 1 by lia.
    cbn [shr SpecFloat.iter_pos shr_record_of_loc shr_1 shr_m loc_of_shr_record
         round_nearest_even orb].
    change (Zdigits2 (Z.pos m)) with (Z.pos (digits2_pos m)).
    replace (fexp (Z.pos (digits2_pos m) + (e + 1)) - (e + 1)) with 0
      by (rewrite fexp_eq in *; lia).
    cbn [shr shr_m].
    destruct (e + 1 <=? F64.emax - F64.prec); auto.
Qed.

Lemma round3_half m e ms es :
  (ms = m~0%positive /\ es = e) \/ (ms = m /\ es = e + 1) ->
  py_round (F64.div (S754_finite false m e) (S754_finite false ms es)) 3 = thousandth 500.
Proof.
  intros Hs.
  assert (HD : Z.pos (digits2_pos m~0) = Z.pos (digits2_pos m) + 1)
    by (change (digits2_pos m~0) with (Pos.succ (digits2_pos m)); lia).
  assert (De' : -54 = Z.min (fexp (Z.pos (digits2_pos m) + e - (Z.pos (digits2_pos ms) + es))) (e - es)).
  { destruct Hs as [[-> ->]|[-> ->]].
    - replace (Z.pos (digits2_pos m) + e - (Z.pos (digits2_pos m~0) + e)) with (-1) by lia.
      rewrite fexp_eq. lia.
    - replace (Z.pos (digits2_pos m) + e - (Z.pos (digits2_pos m) + (e + 1))) with (-1) by lia.
      rewrite fexp_eq. lia. }
  destruct (SFdiv_core_spec m e ms es (-54) De') as (l & Hcore).
  assert (Hq : Z.pos m * 2 ^ (e - es - -54) / Z.pos ms = 2 ^ 53).
  { destruct Hs as [[-> ->]|[-> ->]].
    - replace (e - e - -54) with 54 by lia.
      replace (Z.pos m * 2 ^ 54) with (2 ^ 53 * Z.pos m~0) by (change (2 ^ 54) with (2 ^ 53 * 2); lia).
      apply Z.div_mul. lia.
    - replace (e - (e + 1) - -54) with 53 by lia.
      rewrite Z.mul_comm. apply Z.div_mul. lia. }
  rewrite Hq in Hcore.
  unfold F64.div, SFdiv. rewrite Hcore. cbn [xorb].
  destruct l as [|[]]; vm_compute; reflexivity.
Qed.

(** *** The percentages *)

Lemma percent_table : forallb percent_ok (map Z.of_nat (seq 0 1001)) = true.
Proof. vm_compute. reflexivity. Qed.

Lemma percent_spec n :
  0 <= n <= 1000 ->
  F64.leb (F64.of_Z 0) (percent n) = true /\
  F64.leb (percent n) (F64.of_Z 100) = true /\
  slips (percent n) = Returned n.
Proof.
  intros Hn.
  pose proof (proj1 (forallb_forall _ _) percent_table n) as H.
  assert (Hin : In n (map Z.of_nat (seq 0 1001))).
  { rewrite <- (Z2Nat.id n) by lia. apply in_map, in_seq. lia. }
  specialize (H Hin). unfold percent_ok in H.
  apply andb_true_iff in H as [[H1 H2]%andb_true_iff H3].
  split; [exact H1|]. split; [exact H2|].
  destruct (slips (percent n)) as [k|]; [|done].
  apply Z.eqb_eq in H3. by subst.
Qed.

(** For positive finite weights the two probabilities are computed, and each
    is the percentage of a whole number of thousandths. *)
Lemma win_probabilities_thousandths a b :
  F64.pos_finite a = true -> F64.pos_finite b = true ->
  exists n1 n2,
    0 <= n1 <= 1000 /\ 0 <= n2 <= 1000 /\
    win_probabilities a b = Returned (percent n1, percent n2).
Proof.
  destruct a as [| | |[] ma ea]; try done. destruct b as [| | |[] mb eb]; try done.
  cbn [F64.pos_finite]. intros Ha Hb.
  unfold win_probabilities.
  destruct (add_ge ma ea mb eb Ha Hb) as [Hinf|(ms & es & Hs & La & Lb)].
  - rewrite Hinf. exists 0, 0. split; [lia|]. split; [lia|]. reflexivity.
  - rewrite Hs. unfold float_div. cbn [F64.is_zero obind].
    destruct (round3_of_quotient ma ea ms es La) as (n1 & H1 & ->).
    destruct (round3_of_quotient mb eb ms es Lb) as (n2 & H2 & ->).
    exists n1, n2. auto.
Qed.
(** ** The frame of every computation *)

Lemma frozen_refl T : frozen T T.
Proof. repeat split. Qed.

Lemma frozen_trans T1 T2 T3 : frozen T1 T2 -> frozen T2 T3 -> frozen T1 T3.
Proof.
  unfold frozen. intros (?&?&?&?&?) (?&?&?&?&?).
  repeat split; congruence.
Qed.

Lemma frozen_with_previous_upset b T : frozen T (with_previous_upset b T).
Proof. repeat split. Qed.

Lemma teams_frame_refl h : teams_frame h h.
Proof.
  intros t. destruct (h !! t); constructor. apply frozen_refl.
Qed.

Lemma teams_frame_trans h1 h2 h3 :
  teams_frame h1 h2 -> teams_frame h2 h3 -> teams_frame h1 h3.
Proof.
  intros H12 H23 t. specialize (H12 t). specialize (H23 t).
  inversion H12 as [T1 T2 F12 E1 E2|E1 E2];
    rewrite <- E2 in H23; inversion H23 as [T2' T3 F23 E2' E3|E2' E3];
    constructor.
  eapply frozen_trans; eauto.
Qed.

Lemma teams_frame_set_flag h t T b :
  h !! t = Some T -> teams_frame h (<[t := with_previous_upset b T]> h).
Proof.
  intros Ht t'. destruct (decide (t = t')) as [<-|Hne].
  - rewrite lookup_insert_eq, Ht. constructor. apply frozen_with_previous_upset.
  - rewrite lookup_insert_ne by done. destruct (h !! t'); constructor.
    apply frozen_refl.
Qed.

Lemma frame_refl w : frame w w.
Proof. split; [apply teams_frame_refl | split; [intros l L H; exact H | reflexivity]]. Qed.

Lemma frame_trans w1 w2 w3 : frame w1 w2 -> frame w2 w3 -> frame w1 w3.
Proof.
  intros (T12 & L12 & R12) (T23 & L23 & R23). split; [|split].
  - eapply teams_frame_trans; eauto.
  - intros l L H. apply L23, L12, H.
  - congruence.
Qed.

Lemma keeps_ret {A} (a : A) : keeps_frame (ret a).
Proof. intros w. apply frame_refl. Qed.

Lemma keeps_raise {A} e : keeps_frame (@raise A e).
Proof. intros w. apply frame_refl. Qed.

Lemma keeps_lift {A} (o : outcome A) : keeps_frame (lift o).
Proof. intros w. apply frame_refl. Qed.

Lemma keeps_bind {A B} (c : Py A) (k : A -> Py B) :
  keeps_frame c -> (forall a, keeps_frame (k a)) -> keeps_frame (bind c k).
Proof.
  intros Hc Hk w. unfold bind. specialize (Hc w).
  destruct (c w) as [[a|e] w1]; simpl in *.
  - eapply frame_trans; [exact Hc | apply Hk].
  - exact Hc.
Qed.

Lemma keeps_py_assert b : keeps_frame (py_assert b).
Proof. destruct b; [apply keeps_ret | apply keeps_raise]. Qed.

Lemma keeps_get_team t : keeps_frame (get_team t).
Proof. intros w. unfold get_team. destruct (teams w !! t); apply frame_refl. Qed.

Lemma keeps_get_list l : keeps_frame (get_list l).
Proof. intros w. unfold get_list. destruct (lists w !! l); apply frame_refl. Qed.

Lemma keeps_set_previous_upset t b : keeps_frame (set_previous_upset t b).
Proof.
  intros w. unfold set_previous_upset.
  destruct (teams w !! t) as [T|] eqn:Ht; simpl; [|apply frame_refl].
  split; [|split]; simpl.
  - by apply teams_frame_set_flag.
  - intros l L H; exact H.
  - reflexivity.
Qed.

Lemma keeps_randint a b : keeps_frame (randint a b).
Proof.
  intros w. unfold randint. destruct (b <? a); simpl; [apply frame_refl|].
  split; [apply teams_frame_refl | split; [intros l L H; exact H | reflexivity]].
Qed.

Lemma keeps_new_list L : keeps_frame (new_list L).
Proof.
  intros w. unfold new_list; simpl. split; [apply teams_frame_refl | split; [|reflexivity]].
  intros l L' H. simpl.
  rewrite lookup_insert_ne; [exact H|].
  intros <-. apply (is_fresh (dom (lists w))). apply elem_of_dom. eauto.
Qed.

Lemma keeps_mapM {A B} (f : A -> Py B) l :
  (forall a, keeps_frame (f a)) -> keeps_frame (mapM f l).
Proof.
  intros Hf. induction l as [|a l IH]; simpl.
  - apply keeps_ret.
  - apply keeps_bind; [apply Hf|]. intros b.
    apply keeps_bind; [apply IH|]. intros bs. apply keeps_ret.
Qed.

Create HintDb frame.
#[local] Hint Resolve keeps_ret keeps_raise keeps_lift keeps_py_assert keeps_get_team
  keeps_get_list keeps_set_previous_upset keeps_randint keeps_new_list : frame.

Ltac keep_frame :=
  repeat first
    [ apply keeps_bind; [|intros ?]
    | apply keeps_mapM; intros ?
    | match goal with
      | |- keeps_frame (let '(_, _) := ?p in _) => destruct p
      | |- keeps_frame (if ?b then _ else _) => destruct b
      end
    | solve [auto with frame] ].

Lemma keeps_CalculateWinProbabilities t1 t2 :
  keeps_frame (CalculateWinProbabilities t1 t2).
Proof. unfold CalculateWinProbabilities. keep_frame. Qed.

Lemma keeps_WeightedCoinFlip t1 t2 : keeps_frame (WeightedCoinFlip t1 t2).
Proof.
  unfold WeightedCoinFlip.
  pose proof (keeps_CalculateWinProbabilities t1 t2).
  keep_frame; auto.
Qed.

Lemma keeps_play_pair lineup index : keeps_frame (play_pair lineup index).
Proof.
  unfold play_pair.
  pose proof keeps_WeightedCoinFlip.
  keep_frame; auto.
Qed.

Lemma keeps_SingleRoundPlayBall lineup : keeps_frame (SingleRoundPlayBall lineup).
Proof.
  unfold SingleRoundPlayBall.
  pose proof keeps_play_pair.
  keep_frame; auto.
Qed.

(** ** Running a matchup *)

Lemma run_bind {A B} (c : Py A) (k : A -> Py B) w a w' :
  c w = (Returned a, w') -> bind c k w = k a w'.
Proof. intros H. unfold bind. by rewrite H. Qed.

Lemma run_bind_raised {A B} (c : Py A) (k : A -> Py B) w e w' :
  c w = (Raised e, w') -> bind c k w = (Raised e, w').
Proof. intros H. unfold bind. by rewrite H. Qed.

Lemma run_get_team w t T :
  teams w !! t = Some T -> get_team t w = (Returned T, w).
Proof. intros H. unfold get_team. by rewrite H. Qed.

Lemma run_set_previous_upset w t T b :
  teams w !! t = Some T ->
  set_previous_upset t b w =
  (Returned tt, with_teams (<[t := with_previous_upset b T]> (teams w)) w).
Proof. intros H. unfold set_previous_upset. by rewrite H. Qed.

Lemma hat_lookup {A} (a b : A) (k1 k2 i : nat) :
  (i < k1 + k2)%nat ->
  (replicate k1 a ++ replicate k2 b) !! i = Some (if (i <? k1)%nat then a else b).
Proof.
  intros Hi. destruct (Nat.ltb_spec i k1) as [Hlt|Hge].
  - rewrite lookup_app_l by (rewrite length_replicate; lia).
    by apply lookup_replicate_2.
  - rewrite lookup_app_r by (rewrite length_replicate; lia).
    rewrite length_replicate. apply lookup_replicate_2. lia.
Qed.

Lemma hat_getitem (a b : loc) (k1 k2 r : nat) :
  (k1 + k2 = 1000)%nat ->
  list_getitem (replicate k1 a ++ replicate k2 b) (0 + Z.of_nat r mod (999 - 0 + 1))
  = Returned (if (r mod 1000 <? k1)%nat then a else b).
Proof.
  intros Hk. unfold list_getitem.
  rewrite length_app, !length_replicate, Hk.
  change (999 - 0 + 1) with (Z.of_nat 1000).
  rewrite <- Nat2Z.inj_mod, Z.add_0_l.
  pose proof (Nat.mod_upper_bound r 1000 ltac:(lia)) as Hr.
  generalize dependent (r mod 1000)%nat. intros i Hi.
  destruct (Z.ltb_spec (Z.of_nat i) 0) as [?|_]; [lia|].
  destruct (Z.leb_spec 0 (Z.of_nat i)) as [_|?]; [|lia].
  destruct (Z.ltb_spec (Z.of_nat i) (Z.of_nat 1000)) as [_|?]; [|lia].
  cbn [andb]. rewrite Nat2Z.id, hat_lookup by lia. reflexivity.
Qed.

Lemma run_attribute (c : bool) w t T :
  teams w !! t = Some T ->
  exists w',
    (if c then set_previous_upset t true else ret tt) w = (Returned tt, w') /\
    drawn w' = drawn w /\
    teams w' !! t = Some (with_previous_upset (c || previous_upset T) T) /\
    (forall t', t' <> t -> teams w' !! t' = teams w !! t').
Proof.
  intros Ht. destruct c; simpl.
  - rewrite (run_set_previous_upset _ _ _ _ Ht). eexists; split; [done|].
    simpl. rewrite lookup_insert_eq. split; [done|]. split; [done|].
    intros t' Hne. by rewrite lookup_insert_ne.
  - exists w. unfold ret. rewrite Ht. destruct T; done.
Qed.

Lemma run_resets w t1 t2 T1 T2 :
  teams w !! t1 = Some T1 -> teams w !! t2 = Some T2 ->
  exists w2,
    flags_reset w w2 t1 t2 /\
    forall B (k : Py B),
      (set_previous_upset t1 false ;;; set_previous_upset t2 false ;;; k) w = k w2.
Proof.
  intros H1 H2.
  set (w1 := with_teams (<[t1 := with_previous_upset false T1]> (teams w)) w).
  assert (exists T2', teams w1 !! t2 = Some T2' /\ frozen T2 T2') as (T2' & H2' & F2).
  { subst w1; simpl. destruct (decide (t1 = t2)) as [<-|Hne].
    - rewrite lookup_insert_eq. eexists; split; [done|].
      assert (T1 = T2) by congruence. subst. apply frozen_with_previous_upset.
    - rewrite lookup_insert_ne by done. eexists; split; [done|apply frozen_refl]. }
  exists (with_teams (<[t2 := with_previous_upset false T2']> (teams w1)) w1).
  split.
  - split; [done|]. split; [done|]. split; [done|].
    unfold flag_of; simpl. split; [|split; [|split]].
    + destruct (decide (t2 = t1)) as [->|Hne].
      * by rewrite lookup_insert_eq.
      * rewrite lookup_insert_ne by done. by rewrite lookup_insert_eq.
    + by rewrite lookup_insert_eq.
    + eapply teams_frame_trans; [apply (teams_frame_set_flag _ _ _ false H1)|].
      apply (teams_frame_set_flag _ _ _ false H2').
    + intros t N1 N2. by rewrite !lookup_insert_ne.
  - intros B k.
    rewrite (run_bind _ _ _ _ _ (run_set_previous_upset _ _ _ false H1)).
    fold w1. by rewrite (run_bind _ _ _ _ _ (run_set_previous_upset _ _ _ false H2')).
Qed.

Lemma frame_lookup h h' t T :
  teams_frame h h' -> h !! t = Some T -> exists T', h' !! t = Some T' /\ frozen T T'.
Proof.
  intros F H. specialize (F t). rewrite H in F. inversion F; eauto.
Qed.

Lemma run_CalculateWinProbabilities w0 w t1 t2 T1 T2 :
  teams w0 !! t1 = Some T1 -> teams w0 !! t2 = Some T2 ->
  teams_frame (teams w0) (teams w) ->
  CalculateWinProbabilities t1 t2 w =
  (win_probabilities (probability T1) (probability T2), w).
Proof.
  intros H1 H2 F.
  destruct (frame_lookup _ _ _ _ F H1) as (T1' & G1 & F1).
  destruct (frame_lookup _ _ _ _ F H2) as (T2' & G2 & F2).
  unfold CalculateWinProbabilities.
  rewrite (run_bind _ _ _ _ _ (run_get_team _ _ _ G1)).
  rewrite (run_bind _ _ _ _ _ (run_get_team _ _ _ G2)).
  destruct F1 as (_&_&_&_&<-). destruct F2 as (_&_&_&_&<-). reflexivity.
Qed.

(** A matchup whose hat is not filled raises what [fill_hat] raises, right
    after the reset and before any draw. *)
Lemma WeightedCoinFlip_aborted w t1 t2 T1 T2 e :
  teams w !! t1 = Some T1 -> teams w !! t2 = Some T2 ->
  fill_hat (probability T1) (probability T2) = Raised e ->
  exists w2, WeightedCoinFlip t1 t2 w = (Raised e, w2) /\ flags_reset w w2 t1 t2.
Proof.
  intros H1 H2 Hf.
  destruct (run_resets w t1 t2 T1 T2 H1 H2) as (w2 & R & Hk).
  exists w2. split; [|exact R].
  unfold WeightedCoinFlip. rewrite Hk.
  destruct R as (_&_&_&_&_&F&_).
  unfold bind at 1. rewrite (run_CalculateWinProbabilities w w2 t1 t2 T1 T2 H1 H2 F).
  unfold fill_hat in Hf.
  destruct (win_probabilities (probability T1) (probability T2)) as [[p1 p2]|e1];
    simpl in Hf; [|congruence].
  unfold bind at 1, lift at 1.
  destruct (slips p1) as [n1|e1]; simpl in Hf; [|congruence].
  unfold bind at 1, lift at 1.
  destruct (slips p2) as [n2|e2]; simpl in Hf; [|congruence].
  rewrite length_app, !length_replicate.
  fold (hat_size n1 n2).
  replace (Z.of_nat (hat_size n1 n2) =? 1000) with (hat_size n1 n2 =? 1000)%nat.
  2:{ destruct (Nat.eqb_spec (hat_size n1 n2) 1000), (Z.eqb_spec (Z.of_nat (hat_size n1 n2)) 1000); lia. }
  destruct (hat_size n1 n2 =? 1000)%nat; [congruence|].
  injection Hf as <-. reflexivity.
Qed.

(** A matchup whose hat is full is resolved by one draw. *)
Lemma WeightedCoinFlip_resolved w t1 t2 T1 T2 p1 p2 n1 n2 :
  teams w !! t1 = Some T1 -> teams w !! t2 = Some T2 ->
  fill_hat (probability T1) (probability T2) = Returned (p1, p2, n1, n2) ->
  let first := (tape w (drawn w) mod 1000 <? Z.to_nat n1)%nat in
  let winner := if first then t1 else t2 in
  let Tw := if first then T1 else T2 in
  let upset :=
    String.eqb (name Tw) (name T1) && bool_decide (underdog_of p1 p2 = Some 1)
    || String.eqb (name Tw) (name T2) && bool_decide (underdog_of p1 p2 = Some 2) in
  exists w',
    WeightedCoinFlip t1 t2 w = (Returned winner, w') /\
    drawn w' = S (drawn w) /\
    flag_of w' winner = Some upset /\
    (forall t, t <> winner -> t = t1 \/ t = t2 -> flag_of w' t = Some false) /\
    (forall t, t <> t1 -> t <> t2 -> teams w' !! t = teams w !! t).
Proof.
  intros H1 H2 Hf first winner Tw upset.
  destruct (run_resets w t1 t2 T1 T2 H1 H2) as (w2 & R & Hk).
  unfold WeightedCoinFlip. rewrite Hk. clear Hk.
  destruct R as (D2 & P2 & _ & B1 & B2 & F & A3).
  unfold bind at 1. rewrite (run_CalculateWinProbabilities w w2 t1 t2 T1 T2 H1 H2 F).
  unfold fill_hat in Hf.
  destruct (win_probabilities (probability T1) (probability T2)) as [[q1 q2]|e1];
    simpl in Hf; [|congruence].
  unfold bind at 1, lift at 1.
  destruct (slips q1) as [m1|e1]; simpl in Hf; [|congruence].
  unfold bind at 1, lift at 1.
  destruct (slips q2) as [m2|e2]; simpl in Hf; [|congruence].
  destruct (Nat.eqb_spec (hat_size m1 m2) 1000) as [Hsum|]; [|congruence].
  injection Hf as -> -> -> ->. unfold hat_size in Hsum.
  rewrite length_app, !length_replicate, Hsum.
  change (Z.of_nat 1000 =? 1000) with true.
  rewrite (run_bind _ _ w2 tt w2) by done.
  change (Z.of_nat 1000 - 1) with 999.
  assert (Hr : randint 0 999 w2 =
               (Returned (0 + Z.of_nat (tape w (drawn w)) mod (999 - 0 + 1)),
                mkWorld (teams w2) (lists w2) (tape w2) (S (drawn w2)))).
  { unfold randint. simpl. by rewrite D2, P2. }
  rewrite (run_bind _ _ _ _ _ Hr). clear Hr.
  set (w3 := mkWorld _ _ _ _).
  unfold lift at 1. rewrite hat_getitem by done.
  rewrite (run_bind _ _ w3 winner w3) by done.
  destruct (frame_lookup _ _ _ _ F H1) as (T1' & G1 & F1).
  destruct (frame_lookup _ _ _ _ F H2) as (T2' & G2 & F2).
  unfold flag_of in B1, B2. rewrite G1 in B1. rewrite G2 in B2.
  simpl in B1, B2. injection B1 as B1. injection B2 as B2.
  change (teams w2) with (teams w3) in G1, G2, A3.
  assert (D3 : drawn w3 = S (drawn w)) by (simpl; congruence).
  clearbody w3. clear D2 P2 F w2.
  assert (exists W, teams w3 !! winner = Some W /\ frozen Tw W /\ previous_upset W = false)
    as (W & GW & FW & BW).
  { subst winner Tw. destruct first; eauto. }
  rewrite (run_bind _ _ _ _ _ (run_get_team _ _ _ GW)).
  rewrite (run_bind _ _ _ _ _ (run_get_team _ _ _ G1)).
  destruct (run_attribute ((name W =? name T1')%string && bool_decide (underdog_of p1 p2 = Some 1))
              w3 winner W GW) as (w4 & R4 & D4 & GW4 & O4).
  unfold underdog_of in R4. rewrite (run_bind _ _ _ _ _ R4). clear R4.
  rewrite (run_bind _ _ _ _ _ (run_get_team _ _ _ GW4)).
  assert (exists T2'', teams w4 !! t2 = Some T2'' /\ frozen T2 T2'') as (T2'' & G24 & F24).
  { destruct (decide (t2 = winner)) as [E|N].
    - rewrite E, GW4. eexists; split; [done|].
      assert (T2' = W) by (rewrite E in G2; congruence). subst T2'.
      eapply frozen_trans; [exact F2|]. apply frozen_with_previous_upset.
    - rewrite (O4 _ N). eauto. }
  rewrite (run_bind _ _ _ _ _ (run_get_team _ _ _ G24)).
  destruct (run_attribute
              ((name (with_previous_upset
                        ((name W =? name T1')%string && bool_decide (underdog_of p1 p2 = Some 1)
                         || previous_upset W) W) =? name T2'')%string
               && bool_decide (underdog_of p1 p2 = Some 2))
              w4 winner _ GW4) as (w5 & R5 & D5 & GW5 & O5).
  unfold underdog_of in R5. rewrite (run_bind _ _ _ _ _ R5). clear R5.
  exists w5. split; [reflexivity|]. split; [congruence|].
  assert (EN : name W = name Tw /\ name T1' = name T1 /\ name T2'' = name T2).
  { destruct FW as (->&_), F1 as (->&_), F24 as (->&_). done. }
  destruct EN as (EW & E1 & E2).
  split; [|split].
  - unfold flag_of. rewrite GW5. simpl. rewrite EW, E1, E2, BW.
    subst upset. f_equal. rewrite orb_false_r. apply orb_comm.
  - intros t Nw Ht. unfold flag_of. rewrite (O5 _ Nw), (O4 _ Nw).
    destruct Ht as [->| ->]; [rewrite G1|rewrite G2]; simpl; congruence.
  - intros t N1 N2.
    assert (t <> winner) by (subst winner; destruct first; done).
    rewrite O5, O4 by done. by apply A3.
Qed.

Lemma run_attribute_world (c : bool) w t T :
  teams w !! t = Some T ->
  (if c then set_previous_upset t true else ret tt) w =
  (Returned tt,
   if c then with_teams (<[t := with_previous_upset true T]> (teams w)) w else w).
Proof.
  intros Ht. destruct c; [by apply run_set_previous_upset|reflexivity].
Qed.

Lemma bind_ext {A B} (c : Py A) (k1 k2 : A -> Py B) w :
  (forall a w', c w = (Returned a, w') -> k1 a w' = k2 a w') ->
  bind c k1 w = bind c k2 w.
Proof.
  intros H. unfold bind. destruct (c w) as [[a|e] w']; [by apply H|reflexivity].
Qed.

Lemma by_name_or_by_identity w t1 t2 T1 T2 :
  teams w !! t1 = Some T1 -> teams w !! t2 = Some T2 ->
  name T1 <> name T2 ->
  WeightedCoinFlip t1 t2 w = WeightedCoinFlip_by_identity t1 t2 w.
Proof.
  intros H1 H2 Hname.
  assert (Hne : t1 <> t2) by (intros ->; congruence).
  destruct (run_resets w t1 t2 T1 T2 H1 H2) as (w2 & R & Hk).
  unfold WeightedCoinFlip, WeightedCoinFlip_by_identity. rewrite !Hk. clear Hk.
  destruct R as (D2 & P2 & _ & B1 & B2 & F & A3).
  unfold bind at 1. unfold bind at 12.
  rewrite (run_CalculateWinProbabilities w w2 t1 t2 T1 T2 H1 H2 F).
  destruct (win_probabilities (probability T1) (probability T2)) as [[p1 p2]|e1]; [|reflexivity].
  apply bind_ext. intros n1 w' [= Hn1 <-].
  apply bind_ext. intros n2 w' [= Hn2 <-].
  rewrite length_app, !length_replicate.
  destruct (Z.eqb_spec (Z.of_nat (Z.to_nat n1 + Z.to_nat n2)) 1000) as [Hsum|]; [|reflexivity].
  assert (Hsum' : (Z.to_nat n1 + Z.to_nat n2 = 1000)%nat) by lia.
  rewrite Hsum'. apply bind_ext. intros [] w' [= <-].
  change (Z.of_nat 1000 - 1) with 999.
  apply bind_ext. intros idx w3 Hr.
  unfold randint in Hr. simpl in Hr. injection Hr as <- <-.
  set (w3 := mkWorld _ _ _ _).
  unfold lift at 1 2. rewrite hat_getitem by done.
  set (first := (tape w2 (drawn w2) mod 1000 <? Z.to_nat n1)%nat).
  set (winner := if first then t1 else t2).
  rewrite !(run_bind _ _ w3 winner w3) by done.
  destruct (frame_lookup _ _ _ _ F H1) as (T1' & G1 & F1).
  destruct (frame_lookup _ _ _ _ F H2) as (T2' & G2 & F2).
  change (teams w2) with (teams w3) in G1, G2.
  clearbody w3.
  set (Tw := if first then T1' else T2').
  assert (GW : teams w3 !! winner = Some Tw) by (subst winner Tw; by destruct first).
  rewrite (run_bind _ _ _ _ _ (run_get_team _ _ _ GW)).
  rewrite (run_bind _ _ _ _ _ (run_get_team _ _ _ G1)).
  assert (N1 : name T1' = name T1) by (by destruct F1 as (->&_)).
  assert (N2 : name T2' = name T2) by (by destruct F2 as (->&_)).
  assert (C1 : (name Tw =? name T1')%string = bool_decide (winner = t1)).
  { subst winner Tw. destruct first.
    - rewrite String.eqb_refl. by rewrite bool_decide_eq_true_2.
    - rewrite bool_decide_eq_false_2 by done. apply String.eqb_neq. congruence. }
  rewrite C1.
  set (c1 := bool_decide (winner = t1) && _).
  rewrite !(run_bind _ _ _ _ _ (run_attribute_world c1 w3 winner Tw GW)).
  set (w4 := if c1 then _ else w3).
  assert (exists W4, teams w4 !! winner = Some W4 /\ name W4 = name Tw) as (W4 & GW4 & NW4).
  { subst w4. destruct c1; simpl; [|eauto]. rewrite lookup_insert_eq. eauto. }
  assert (exists T2'', teams w4 !! t2 = Some T2'' /\ name T2'' = name T2') as (T2'' & G24 & N24).
  { subst w4. destruct c1; simpl; [|eauto].
    destruct (decide (winner = t2)) as [E|N].
    - rewrite E, lookup_insert_eq. eexists; split; [done|]. simpl.
      rewrite E in GW. congruence.
    - rewrite lookup_insert_ne by done. eauto. }
  rewrite (run_bind _ _ _ _ _ (run_get_team _ _ _ GW4)).
  rewrite (run_bind _ _ _ _ _ (run_get_team _ _ _ G24)).
  assert (C2 : (name W4 =? name T2'')%string = bool_decide (winner = t2)).
  { rewrite NW4, N24. subst winner Tw. destruct first.
    - rewrite bool_decide_eq_false_2 by done. apply String.eqb_neq. congruence.
    - rewrite String.eqb_refl. by rewrite bool_decide_eq_true_2. }
  rewrite C2. reflexivity.
Qed.
(** ** Running a round *)

Lemma list_getitem_nat {A} (L : list A) (n : nat) a :
  L !! n = Some a -> list_getitem L (Z.of_nat n) = Returned a.
Proof.
  intros H. pose proof (lookup_lt_Some _ _ _ H) as Hn.
  unfold list_getitem.
  destruct (Z.ltb_spec (Z.of_nat n) 0) as [?|_]; [lia|].
  destruct (Z.leb_spec 0 (Z.of_nat n)) as [_|?]; [|lia].
  destruct (Z.ltb_spec (Z.of_nat n) (Z.of_nat (length L))) as [_|?]; [|lia].
  cbn [andb]. by rewrite Nat2Z.id, H.
Qed.

Lemma list_getitem_past {A} (L : list A) (n : nat) :
  (length L <= n)%nat -> list_getitem L (Z.of_nat n) = Raised IndexError.
Proof.
  intros Hn. unfold list_getitem.
  destruct (Z.ltb_spec (Z.of_nat n) 0) as [?|_]; [lia|].
  destruct (Z.leb_spec 0 (Z.of_nat n)) as [_|?]; [|lia].
  destruct (Z.ltb_spec (Z.of_nat n) (Z.of_nat (length L))) as [?|_]; [lia|].
  reflexivity.
Qed.

Lemma run_get_list w l L :
  lists w !! l = Some L -> get_list l w = (Returned L, w).
Proof. intros H. unfold get_list. by rewrite H. Qed.

Lemma py_range_pairs (n : nat) :
  py_range 0 (Z.of_nat n) 2 =
  map (fun i => Z.of_nat (2 * i)) (seq 0 (Nat.div2 (S n))).
Proof.
  unfold py_range.
  replace (Z.to_nat ((Z.of_nat n - 0 + 2 - 1) / 2)) with (Nat.div2 (S n)).
  - apply map_ext. intros i. lia.
  - rewrite Nat.div2_div. replace (Z.of_nat n - 0 + 2 - 1) with (Z.of_nat (S n)) by lia.
    change 2 with (Z.of_nat 2). rewrite <- Nat2Z.inj_div. by rewrite Nat2Z.id.
Qed.

Lemma full_hat_frozen Ta Tb Ta' Tb' :
  frozen Ta Ta' -> frozen Tb Tb' -> full_hat Ta' Tb' = full_hat Ta Tb.
Proof.
  intros (_&_&_&_&Ea) (_&_&_&_&Eb). unfold full_hat. by rewrite Ea, Eb.
Qed.

Lemma winner_of_frozen Ta Tb Ta' Tb' a b r :
  frozen Ta Ta' -> frozen Tb Tb' -> winner_of Ta' Tb' a b r = winner_of Ta Tb a b r.
Proof.
  intros (_&_&_&_&Ea) (_&_&_&_&Eb). unfold winner_of. by rewrite Ea, Eb.
Qed.

Lemma run_play_pair w lineup L i a b Ta Tb :
  lists w !! lineup = Some L ->
  pair_at w L i a b Ta Tb -> full_hat Ta Tb = true ->
  exists t w',
    play_pair lineup (Z.of_nat (2 * i)) w = (Returned t, w') /\
    winner_of Ta Tb a b (tape w (drawn w)) = Some t /\
    drawn w' = S (drawn w) /\ frame w w'.
Proof.
  intros HL (Ha & Hb & HTa & HTb) Hfull.
  unfold full_hat in Hfull.
  destruct (fill_hat (probability Ta) (probability Tb)) as [[[[p1 p2] n1] n2]|] eqn:Hf; [|done].
  destruct (WeightedCoinFlip_resolved w a b Ta Tb p1 p2 n1 n2 HTa HTb Hf)
    as (w' & Hrun & Hd & _).
  eexists _, w'. 
  assert (Hpp : play_pair lineup (Z.of_nat (2 * i)) w = WeightedCoinFlip a b w).
  { unfold play_pair.
    rewrite (run_bind _ _ _ _ _ (run_get_list _ _ _ HL)).
    unfold lift at 1. rewrite (list_getitem_nat _ _ _ Ha).
    rewrite (run_bind _ _ w a w) by done.
    rewrite (run_bind _ _ _ _ _ (run_get_list _ _ _ HL)).
    unfold lift at 1.
    replace (Z.of_nat (2 * i) + 1) with (Z.of_nat (2 * i + 1)) by lia.
    rewrite (list_getitem_nat _ _ _ Hb).
    by rewrite (run_bind _ _ w b w). }
  rewrite Hpp. split; [exact Hrun|]. split.
  - unfold winner_of. by rewrite Hf.
  - split; [exact Hd|].
    pose proof (keeps_WeightedCoinFlip a b w) as K. by rewrite Hrun in K.
Qed.

Lemma pair_at_frame w0 w L i a b Ta Tb :
  frame w0 w -> pair_at w0 L i a b Ta Tb ->
  exists Ta' Tb', pair_at w L i a b Ta' Tb' /\ frozen Ta Ta' /\ frozen Tb Tb'.
Proof.
  intros (F & _ & _) (Ha & Hb & HTa & HTb).
  destruct (frame_lookup _ _ _ _ F HTa) as (Ta' & ? & ?).
  destruct (frame_lookup _ _ _ _ F HTb) as (Tb' & ? & ?).
  exists Ta', Tb'. split; [|split]; [|assumption..]. repeat split; assumption.
Qed.

Lemma run_pairs lineup L w0 n : forall j w,
  lists w !! lineup = Some L -> frame w0 w ->
  (forall i, (j <= i < j + n)%nat ->
     exists a b Ta Tb, pair_at w0 L i a b Ta Tb /\ full_hat Ta Tb = true) ->
  exists ws w',
    mapM (play_pair lineup) (map (fun i => Z.of_nat (2 * i)) (seq j n)) w
      = (Returned ws, w') /\
    length ws = n /\ drawn w' = (drawn w + n)%nat /\ frame w w' /\
    forall i, (i < n)%nat ->
      exists a b Ta Tb, pair_at w0 L (j + i) a b Ta Tb /\
        ws !! i = winner_of Ta Tb a b (tape w0 (drawn w + i)%nat).
Proof.
  induction n as [|n IH]; intros j w HL F0 Hready.
  - exists [], w. simpl. split; [done|]. split; [done|]. split; [lia|].
    split; [apply frame_refl|]. intros i Hi. lia.
  - destruct (Hready j ltac:(lia)) as (a & b & Ta & Tb & Hp & Hfull).
    destruct (pair_at_frame _ _ _ _ _ _ _ _ F0 Hp) as (Ta' & Tb' & Hp' & Fa & Fb).
    destruct (run_play_pair w lineup L j a b Ta' Tb' HL Hp')
      as (t & w1 & Hrun & Hwin & Hd & F1).
    { by rewrite (full_hat_frozen _ _ _ _ Fa Fb). }
    assert (HL1 : lists w1 !! lineup = Some L) by (by apply F1).
    destruct (IH (S j) w1 HL1 (frame_trans _ _ _ F0 F1)) as (ws & w' & Hrest & Hlen & Hd' & F' & Hws).
    { intros i Hi. apply Hready. lia. }
    exists (t :: ws), w'. cbn [seq map mapM].
    rewrite (run_bind _ _ _ _ _ Hrun), (run_bind _ _ _ _ _ Hrest).
    split; [reflexivity|]. split; [simpl; lia|]. split; [lia|].
    split; [eapply frame_trans; eauto|].
    intros [|i] Hi.
    + exists a, b, Ta, Tb. rewrite Nat.add_0_r. split; [exact Hp|].
      simpl. rewrite <- Hwin, (winner_of_frozen _ _ _ _ _ _ _ Fa Fb).
      destruct F0 as (_ & _ & ->). by rewrite Nat.add_0_r.
    + destruct (Hws i ltac:(lia)) as (a' & b' & Ta2 & Tb2 & Hp2 & Hw2).
      exists a', b', Ta2, Tb2. replace (j + S i)%nat with (S j + i)%nat by lia.
      split; [exact Hp2|]. simpl. rewrite Hw2. do 2 f_equal. lia.
Qed.

Lemma mapM_app {A B} (f : A -> Py B) l1 l2 w :
  mapM f (l1 ++ l2) w =
  match mapM f l1 w with
  | (Returned bs, w1) =>
      match mapM f l2 w1 with
      | (Returned cs, w2) => (Returned (bs ++ cs), w2)
      | (Raised e, w2) => (Raised e, w2)
      end
  | (Raised e, w1) => (Raised e, w1)
  end.
Proof.
  revert w. induction l1 as [|a l1 IH]; intros w; simpl.
  - unfold ret. destruct (mapM f l2 w) as [[cs|e] w2]; reflexivity.
  - unfold bind, ret. destruct (f a w) as [[b|e] w1]; [|reflexivity].
    rewrite IH.
    destruct (mapM f l1 w1) as [[bs|e] w2]; [|reflexivity].
    destruct (mapM f l2 w2) as [[cs|e] w3]; reflexivity.
Qed.

Lemma run_play_pair_past w lineup L k :
  lists w !! lineup = Some L -> length L = (2 * k + 1)%nat ->
  play_pair lineup (Z.of_nat (2 * k)) w = (Raised IndexError, w).
Proof.
  intros HL Hlen.
  destruct (lookup_lt_is_Some_2 L (2 * k)%nat ltac:(lia)) as (a & Ha).
  unfold play_pair.
  rewrite (run_bind _ _ _ _ _ (run_get_list _ _ _ HL)).
  unfold lift at 1. rewrite (list_getitem_nat _ _ _ Ha).
  rewrite (run_bind _ _ w a w) by done.
  rewrite (run_bind _ _ _ _ _ (run_get_list _ _ _ HL)).
  unfold lift at 1.
  replace (Z.of_nat (2 * k) + 1) with (Z.of_nat (2 * k + 1)) by lia.
  rewrite list_getitem_past by lia. reflexivity.
Qed.

Lemma mapM_kept lineup L l w :
  lists w !! lineup = Some L ->
  lists (snd (mapM (play_pair lineup) l w)) !! lineup = Some L.
Proof.
  intros HL.
  pose proof (keeps_mapM (play_pair lineup) l (keeps_play_pair lineup) w) as (_ & K & _).
  by apply K.
Qed.

Lemma winner_of_either Ta Tb a b r t :
  winner_of Ta Tb a b r = Some t -> t = a \/ t = b.
Proof.
  unfold winner_of.
  destruct (fill_hat _ _) as [[[[? ?] n1] ?]|]; [|done].
  destruct (_ <? _)%nat; intros [= <-]; auto.
Qed.

(** ** Facts shared by the claims *)

Lemma underdog_1 p1 p2 :
  bool_decide (underdog_of p1 p2 = Some 1) = F64.ltb p1 p2.
Proof.
  unfold underdog_of. destruct (F64.ltb p2 p1) eqn:E21.
  - destruct (F64.ltb p1 p2) eqn:E12; [|done].
    apply ltb_asym in E12. congruence.
  - destruct (F64.ltb p1 p2); done.
Qed.

Lemma underdog_2 p1 p2 :
  bool_decide (underdog_of p1 p2 = Some 2) = F64.ltb p2 p1.
Proof.
  unfold underdog_of. destruct (F64.ltb p2 p1); [done|].
  destruct (F64.ltb p1 p2); done.
Qed.

Lemma run_from_fst {A} (c : Py A) w r :
  fst (c w) = r -> c w = (r, snd (c w)).
Proof. intros <-. by destruct (c w). Qed.

Lemma namesakes_flip :
  fst (WeightedCoinFlip 0%nat 1%nat namesakes) = Returned 1%nat /\
  flag_of (snd (WeightedCoinFlip 0%nat 1%nat namesakes)) 1%nat = Some true /\
  flag_of (snd (WeightedCoinFlip_by_identity 0%nat 1%nat namesakes)) 1%nat = Some false /\
  (exists T1 T2, teams namesakes !! 0%nat = Some T1 /\ teams namesakes !! 1%nat = Some T2 /\
     name T1 = name T2 /\
     fill_hat (probability T1) (probability T2)
       = Returned (F64.of_Z 20, F64.of_Z 80, 200, 800)) /\
  F64.ltb (F64.of_Z 20) (F64.of_Z 80) = true /\
  F64.ltb (F64.of_Z 80) (F64.of_Z 20) = false.
Proof.
  split; [vm_compute; reflexivity|]. split; [vm_compute; reflexivity|].
  split; [vm_compute; reflexivity|]. split.
  - do 2 eexists. split; [vm_compute; reflexivity|]. split; [vm_compute; reflexivity|].
    split; vm_compute; reflexivity.
  - split; vm_compute; reflexivity.
Qed.

Lemma SingleRoundPlayBall_fresh lineup w next :
  fst (SingleRoundPlayBall lineup w) = Returned next ->
  lists w !! next = None /\
  is_Some (lists (snd (SingleRoundPlayBall lineup w)) !! next).
Proof.
  unfold SingleRoundPlayBall, bind, get_list.
  destruct (lists w !! lineup) as [L|]; [|done].
  pose proof (keeps_mapM (play_pair lineup) (py_range 0 (Z.of_nat (length L)) 2)
                (keeps_play_pair lineup) w) as (_ & K & _).
  destruct (mapM _ _ w) as [[ws|e] w1]; [|done].
  simpl in *. intros [= <-]. split.
  - destruct (lists w !! fresh (dom (lists w1))) as [L0|] eqn:E; [|done].
    apply K in E. exfalso. apply (is_fresh (dom (lists w1))).
    apply elem_of_dom. eauto.
  - rewrite lookup_insert_eq. eauto.
Qed.

Lemma four_teams_resolvable k :
  (k <= 2)%nat -> resolvable four_teams [0; 1; 2; 3]%nat k.
Proof.
  intros Hk i Hi.
  destruct i as [|[|i]]; [| |lia].
  - do 4 eexists. split; [repeat split; reflexivity|]. vm_compute. reflexivity.
  - do 4 eexists. split; [repeat split; reflexivity|]. vm_compute. reflexivity.
Defined.

(** The hat of two positive finite weights holds as many slips as the two
    rounded quotients count thousandths. *)
Lemma pos_finite_sum a b :
  F64.pos_finite a = true -> F64.pos_finite b = true ->
  F64.is_zero (F64.add a b) = false.
Proof.
  destruct a as [| | |[] ma ea]; try done. destruct b as [| | |[] mb eb]; try done.
  cbn [F64.pos_finite]. intros Ha Hb.
  destruct (add_ge ma ea mb eb Ha Hb) as [->|(ms & es & -> & _)]; reflexivity.
Qed.

Lemma fill_hat_thousandths a b :
  F64.pos_finite a = true -> F64.pos_finite b = true ->
  exists n1 n2,
    0 <= n1 <= 1000 /\ 0 <= n2 <= 1000 /\
    win_probabilities a b = Returned (percent n1, percent n2) /\
    slips (percent n1) = Returned n1 /\ slips (percent n2) = Returned n2 /\
    fill_hat a b =
      if n1 + n2 =? 1000 then Returned (percent n1, percent n2, n1, n2)
      else Raised AssertionError.
Proof.
  intros Ha Hb.
  destruct (win_probabilities_thousandths a b Ha Hb) as (n1 & n2 & H1 & H2 & Hw).
  destruct (percent_spec n1 H1) as (_ & _ & S1).
  destruct (percent_spec n2 H2) as (_ & _ & S2).
  exists n1, n2. do 5 (split; [assumption|]).
  unfold fill_hat. rewrite Hw. cbn [obind fst snd]. rewrite S1, S2. cbn [obind].
  unfold hat_size.
  destruct (Z.eqb_spec (n1 + n2) 1000), (Nat.eqb_spec (Z.to_nat n1 + Z.to_nat n2) 1000);
    try reflexivity; lia.
Qed.

Lemma fill_hat_equal_weights a :
  F64.pos_finite a = true -> F64.is_finite (F64.add a a) = true ->
  win_probabilities a a = Returned (F64.of_Z 50, F64.of_Z 50) /\
  fill_hat a a = Returned (F64.of_Z 50, F64.of_Z 50, 500, 500).
Proof.
  destruct a as [| | |[] m e]; try done. cbn [F64.pos_finite]. intros Ha Hfin.
  assert (Hw : win_probabilities (S754_finite false m e) (S754_finite false m e)
               = Returned (percent 500, percent 500)).
  { unfold win_probabilities.
    destruct (add_self m e Ha) as [Hs|[Hs|Hs]]; rewrite Hs in *; [done| |].
    - unfold float_div. cbn [F64.is_zero obind].
      rewrite (round3_half m e m (e + 1)) by auto. reflexivity.
    - unfold float_div. cbn [F64.is_zero obind].
      rewrite (round3_half m e m~0 e) by auto. reflexivity. }
  change (percent 500) with (F64.of_Z 50) in Hw.
  split; [exact Hw|]. unfold fill_hat. rewrite Hw. reflexivity.
Qed.
(** ** Text: letter case and percentages *)

Lemma ascii_lower_upper c : ascii_lower (ascii_upper c) = ascii_lower c.
Proof. destruct c as [[] [] [] [] [] [] [] []]; reflexivity. Qed.

Lemma ascii_lower_idem c : ascii_lower (ascii_lower c) = ascii_lower c.
Proof. destruct c as [[] [] [] [] [] [] [] []]; reflexivity. Qed.

Lemma ascii_case_differs c : ascii_upper c = ascii_lower c <-> is_letter c = false.
Proof. destruct c as [[] [] [] [] [] [] [] []]; vm_compute; split; congruence. Qed.

Lemma str_lower_upper s : str_lower (str_upper s) = str_lower s.
Proof. induction s as [|c s IH]; [done|]. cbn. f_equal; [apply ascii_lower_upper|exact IH]. Qed.

Lemma str_lower_idem s : str_lower (str_lower s) = str_lower s.
Proof. induction s as [|c s IH]; [done|]. cbn. f_equal; [apply ascii_lower_idem|exact IH]. Qed.

Lemma str_map_length f s : String.length (str_map f s) = String.length s.
Proof. induction s as [|c s IH]; [done|]. cbn. by rewrite IH. Qed.

Lemma str_case_differs s : str_upper s = str_lower s <-> has_letter s = false.
Proof.
  induction s as [|c s IH]; [done|]. cbn. split.
  - intros [= Hc Hs]. apply ascii_case_differs in Hc. apply IH in Hs. by rewrite Hc, Hs.
  - intros [Hc Hs]%orb_false_iff. f_equal; [by apply ascii_case_differs|by apply IH].
Qed.

Lemma run_FormattedTeamName w t T :
  teams w !! t = Some T -> FormattedTeamName t w = (Returned (formatted T), w).
Proof.
  intros H. unfold FormattedTeamName.
  rewrite (run_bind _ _ _ _ _ (run_get_team _ _ _ H)). reflexivity.
Qed.

Lemma tenths_table : forallb tenths_ok (map Z.of_nat (seq 0 1001)) = true.
Proof. vm_compute. reflexivity. Qed.

Lemma tenths_spec n : 0 <= n <= 1000 -> float_str (percent n) = tenths n.
Proof.
  intros Hn.
  pose proof (proj1 (forallb_forall _ _) tenths_table n) as H.
  assert (Hin : In n (map Z.of_nat (seq 0 1001))).
  { rewrite <- (Z2Nat.id n) by lia. apply in_map, in_seq. lia. }
  specialize (H Hin). unfold tenths_ok in H. by apply String.eqb_eq in H.
Qed.

Lemma ascii_no_letter c : is_letter c = false -> ascii_lower c = c /\ ascii_upper c = c.
Proof. destruct c as [[] [] [] [] [] [] [] []]; vm_compute; intros; split; congruence. Qed.

Lemma str_no_letter s : has_letter s = false -> str_lower s = s /\ str_upper s = s.
Proof.
  induction s as [|c s IH]; [done|]. cbn. intros [Hc Hs]%orb_false_iff.
  destruct (ascii_no_letter c Hc) as [-> ->]. destruct (IH Hs) as [E1 E2].
  unfold str_lower, str_upper in *. by rewrite E1, E2.
Qed.

(** ** The console and the presenter *)

Lemma run_and_then {A B} (c : Run A) (k : A -> Run B) s a s' :
  c s = (Done a, s') -> and_then c k s = k a s'.
Proof. intros H. unfold and_then. by rewrite H. Qed.

Lemma run_and_then_failed {A B} (c : Run A) (k : A -> Run B) s f s' :
  c s = (Failed f, s') -> and_then c k s = (Failed f, s').
Proof. intros H. unfold and_then. by rewrite H. Qed.

Lemma run_engine {A} (c : Py A) w out a w' :
  c w = (Returned a, w') -> engine c (mkSession w out) = (Done a, mkSession w' out).
Proof. intros H. unfold engine. cbn. by rewrite H. Qed.

Lemma run_engine_raised {A} (c : Py A) w out e w' :
  c w = (Raised e, w') -> engine c (mkSession w out) = (Failed (Engine e), mkSession w' out).
Proof. intros H. unfold engine. cbn. by rewrite H. Qed.

(** Reading computations. *)
Lemma reads_ret {A} (a : A) : reads_only (ret a).
Proof. by intros w. Qed.
Lemma reads_lift {A} (o : outcome A) : reads_only (lift o).
Proof. by intros w. Qed.
Lemma reads_get_team t : reads_only (get_team t).
Proof. intros w. unfold get_team. by destruct (teams w !! t). Qed.
Lemma reads_get_list l : reads_only (get_list l).
Proof. intros w. unfold get_list. by destruct (lists w !! l). Qed.
Lemma reads_bind {A B} (c : Py A) (k : A -> Py B) :
  reads_only c -> (forall a, reads_only (k a)) -> reads_only (bind c k).
Proof.
  intros Hc Hk w. unfold bind. specialize (Hc w).
  destruct (c w) as [[a|e] w1]; simpl in *; subst; [apply Hk|done].
Qed.
Lemma reads_CalculateWinProbabilities t1 t2 : reads_only (CalculateWinProbabilities t1 t2).
Proof.
  unfold CalculateWinProbabilities.
  apply reads_bind; [apply reads_get_team|intros T1].
  apply reads_bind; [apply reads_get_team|intros T2]. apply reads_lift.
Qed.
Lemma reads_FormattedTeamName t : reads_only (FormattedTeamName t).
Proof.
  unfold FormattedTeamName. apply reads_bind; [apply reads_get_team|intros T]. apply reads_ret.
Qed.

Lemma prints_done {A} (a : A) : only_prints (done a).
Proof. intros s. split; [done|]. exists []. by rewrite app_nil_r. Qed.
Lemma prints_fail {A} f : only_prints (@fail A f).
Proof. intros s. split; [done|]. exists []. by rewrite app_nil_r. Qed.
Lemma prints_print text : only_prints (print text).
Proof. intros s. split; [done|]. by exists [text]. Qed.
Lemma prints_engine {A} (c : Py A) : reads_only c -> only_prints (engine c).
Proof.
  intros Hc s. unfold engine. specialize (Hc (store s)).
  destruct (c (store s)) as [[a|e] w1]; simpl in *; subst;
    (split; [done|]; exists []; by rewrite app_nil_r).
Qed.
Lemma prints_and_then {A B} (c : Run A) (k : A -> Run B) :
  only_prints c -> (forall a, only_prints (k a)) -> only_prints (and_then c k).
Proof.
  intros Hc Hk s. unfold and_then. destruct (Hc s) as (E1 & out1 & O1).
  destruct (c s) as [[a|f] s1]; simpl in *.
  - destruct (Hk a s1) as (E2 & out2 & O2). split; [congruence|].
    exists (out1 ++ out2). by rewrite O2, O1, app_assoc.
  - split; [done|]. by exists out1.
Qed.
Lemma prints_formatted_with fmt args : only_prints (formatted_with fmt args).
Proof. unfold formatted_with. destruct (format fmt args); [apply prints_done|apply prints_fail]. Qed.
Lemma prints_for_each {A} (body : A -> Run unit) l :
  (forall a, only_prints (body a)) -> only_prints (for_each body l).
Proof.
  intros Hb. induction l as [|a l IH]; [apply prints_done|].
  cbn. apply prints_and_then; [apply Hb|intros _; exact IH].
Qed.

Lemma prints_print_pair lineup index : only_prints (print_pair lineup index).
Proof.
  unfold print_pair, getitem.
  repeat first
    [ apply prints_print | apply prints_formatted_with
    | apply prints_engine;
        first [apply reads_get_list|apply reads_get_team|apply reads_lift
              |apply reads_CalculateWinProbabilities|apply reads_FormattedTeamName]
    | apply prints_and_then; [|intros ?]
    | match goal with |- only_prints (let '(_, _) := ?p in _) => destruct p end ].
Qed.

Lemma prints_PritsPrintLineup lineup : only_prints (PritsPrintLineup lineup).
Proof.
  unfold PritsPrintLineup.
  apply prints_and_then; [apply prints_engine, reads_get_list|intros L].
  apply prints_and_then; [|intros _; apply prints_print].
  apply prints_for_each. intros index. apply prints_print_pair.
Qed.

Lemma format_matchup a b c d e f :
  format "[%s] %s (%s%%) vs. [%s] %s (%s%%)" [a; b; c; d; e; f] =
  Some ("[" +:+ a +:+ "] " +:+ b +:+ " (" +:+ c +:+ "%) vs. [" +:+
        d +:+ "] " +:+ e +:+ " (" +:+ f +:+ "%)").
Proof. reflexivity. Qed.

Lemma line_at_Some w L i line :
  line_at w L i = Some line ->
  exists a b Ta Tb p1 p2,
    pair_at w L i a b Ta Tb /\
    win_probabilities (probability Ta) (probability Tb) = Returned (p1, p2) /\
    line = matchup_line Ta Tb p1 p2.
Proof.
  unfold line_at. intros H.
  destruct (L !! (2 * i)%nat) as [a|] eqn:Ea; [|done].
  destruct (L !! (2 * i + 1)%nat) as [b|] eqn:Eb; [|done]. simpl in H.
  destruct (teams w !! a) as [Ta|] eqn:ETa; [|done].
  destruct (teams w !! b) as [Tb|] eqn:ETb; [|done]. simpl in H.
  destruct (win_probabilities _ _) as [[p1 p2]|] eqn:Ew; [|done].
  injection H as <-. exists a, b, Ta, Tb, p1, p2. repeat split; assumption.
Qed.

Lemma run_print_pair w out lineup L i line :
  lists w !! lineup = Some L ->
  line_at w L i = Some line ->
  print_pair lineup (Z.of_nat (2 * i)) (mkSession w out) =
  (Done tt, mkSession w (out ++ [line])).
Proof.
  intros HL (a & b & Ta & Tb & p1 & p2 & (Ha & Hb & HTa & HTb) & Hw & ->)%line_at_Some.
  unfold print_pair.
  rewrite (run_and_then _ _ _ _ _ (run_engine _ _ out _ _ (run_get_list _ _ _ HL))).
  rewrite (run_and_then _ _ _ a (mkSession w out)).
  2:{ apply run_engine. unfold lift. by rewrite (list_getitem_nat _ _ _ Ha). }
  rewrite (run_and_then _ _ _ _ _ (run_engine _ _ out _ _ (run_get_list _ _ _ HL))).
  rewrite (run_and_then _ _ _ b (mkSession w out)).
  2:{ apply run_engine. unfold lift.
      replace (Z.of_nat (2 * i) + 1) with (Z.of_nat (2 * i + 1)) by lia.
      by rewrite (list_getitem_nat _ _ _ Hb). }
  rewrite (run_and_then _ _ _ (p1, p2) (mkSession w out)).
  2:{ apply run_engine.
      rewrite (run_CalculateWinProbabilities w w a b Ta Tb HTa HTb (teams_frame_refl _)).
      by rewrite Hw. }
  cbv beta iota.
  rewrite (run_and_then _ _ _ _ _ (run_engine _ _ out _ _ (run_get_team _ _ _ HTa))).
  rewrite (run_and_then _ _ _ _ _ (run_engine _ _ out _ _ (run_get_team _ _ _ HTb))).
  rewrite (run_and_then _ _ _ _ _ (run_engine _ _ out _ _ (run_get_team _ _ _ HTa))).
  rewrite (run_and_then _ _ _ _ _ (run_engine _ _ out _ _ (run_FormattedTeamName _ _ _ HTa))).
  rewrite (run_and_then _ _ _ _ _ (run_engine _ _ out _ _ (run_get_team _ _ _ HTb))).
  rewrite (run_and_then _ _ _ _ _ (run_engine _ _ out _ _ (run_FormattedTeamName _ _ _ HTb))).
  unfold formatted_with. rewrite format_matchup. reflexivity.
Qed.

(** The loop over the pairs [j, j + n) whose lines can be computed. *)
Lemma run_print_pairs lineup L w lines : forall j out,
  lists w !! lineup = Some L ->
  (forall i, (i < length lines)%nat -> line_at w L (j + i) = lines !! i) ->
  for_each (print_pair lineup)
    (map (fun i => Z.of_nat (2 * i)) (seq j (length lines))) (mkSession w out) =
  (Done tt, mkSession w (out ++ lines)).
Proof.
  induction lines as [|line lines IH]; intros j out HL Hlines.
  - cbn. by rewrite app_nil_r.
  - cbn [length seq map for_each].
    rewrite (run_and_then _ _ _ tt (mkSession w (out ++ [line]))).
    2:{ apply (run_print_pair w out lineup L j line HL).
        specialize (Hlines 0%nat ltac:(simpl; lia)). by rewrite Nat.add_0_r in Hlines. }
    rewrite (IH (S j) (out ++ [line]) HL).
    + by rewrite <- app_assoc.
    + intros i Hi. specialize (Hlines (S i) ltac:(simpl; lia)).
      by replace (S j + i)%nat with (j + S i)%nat by lia.
Qed.

Lemma run_print_pair_past w out lineup L k :
  lists w !! lineup = Some L -> length L = (2 * k + 1)%nat ->
  print_pair lineup (Z.of_nat (2 * k)) (mkSession w out) =
  (Failed (Engine IndexError), mkSession w out).
Proof.
  intros HL Hlen.
  destruct (lookup_lt_is_Some_2 L (2 * k)%nat ltac:(lia)) as (a & Ha).
  unfold print_pair.
  rewrite (run_and_then _ _ _ _ _ (run_engine _ _ out _ _ (run_get_list _ _ _ HL))).
  rewrite (run_and_then _ _ _ a (mkSession w out)).
  2:{ apply run_engine. unfold lift. by rewrite (list_getitem_nat _ _ _ Ha). }
  rewrite (run_and_then _ _ _ _ _ (run_engine _ _ out _ _ (run_get_list _ _ _ HL))).
  apply run_and_then_failed. apply run_engine_raised. unfold lift.
  replace (Z.of_nat (2 * k) + 1) with (Z.of_nat (2 * k + 1)) by lia.
  by rewrite list_getitem_past by lia.
Qed.

Lemma for_each_app {A} (body : A -> Run unit) l1 l2 s :
  for_each body (l1 ++ l2) s =
  match for_each body l1 s with
  | (Done _, s1) => for_each body l2 s1
  | (Failed f, s1) => (Failed f, s1)
  end.
Proof.
  revert s. induction l1 as [|a l1 IH]; intros s; [done|].
  cbn. unfold and_then. destruct (body a s) as [[[]|f] s1]; [apply IH|done].
Qed.

Lemma PritsPrintLineup_even w out lineup L lines :
  lists w !! lineup = Some L ->
  length L = (2 * length lines)%nat ->
  (forall i, (i < length lines)%nat -> line_at w L i = lines !! i) ->
  PritsPrintLineup lineup (mkSession w out) =
  (Done tt, mkSession w (out ++ lines ++ [""])).
Proof.
  intros HL Hlen Hlines. unfold PritsPrintLineup.
  rewrite (run_and_then _ _ _ _ _ (run_engine _ _ out _ _ (run_get_list _ _ _ HL))).
  rewrite py_range_pairs, Hlen.
  replace (Nat.div2 (S (2 * length lines))) with (length lines).
  2:{ rewrite Nat.div2_div. apply (Nat.div_unique _ 2 _ 1); lia. }
  rewrite (run_and_then _ _ _ tt (mkSession w (out ++ lines))).
  2:{ apply (run_print_pairs lineup L w lines 0 out HL). exact Hlines. }
  unfold print. cbn. by rewrite <- app_assoc.
Qed.

Lemma PritsPrintLineup_odd w out lineup L lines :
  lists w !! lineup = Some L ->
  length L = (2 * length lines + 1)%nat ->
  (forall i, (i < length lines)%nat -> line_at w L i = lines !! i) ->
  PritsPrintLineup lineup (mkSession w out) =
  (Failed (Engine IndexError), mkSession w (out ++ lines)).
Proof.
  intros HL Hlen Hlines. unfold PritsPrintLineup.
  rewrite (run_and_then _ _ _ _ _ (run_engine _ _ out _ _ (run_get_list _ _ _ HL))).
  rewrite py_range_pairs, Hlen.
  replace (Nat.div2 (S (2 * length lines + 1))) with (S (length lines)).
  2:{ rewrite Nat.div2_div. apply (Nat.div_unique _ 2 _ 0); lia. }
  rewrite seq_S, map_app.
  apply run_and_then_failed.
  rewrite for_each_app.
  rewrite (run_print_pairs lineup L w lines 0 out HL Hlines).
  cbn [map for_each]. apply run_and_then_failed.
  apply (run_print_pair_past _ _ _ L); [exact HL|lia].
Qed.

(** ** The loader and the rounds of a division *)

Lemma of_division_snoc d built t T :
  of_division d (built ++ [(t, T)]) =
  of_division d built ++ (if decide (division T = d) then [t] else []).
Proof.
  unfold of_division. rewrite filter_app, fmap_app. f_equal.
  rewrite filter_cons, filter_nil. simpl. by destruct (decide (division T = d)).
Qed.

Lemma team_of_row_Some r T :
  team_of_row r = Some T ->
  exists n sd d cell o,
    r !! "Team" = Some n /\ r !! "Seed" = Some sd /\
    r !! "Division" = Some d /\ r !! "Odds" = Some cell /\
    py_float cell = Returned o /\
    Team_init n sd d o = Returned T /\
    division T = d.
Proof.
  unfold team_of_row. intros H.
  destruct (r !! "Team") as [n|]; [|done]. simpl in H.
  destruct (r !! "Seed") as [sd|]; [|done]. simpl in H.
  destruct (r !! "Division") as [d|]; [|done]. simpl in H.
  destruct (r !! "Odds") as [c|]; [|done]. simpl in H.
  destruct (py_float c) as [o|] eqn:Ef; [|done].
  destruct (Team_init n sd d o) as [T'|] eqn:Ei; [|done].
  injection H as ->. exists n, sd, d, c, o. repeat (split; [done|]).
  unfold Team_init in Ei. destruct (float_div _ o); [|done]. simpl in Ei.
  by injection Ei as <-.
Qed.

Lemma run_row_getitem (r : row) key cell s :
  r !! key = Some cell -> row_getitem r key s = (Done cell, s).
Proof. intros H. unfold row_getitem. by rewrite H. Qed.

Lemma run_import_row w0 w out dict built r T :
  team_of_row r = Some T -> grouped w0 w dict built ->
  exists dict' w',
    import_row dict r (mkSession w out) = (Done dict', mkSession w' out) /\
    grouped w0 w' dict' (built ++ [(fresh (dom (teams w)), T)]).
Proof.
  intros (n & sd & d & c & o & Hn & Hs & Hd & Hc & Hf & Hi & HdT)%team_of_row_Some
         (Hnd & Hbuilt & Hdict & Hinj & Hteams & Hlists & Htape & Hdrawn).
  set (t := fresh (dom (teams w))).
  assert (Ht : teams w !! t = None).
  { apply not_elem_of_dom. apply is_fresh. }
  set (w1 := with_teams (<[t := T]> (teams w)) w).
  assert (Hnew : Team_new n sd d o w = (Returned t, w1)).
  { unfold Team_new, bind, lift. rewrite Hi. reflexivity. }
  assert (Htb : t ∉ built.*1).
  { intros ((t' & T') & Et & Hin)%list_elem_of_fmap. simpl in Et. subst t'.
    apply Hbuilt in Hin as (_ & Hin). congruence. }
  unfold import_row.
  rewrite (run_and_then _ _ _ _ _ (run_row_getitem _ _ _ _ Hn)).
  rewrite (run_and_then _ _ _ _ _ (run_row_getitem _ _ _ _ Hs)).
  rewrite (run_and_then _ _ _ _ _ (run_row_getitem _ _ _ _ Hd)).
  rewrite (run_and_then _ _ _ _ _ (run_row_getitem _ _ _ _ Hc)).
  rewrite (run_and_then _ _ _ o (mkSession w out)).
  2:{ apply run_engine. unfold lift. by rewrite Hf. }
  rewrite (run_and_then _ _ _ _ _ (run_engine _ _ out _ _ Hnew)).
  (* what holds of the new store whatever happens to the lists *)
  assert (Hcommon : forall lists',
    NoDup (built ++ [(t, T)]).*1 /\
    (forall t' T', (t', T') ∈ built ++ [(t, T)] ->
       teams w0 !! t' = None /\ teams (with_lists lists' w1) !! t' = Some T') /\
    (forall t' T', teams w0 !! t' = Some T' -> teams (with_lists lists' w1) !! t' = Some T') /\
    tape (with_lists lists' w1) = tape w0 /\ drawn (with_lists lists' w1) = drawn w0).
  { intros lists'. split; [|split; [|split]].
    - rewrite fmap_app. apply NoDup_app. split; [done|]. split.
      + intros x Hx [->|[]%elem_of_nil]%elem_of_cons. done.
      + apply NoDup_singleton.
    - intros t' T' [Hin|[= -> ->]%list_elem_of_singleton]%elem_of_app.
      + destruct (Hbuilt _ _ Hin) as (H0 & H1). split; [done|]. simpl.
        rewrite lookup_insert_ne; [done|]. intros <-. congruence.
      + split.
        * destruct (teams w0 !! t) as [T0|] eqn:E0; [|done].
          apply Hteams in E0. congruence.
        * simpl. by rewrite lookup_insert_eq.
    - intros t' T' H0. simpl. rewrite lookup_insert_ne; [by apply Hteams|].
      intros <-. apply Hteams in H0. congruence.
    - done. }
  specialize (Hdict d) as Hdd.
  destruct (dict !! d) as [l|] eqn:El.
  - destruct Hdd as (Hl0 & Hl & Hne).
    exists dict, (with_lists (<[l := of_division d built ++ [t]]> (lists w)) w1).
    split.
    { rewrite (run_and_then _ _ _ tt
         (mkSession (with_lists (<[l := of_division d built ++ [t]]> (lists w)) w1) out)).
      - reflexivity.
      - apply run_engine. unfold list_append. cbn [lists w1 with_teams]. by rewrite Hl. }
    destruct (Hcommon (<[l := of_division d built ++ [t]]> (lists w))) as (C1 & C2 & C3 & C4).
    split; [exact C1|]. split; [exact C2|]. split; [|split; [exact Hinj|split; [exact C3|split; [|exact C4]]]].
    + intros d'. rewrite of_division_snoc, HdT. specialize (Hdict d').
      destruct (dict !! d') as [l'|] eqn:El'.
      * destruct Hdict as (H0 & H1 & H2). split; [done|].
        destruct (decide (d = d')) as [<-|Hdd'].
        -- assert (l' = l) as -> by congruence. cbn. rewrite lookup_insert_eq.
           split; [done|]. by destruct (of_division d built).
        -- cbn. rewrite lookup_insert_ne.
           ++ rewrite app_nil_r. done.
           ++ intros <-. apply Hdd'. by eapply Hinj.
      * destruct (decide (d = d')) as [<-|Hdd']; [congruence|]. by rewrite app_nil_r.
    + intros l' L' H0. cbn. rewrite lookup_insert_ne; [by apply Hlists|]. congruence.
  - set (l := fresh (dom (lists w))).
    assert (Hl : lists w !! l = None) by (apply not_elem_of_dom, is_fresh).
    exists (<[d := l]> dict), (with_lists (<[l := [t]]> (lists w)) w1).
    split.
    { rewrite (run_and_then _ _ _ l (mkSession (with_lists (<[l := []]> (lists w)) w1) out)).
      2:{ apply run_engine. reflexivity. }
      rewrite (run_and_then _ _ _ tt (mkSession (with_lists (<[l := [t]]> (lists w)) w1) out)).
      - reflexivity.
      - apply run_engine. unfold list_append. cbn. rewrite lookup_insert_eq.
        unfold with_lists. cbn. by rewrite insert_insert_eq. }
    destruct (Hcommon (<[l := [t]]> (lists w))) as (C1 & C2 & C3 & C4).
    split; [exact C1|]. split; [exact C2|]. split; [|split; [|split; [exact C3|split; [|exact C4]]]].
    + intros d'. rewrite of_division_snoc, HdT. specialize (Hdict d').
      destruct (decide (d = d')) as [<-|Hdd'].
      * rewrite lookup_insert_eq, El in *. rewrite Hdict. cbn. rewrite lookup_insert_eq.
        split; [|done].
        destruct (lists w0 !! l) as [L0|] eqn:E0; [|done]. apply Hlists in E0. congruence.
      * rewrite lookup_insert_ne by done. rewrite app_nil_r.
        destruct (dict !! d') as [l'|] eqn:El'; [|done].
        destruct Hdict as (H0 & H1 & H2). split; [done|]. split; [|done].
        cbn. rewrite lookup_insert_ne; [done|]. intros <-. congruence.
    + intros d1 d2 l'. rewrite !lookup_insert_Some.
      intros [[<- <-]|[N1 H1]] [[<- E2]|[N2 H2]]; [done| | |by eapply Hinj].
      * specialize (Hdict d2). rewrite H2 in Hdict. destruct Hdict as (_ & ? & _). congruence.
      * subst l'. specialize (Hdict d1). rewrite H1 in Hdict. destruct Hdict as (_ & ? & _). congruence.
    + intros l' L' H0. cbn. rewrite lookup_insert_ne; [by apply Hlists|].
      intros <-. apply Hlists in H0. congruence.
Qed.

Lemma grouped_start w : grouped w w ∅ [].
Proof.
  split; [constructor|]. split; [intros t T []%elem_of_nil|].
  split; [intros d; by rewrite lookup_empty|].
  split; [intros d1 d2 l; by rewrite lookup_empty|]. done.
Qed.

Lemma run_import_rows w0 rows : forall Ts w out dict built,
  teams_of_rows rows = Some Ts -> grouped w0 w dict built ->
  exists dict' w' ts,
    import_rows dict rows (mkSession w out) = (Done dict', mkSession w' out) /\
    length ts = length Ts /\
    grouped w0 w' dict' (built ++ zip ts Ts).
Proof.
  induction rows as [|r rows IH]; intros Ts w out dict built HTs G.
  - injection HTs as <-. exists dict, w, []. split; [done|]. split; [done|].
    by rewrite app_nil_r.
  - cbn [teams_of_rows] in HTs.
    destruct (team_of_row r) as [T|] eqn:ET; [|done]. simpl in HTs.
    destruct (teams_of_rows rows) as [Ts'|] eqn:ETs; [|done]. injection HTs as <-.
    destruct (run_import_row w0 w out dict built r T ET G) as (dict1 & w1 & Hrun & G1).
    destruct (IH Ts' w1 out dict1 _ eq_refl G1) as (dict' & w' & ts & Hrest & Hlen & G').
    exists dict', w', (fresh (dom (teams w)) :: ts).
    cbn [import_rows]. rewrite (run_and_then _ _ _ _ _ Hrun).
    split; [exact Hrest|]. split; [simpl; lia|].
    rewrite <- app_assoc in G'. exact G'.
Qed.

Lemma of_division_length d ts Ts :
  length ts = length Ts ->
  length (of_division d (zip ts Ts)) = length (in_division d Ts).
Proof.
  unfold of_division, in_division. rewrite length_fmap.
  revert Ts. induction ts as [|t ts IH]; intros [|T Ts] Hlen; try done.
  cbn [zip zip_with]. rewrite !filter_cons. simpl.
  destruct (decide (division T = d)); simpl; rewrite IH; auto.
Qed.

Lemma of_division_elem d built a :
  a ∈ of_division d built -> exists T, (a, T) ∈ built /\ division T = d.
Proof.
  unfold of_division. intros ((a' & T) & -> & Hin)%list_elem_of_fmap.
  apply list_elem_of_filter in Hin as [Hd Hin]. by exists T.
Qed.

Lemma elem_of_zip_r {A B} (a : A) (b : B) l k : (a, b) ∈ zip l k -> b ∈ k.
Proof.
  revert k. induction l as [|x l IH]; intros [|y k]; cbn; try by intros []%elem_of_nil.
  intros [[= -> ->]|H]%elem_of_cons; [left|right; by apply IH].
Qed.

Lemma all_full_spec Ts Ta Tb :
  all_full Ts = true -> Ta ∈ Ts -> Tb ∈ Ts -> full_hat Ta Tb = true.
Proof.
  unfold all_full. intros H Ha Hb.
  rewrite forallb_forall in H. apply list_elem_of_In in Ha, Hb.
  specialize (H Ta Ha). rewrite forallb_forall in H. by apply H.
Qed.

(** Every division list the loop built is playable when the field is. *)
Lemma grouped_playable w0 w dict ts Ts L :
  grouped w0 w dict (zip ts Ts) -> all_full Ts = true ->
  (forall a, a ∈ L -> exists T, (a, T) ∈ zip ts Ts) ->
  playable w L.
Proof.
  intros (_ & Hbuilt & _) Hfull HL a b Ha Hb.
  destruct (HL a Ha) as (Ta & Hina). destruct (HL b Hb) as (Tb & Hinb).
  exists Ta, Tb. split; [by apply Hbuilt|]. split; [by apply Hbuilt|].
  apply (all_full_spec Ts); [done|by eapply elem_of_zip_r..].
Qed.

Lemma playable_pairs w L k :
  length L = (2 * k)%nat -> playable w L ->
  forall i, (i < k)%nat ->
    exists a b Ta Tb, pair_at w L i a b Ta Tb /\ full_hat Ta Tb = true.
Proof.
  intros Hlen Hp i Hi.
  destruct (lookup_lt_is_Some_2 L (2 * i)%nat ltac:(lia)) as (a & Ha).
  destruct (lookup_lt_is_Some_2 L (2 * i + 1)%nat ltac:(lia)) as (b & Hb).
  destruct (Hp a b) as (Ta & Tb & HTa & HTb & Hfull);
    [by eapply list_elem_of_lookup_2..|].
  exists a, b, Ta, Tb. repeat split; assumption.
Qed.

Lemma playable_frame w w' L L' :
  frame w w' -> playable w L -> (forall t, t ∈ L' -> t ∈ L) -> playable w' L'.
Proof.
  intros (F & _) Hp Hsub a b Ha Hb.
  destruct (Hp a b (Hsub _ Ha) (Hsub _ Hb)) as (Ta & Tb & HTa & HTb & Hfull).
  destruct (frame_lookup _ _ _ _ F HTa) as (Ta' & Ga & Fa).
  destruct (frame_lookup _ _ _ _ F HTb) as (Tb' & Gb & Fb).
  exists Ta', Tb'. split; [done|]. split; [done|].
  by rewrite (full_hat_frozen _ _ _ _ Fa Fb).
Qed.

Lemma run_round w lineup L k :
  lists w !! lineup = Some L -> length L = (2 * k)%nat -> playable w L ->
  exists next L' w',
    SingleRoundPlayBall lineup w = (Returned next, w') /\
    lists w !! next = None /\ lists w' !! next = Some L' /\
    length L' = k /\ (forall t, t ∈ L' -> t ∈ L) /\
    drawn w' = (drawn w + k)%nat /\ frame w w'.
Proof.
  intros HL Hlen Hp.
  unfold SingleRoundPlayBall.
  rewrite (run_bind _ _ _ _ _ (run_get_list _ _ _ HL)).
  rewrite py_range_pairs, Hlen.
  replace (Nat.div2 (S (2 * k))) with k.
  2:{ rewrite Nat.div2_div. apply (Nat.div_unique _ 2 k 1); lia. }
  destruct (run_pairs lineup L w k 0%nat w HL (frame_refl w))
    as (ws & w1 & Hrun & Hl & Hd & F & Hws).
  { intros i Hi. apply (playable_pairs w L k Hlen Hp). lia. }
  rewrite (run_bind _ _ _ _ _ Hrun).
  set (next := fresh (dom (lists w1))).
  assert (Hfresh : lists w1 !! next = None) by (apply not_elem_of_dom, is_fresh).
  exists next, ws, (with_lists (<[next := ws]> (lists w1)) w1).
  split; [reflexivity|].
  destruct F as (Ft & Fl & Fp).
  split.
  { destruct (lists w !! next) as [L0|] eqn:E0; [|done]. apply Fl in E0. congruence. }
  split; [cbn; by rewrite lookup_insert_eq|]. split; [done|].
  split.
  { intros t (i & Hi)%list_elem_of_lookup_1.
    pose proof (lookup_lt_Some _ _ _ Hi) as Hlt. rewrite Hl in Hlt.
    destruct (Hws i Hlt) as (a & b & Ta & Tb & (Ha & Hb & _) & Hw).
    simpl in Ha, Hb. rewrite Hi in Hw. symmetry in Hw.
    apply winner_of_either in Hw as [->| ->]; by eapply list_elem_of_lookup_2. }
  split; [cbn; lia|].
  split; [exact Ft|]. split; [|exact Fp].
  intros l L0 H0. cbn. rewrite lookup_insert_ne; [by apply Fl|].
  intros <-. apply Fl in H0. congruence.
Qed.

Lemma full_hat_probabilities Ta Tb :
  full_hat Ta Tb = true ->
  exists p1 p2, win_probabilities (probability Ta) (probability Tb) = Returned (p1, p2).
Proof.
  unfold full_hat, fill_hat.
  destruct (win_probabilities _ _) as [[p1 p2]|]; [eauto|done].
Qed.

Lemma lines_exist w L k :
  (forall i, (i < k)%nat -> is_Some (line_at w L i)) ->
  exists lines, length lines = k /\
    forall i, (i < length lines)%nat -> line_at w L i = lines !! i.
Proof.
  induction k as [|k IH]; intros H.
  - exists []. split; [done|]. simpl. lia.
  - destruct IH as (lines & Hlen & Hl); [intros i Hi; apply H; lia|].
    destruct (H k ltac:(lia)) as (line & Hline).
    exists (lines ++ [line]). split; [rewrite length_app; simpl; lia|].
    intros i Hi. rewrite length_app in Hi. simpl in Hi.
    destruct (decide (i = k)) as [->|Hne].
    + rewrite Hline. symmetry. apply list_lookup_middle. done.
    + rewrite lookup_app_l by lia. apply Hl. lia.
Qed.

Lemma run_print_playable w out lineup L k :
  lists w !! lineup = Some L -> length L = (2 * k)%nat -> playable w L ->
  exists lines,
    length lines = k /\
    PritsPrintLineup lineup (mkSession w out) =
    (Done tt, mkSession w (out ++ lines ++ [""])).
Proof.
  intros HL Hlen Hp.
  destruct (lines_exist w L k) as (lines & Hk & Hlines).
  { intros i Hi.
    destruct (playable_pairs w L k Hlen Hp i Hi)
      as (a & b & Ta & Tb & (Ha & Hb & HTa & HTb) & Hfull).
    destruct (full_hat_probabilities _ _ Hfull) as (p1 & p2 & Hw).
    unfold line_at. rewrite Ha, Hb. simpl. rewrite HTa, HTb. simpl. rewrite Hw. eauto. }
  exists lines. split; [done|].
  apply (PritsPrintLineup_even w out lineup L lines HL); [lia|exact Hlines].
Qed.

Lemma run_getitem {A} (l : list A) (n : nat) a w out :
  l !! n = Some a -> getitem l (Z.of_nat n) (mkSession w out) = (Done a, mkSession w out).
Proof.
  intros H. unfold getitem. apply run_engine. unfold lift.
  by rewrite (list_getitem_nat _ _ _ H).
Qed.

Lemma run_getitem_tournament ti w out :
  0 <= ti < 7 ->
  exists name, getitem TOURNAMENT ti (mkSession w out) = (Done name, mkSession w out).
Proof.
  intros Hti.
  destruct (lookup_lt_is_Some_2 TOURNAMENT (Z.to_nat ti)) as (name & Hn).
  { simpl. lia. }
  exists name. rewrite <- (Z2Nat.id ti) by lia. by apply run_getitem.
Qed.

Lemma play_rounds_unfold names ti lineup :
  play_rounds names ti lineup =
  and_then (engine (get_list lineup)) (fun L =>
    if 1 <? Z.of_nat (length L) then
      match names with
      | [] => fail (Engine IndexError)
      | round_name :: later =>
          and_then (getitem TOURNAMENT ti) (fun tournament_name =>
          and_then (formatted_with round_name [tournament_name]) (fun heading =>
          and_then (print heading) (fun _ =>
          and_then (PritsPrintLineup lineup) (fun _ =>
          and_then (engine (SingleRoundPlayBall lineup)) (fun lineup =>
          play_rounds later ti lineup)))))
      end
    else done lineup).
Proof. destruct names; reflexivity. Qed.

Lemma run_play_rounds k : forall names ti lineup L w out,
  lists w !! lineup = Some L -> length L = (2 ^ k)%nat -> playable w L ->
  (k <= length names)%nat -> Forall one_slot (take k names) -> 0 <= ti < 7 ->
  exists final t w' out',
    play_rounds names ti lineup (mkSession w out) = (Done final, mkSession w' out') /\
    (exists more, out' = out ++ more) /\
    lists w' !! final = Some [t] /\ t ∈ L /\
    (final = lineup \/ lists w !! final = None) /\
    drawn w' = (drawn w + (2 ^ k - 1))%nat /\ frame w w'.
Proof.
  induction k as [|k IH]; intros names ti lineup L w out HL Hlen Hp Hk Hslots Hti.
  - destruct L as [|t [|? ?]]; try done.
    exists lineup, t, w, out. rewrite play_rounds_unfold.
    rewrite (run_and_then _ _ _ _ _ (run_engine _ _ out _ _ (run_get_list _ _ _ HL))).
    cbn. split; [done|]. split; [exists []; by rewrite app_nil_r|].
    split; [done|]. split; [left|]. split; [by left|]. split; [lia|apply frame_refl].
  - destruct names as [|round_name later]; [simpl in Hk; lia|].
    cbn [take] in Hslots. apply Forall_cons in Hslots as [Hslot Hslots].
    assert (H2k : (1 <= 2 ^ k)%nat).
    { clear. induction k; simpl; lia. }
    assert (Hlen2 : length L = (2 * 2 ^ k)%nat) by (rewrite Hlen; simpl; lia).
    destruct (run_getitem_tournament ti w out Hti) as (tname & Hget).
    destruct (Hslot tname) as (heading & Hfmt).
    destruct (run_print_playable w (out ++ [heading]) lineup L (2 ^ k) HL Hlen2 Hp)
      as (lines & _ & Hprint).
    destruct (run_round w lineup L (2 ^ k) HL Hlen2 Hp)
      as (next & L' & w1 & Hround & Hnew & HL' & Hlen' & Hsub & Hd & F).
    destruct (IH later ti next L' w1 (out ++ [heading] ++ lines ++ [""]) HL' Hlen')
      as (final & t & w' & out' & Hrest & (more & Hmore) & Hfinal & Hin & Hor & Hd' & F').
    { by eapply playable_frame. }
    { simpl in Hk. lia. }
    { exact Hslots. }
    { exact Hti. }
    exists final, t, w', out'.
    rewrite play_rounds_unfold.
    rewrite (run_and_then _ _ _ _ _ (run_engine _ _ out _ _ (run_get_list _ _ _ HL))).
    replace (1 <? Z.of_nat (length L)) with true by (symmetry; apply Z.ltb_lt; lia).
    rewrite (run_and_then _ _ _ _ _ Hget).
    unfold formatted_with at 1. rewrite Hfmt.
    rewrite (run_and_then _ _ _ heading (mkSession w out)) by reflexivity.
    rewrite (run_and_then _ _ _ tt (mkSession w (out ++ [heading]))) by reflexivity.
    rewrite (run_and_then _ _ _ _ _ Hprint).
    rewrite (run_and_then _ _ _ _ _ (run_engine _ _ _ _ _ Hround)).
    rewrite <- app_assoc. split; [exact Hrest|].
    split; [exists ([heading] ++ lines ++ [""] ++ more); rewrite Hmore; by rewrite <- !app_assoc|].
    split; [done|]. split; [by apply Hsub|].
    split.
    { right. destruct Hor as [->|Hn]; [done|].
      destruct (lists w !! final) as [L0|] eqn:E0; [|done].
      destruct F as (_ & Fl & _). apply Fl in E0. congruence. }
    split; [rewrite Hd', Hd; simpl; lia|].
    by eapply frame_trans.
Qed.

Lemma one_slot_round_names : Forall one_slot (take 4 ROUND_NAMES).
Proof. repeat constructor; intros a; eexists; reflexivity. Qed.

Lemma one_slot_rounds k : (k <= 4)%nat -> Forall one_slot (take k ROUND_NAMES).
Proof.
  intros Hk. replace (take k ROUND_NAMES) with (take k (take 4 ROUND_NAMES)).
  - apply Forall_take, one_slot_round_names.
  - rewrite take_take. f_equal. lia.
Qed.

Lemma format_final_four a b :
  format ("%s Final Four" +:+ newline +:+ "%s" +:+ newline) [a; b] =
  Some (a +:+ " Final Four" +:+ newline +:+ b +:+ newline).
Proof. reflexivity. Qed.

Lemma run_PrintTournamentHeader tname w out :
  PrintTournamentHeader tname (mkSession w out) =
  (Done tt, mkSession w (out ++ ["**************************************************";
                                  tname;
                                  "**************************************************"])).
Proof. unfold PrintTournamentHeader, and_then, print. cbn. by rewrite <- !app_assoc. Qed.

Lemma frame_frame_but semi w w' : frame w w' -> frame_but semi w w'.
Proof. intros (Ft & Fl & Fp). split; [done|]. split; [|done]. intros l L _. apply Fl. Qed.

Lemma frame_but_trans semi w1 w2 w3 :
  frame_but semi w1 w2 -> frame_but semi w2 w3 -> frame_but semi w1 w3.
Proof.
  intros (Ft & Fl & Fp) (Ft' & Fl' & Fp'). split; [by eapply teams_frame_trans|].
  split; [|congruence]. intros l L Hne H. by apply Fl', Fl.
Qed.

Lemma playable_teams_frame w w' L :
  teams_frame (teams w) (teams w') -> playable w L -> playable w' L.
Proof.
  intros F Hp a b Ha Hb.
  destruct (Hp a b Ha Hb) as (Ta & Tb & HTa & HTb & Hfull).
  destruct (frame_lookup _ _ _ _ F HTa) as (Ta' & Ga & Fa).
  destruct (frame_lookup _ _ _ _ F HTb) as (Tb' & Gb & Fb).
  exists Ta', Tb'. split; [done|]. split; [done|].
  by rewrite (full_hat_frozen _ _ _ _ Fa Fb).
Qed.

Lemma run_play_division k semi ti lineup L Lsemi w out :
  lists w !! lineup = Some L -> length L = (2 ^ k)%nat -> (k <= 4)%nat ->
  playable w L -> lists w !! semi = Some Lsemi -> 0 <= ti < 7 ->
  exists t w' out',
    play_division semi ti lineup (mkSession w out) = (Done tt, mkSession w' out') /\
    (exists more, out' = out ++ more) /\
    t ∈ L /\ lists w' !! semi = Some (Lsemi ++ [t]) /\
    drawn w' = (drawn w + (2 ^ k - 1))%nat /\ frame_but semi w w'.
Proof.
  intros HL Hlen Hk Hp Hsemi Hti.
  destruct (run_getitem_tournament ti w out Hti) as (tname & Hget).
  set (out1 := out ++ ["**************************************************"; tname;
                       "**************************************************"]).
  destruct (run_play_rounds k ROUND_NAMES ti lineup L w out1 HL Hlen Hp)
    as (final & t & w1 & out2 & Hrounds & (more & Hmore) & Hfinal & Hin & _ & Hd & F);
    [simpl; lia|by apply one_slot_rounds|done|].
  destruct (run_getitem_tournament ti w1 out2 Hti) as (tname' & Hget').
  destruct (Hp t t Hin Hin) as (T & _ & HT & _ & _).
  destruct (frame_lookup _ _ _ _ (proj1 F) HT) as (T' & HT' & _).
  assert (Hsemi1 : lists w1 !! semi = Some Lsemi) by (by apply F).
  set (text := tname' +:+ " Final Four" +:+ newline +:+ formatted T' +:+ newline).
  exists t, (with_lists (<[semi := Lsemi ++ [t]]> (lists w1)) w1), (out2 ++ [text]).
  split.
  { unfold play_division.
    rewrite (run_and_then _ _ _ _ _ Hget).
    rewrite (run_and_then _ _ _ _ _ (run_PrintTournamentHeader _ _ _)).
    fold out1. rewrite (run_and_then _ _ _ _ _ Hrounds).
    rewrite (run_and_then _ _ _ _ _ Hget').
    rewrite (run_and_then _ _ _ _ _ (run_engine _ _ out2 _ _ (run_get_list _ _ _ Hfinal))).
    rewrite (run_and_then _ _ _ _ _ (run_getitem [t] 0 t w1 out2 eq_refl)).
    rewrite (run_and_then _ _ _ _ _ (run_engine _ _ out2 _ _ (run_FormattedTeamName _ _ _ HT'))).
    unfold formatted_with. rewrite format_final_four. fold text.
    rewrite (run_and_then _ _ _ text (mkSession w1 out2)) by reflexivity.
    rewrite (run_and_then _ _ _ tt (mkSession w1 (out2 ++ [text]))) by reflexivity.
    apply run_engine. unfold list_extend. by rewrite Hsemi1, Hfinal. }
  split.
  { exists (["**************************************************"; tname;
             "**************************************************"] ++ more ++ [text]).
    rewrite Hmore. unfold out1. by rewrite <- !app_assoc. }
  split; [done|]. split; [cbn; by rewrite lookup_insert_eq|].
  split; [exact Hd|].
  destruct F as (Ft & Fl & Fp). split; [exact Ft|]. split; [|exact Fp].
  intros l L0 Hne H0. cbn. rewrite lookup_insert_ne by done. by apply Fl.
Qed.

Lemma ready_frame_but semi w w' dict d :
  frame_but semi w w' -> ready semi w dict d ->
  ready semi w' dict d /\ lineup_size w' dict d = lineup_size w dict d.
Proof.
  intros (Ft & Fl & Fp) (l & L & k & Hd & Hne & HL & Hlen & Hk & Hp).
  split.
  - exists l, L, k. repeat (split; [done|]). split; [by apply Fl|].
    repeat (split; [done|]). by eapply playable_teams_frame.
  - unfold lineup_size. rewrite Hd, HL, (Fl _ _ Hne HL). done.
Qed.

(** The loop over the lineups of the generator: each division in [order] is
    played, and its winner is put at the end of [semi]. *)
Lemma run_standard_tournament_winners dict semi : forall order ti Lsemi w out,
  (forall d, d ∈ order -> ready semi w dict d) ->
  lists w !! semi = Some Lsemi -> 0 <= ti -> ti + Z.of_nat (length order) <= 7 ->
  exists winners w' out',
    standard_tournament (Gen (yield_lineups dict order)) semi ti (mkSession w out) =
      (Done (ti + Z.of_nat (length order)), mkSession w' out') /\
    (exists more, out' = out ++ more) /\
    lists w' !! semi = Some (Lsemi ++ winners) /\
    Forall2 (fun d t => d ∈ order /\ exists l L, dict !! d = Some l /\
                                   lists w !! l = Some L /\ t ∈ L) order winners /\
    (drawn w' + length order = drawn w + sum_list (lineup_size w dict <$> order))%nat /\
    frame_but semi w w'.
Proof.
  induction order as [|d later IH]; intros ti Lsemi w out Hready Hsemi Hti Hlen.
  - exists [], w, out. cbn. rewrite Z.add_0_r, app_nil_r.
    split; [done|]. split; [exists []; by rewrite app_nil_r|]. split; [done|].
    split; [constructor|]. split; [lia|].
    split; [apply teams_frame_refl|]. split; [auto|done].
  - destruct (Hready d ltac:(left)) as (l & L & k & Hd & Hne & HL & HlenL & Hk & Hp).
    cbn [length] in Hlen.
    destruct (run_play_division k semi ti l L Lsemi w out HL HlenL Hk Hp Hsemi ltac:(lia))
      as (t & w1 & out1 & Hdiv & (more1 & Hmore1) & Hin & Hsemi1 & Hd1 & F1).
    destruct (IH (ti + 1) (Lsemi ++ [t]) w1 out1) as
      (winners & w' & out' & Hrest & (more & Hmore) & Hsemi' & Hall & Hd' & F');
      [|done|lia|lia|].
    { intros d' Hd'. apply (ready_frame_but semi w w1 dict d' F1). apply Hready. by right. }
    exists (t :: winners), w', out'.
    split.
    { cbn [standard_tournament yield_lineups]. rewrite Hd. cbn [done].
      rewrite (run_and_then _ _ _ _ _ Hdiv). rewrite Hrest.
      replace (ti + 1 + Z.of_nat (length later)) with (ti + Z.of_nat (S (length later))) by lia.
      reflexivity. }
    split; [exists (more1 ++ more); rewrite Hmore, Hmore1; by rewrite app_assoc|].
    split; [by rewrite <- app_assoc in Hsemi'|].
    split.
    { constructor; [split; [left|by exists l, L]|].
      eapply Forall2_impl; [exact Hall|]. cbn.
      intros d' t' (Hd'' & l' & L' & Hl' & HL' & Hin').
      destruct (Hready d' ltac:(by right)) as (l0 & L0 & k0 & Hd0 & Hne0 & HL0 & _).
      assert (l0 = l') as -> by congruence.
      destruct F1 as (_ & Fl & _). rewrite (Fl _ _ Hne0 HL0) in HL'. injection HL' as <-.
      split; [by right|]. by exists l', L0. }
    split.
    { cbn [fmap list_fmap sum_list_with sum_list length].
      assert (Hsz : lineup_size w1 dict <$> later = lineup_size w dict <$> later).
      { apply Forall_fmap_ext, Forall_forall. intros d' Hd''.
        apply (ready_frame_but semi w w1 dict d' F1). apply Hready. by right. }
      rewrite Hsz in Hd'.
      assert (Hsd : lineup_size w dict d = (2 ^ k)%nat).
      { unfold lineup_size. by rewrite Hd, HL. }
      change (sum_list (lineup_size w dict <$> d :: later))
        with (lineup_size w dict d + sum_list (lineup_size w dict <$> later))%nat.
      rewrite Hsd.
      assert (H2k : (1 <= 2 ^ k)%nat) by (clear; induction k; simpl; lia).
      change (id (2 ^ k)%nat) with (2 ^ k)%nat. lia. }
    by eapply frame_but_trans.
Qed.

Lemma run_standard_tournament dict semi : forall order ti Lsemi w out,
  (forall d, d ∈ order -> ready semi w dict d) ->
  lists w !! semi = Some Lsemi -> 0 <= ti -> ti + Z.of_nat (length order) <= 7 ->
  exists winners w' out',
    standard_tournament (Gen (yield_lineups dict order)) semi ti (mkSession w out) =
      (Done (ti + Z.of_nat (length order)), mkSession w' out') /\
    (exists more, out' = out ++ more) /\
    lists w' !! semi = Some (Lsemi ++ winners) /\
    length winners = length order /\
    Forall (fun t => exists d l L, d ∈ order /\ dict !! d = Some l /\
                                   lists w !! l = Some L /\ t ∈ L) winners /\
    (drawn w' + length order = drawn w + sum_list (lineup_size w dict <$> order))%nat /\
    frame_but semi w w'.
Proof.
  intros order ti Lsemi w out Hready Hsemi Hti Hlen.
  destruct (run_standard_tournament_winners dict semi order ti Lsemi w out Hready Hsemi Hti Hlen)
    as (winners & w' & out' & Hrun & Hmore & Hsemi' & Hall & Hd & F).
  exists winners, w', out'. split; [done|]. split; [done|]. split; [done|].
  split; [symmetry; by eapply Forall2_length|].
  split; [|done].
  apply Forall_forall. intros t (i & Hi)%list_elem_of_lookup_1.
  destruct (Forall2_lookup_r _ _ _ _ _ Hall Hi) as (d & _ & Hd' & l & L & H1 & H2 & H3).
  by exists d, l, L.
Qed.

Lemma playable_sub w L L' :
  playable w L -> (forall t, t ∈ L' -> t ∈ L) -> playable w L'.
Proof. intros Hp Hsub a b Ha Hb. apply Hp; by apply Hsub. Qed.

Lemma run_final_rounds semi Lsemi w out :
  lists w !! semi = Some Lsemi -> length Lsemi = 4%nat -> playable w Lsemi ->
  exists champion T w' more,
    final_rounds semi 4 (mkSession w out) =
      (Done tt, mkSession w'
         (out ++ more ++
          [formatted T;
           newline +:+ "-----------------------------------------------------------";
           "                        END                                ";
           "-----------------------------------------------------------"])) /\
    champion ∈ Lsemi /\ teams w' !! champion = Some T /\
    drawn w' = (drawn w + 3)%nat /\ frame w w'.
Proof.
  intros Hsemi Hlen Hp.
  set (out1 := out ++ ["**************************************************"; "Final Four";
                       "**************************************************"]).
  destruct (run_print_playable w out1 semi Lsemi 2 Hsemi Hlen Hp) as (lines1 & _ & Hprint1).
  destruct (run_round w semi Lsemi 2 Hsemi Hlen Hp)
    as (final & L1 & w1 & Hround1 & _ & HL1 & Hlen1 & Hsub1 & Hd1 & F1).
  assert (Hp1 : playable w1 L1) by (by eapply playable_frame).
  set (out2 := (out1 ++ lines1 ++ [""]) ++
               ["**************************************************"; "Championship";
                "**************************************************"]).
  destruct (run_print_playable w1 out2 final L1 1 HL1 Hlen1 Hp1) as (lines2 & _ & Hprint2).
  destruct (run_round w1 final L1 1 HL1 Hlen1 Hp1)
    as (winners & L2 & w2 & Hround2 & _ & HL2 & Hlen2 & Hsub2 & Hd2 & F2).
  destruct L2 as [|champion [|? ?]]; try done.
  assert (Hc1 : champion ∈ L1) by (apply Hsub2; left).
  destruct (Hp1 champion champion Hc1 Hc1) as (T1 & _ & HT1 & _ & _).
  destruct (frame_lookup _ _ _ _ (proj1 F2) HT1) as (T & HT & _).
  set (out3 := (out2 ++ lines2 ++ [""]) ++
               ["**************************************************"; "Champion!";
                "**************************************************"]).
  exists champion, T, w2,
    (["**************************************************"; "Final Four";
      "**************************************************"] ++ lines1 ++ [""] ++
     ["**************************************************"; "Championship";
      "**************************************************"] ++ lines2 ++ [""] ++
     ["**************************************************"; "Champion!";
      "**************************************************"]).
  split.
  { unfold final_rounds.
    rewrite (run_and_then _ _ _ _ _ (run_getitem TOURNAMENT 4 _ w out eq_refl)).
    rewrite (run_and_then _ _ _ _ _ (run_PrintTournamentHeader _ _ _)). fold out1.
    rewrite (run_and_then _ _ _ _ _ Hprint1).
    rewrite (run_and_then _ _ _ _ _ (run_engine _ _ _ _ _ Hround1)).
    rewrite (run_and_then _ _ _ _ _ (run_getitem TOURNAMENT 5 _ w1 _ eq_refl)).
    rewrite (run_and_then _ _ _ _ _ (run_PrintTournamentHeader _ _ _)). fold out2.
    rewrite (run_and_then _ _ _ _ _ Hprint2).
    rewrite (run_and_then _ _ _ _ _ (run_getitem TOURNAMENT 6 _ w1 _ eq_refl)).
    rewrite (run_and_then _ _ _ _ _ (run_PrintTournamentHeader _ _ _)). fold out3.
    rewrite (run_and_then _ _ _ _ _ (run_engine _ _ _ _ _ Hround2)).
    rewrite (run_and_then _ _ _ _ _ (run_engine _ _ out3 _ _ (run_get_list _ _ _ HL2))).
    rewrite (run_and_then _ _ _ _ _ (run_getitem [champion] 0 _ w2 out3 eq_refl)).
    rewrite (run_and_then _ _ _ _ _ (run_engine _ _ out3 _ _ (run_FormattedTeamName _ _ _ HT))).
    unfold and_then, print. cbn. do 2 f_equal.
    unfold out3, out2, out1.
    repeat first [rewrite <- app_assoc | rewrite <- app_comm_cons]. reflexivity. }
  split; [apply Hsub1, Hc1|]. split; [exact HT|]. split; [lia|].
  by eapply frame_trans.
Qed.

Lemma standard_tournament_import files csv_path rows semi ti s dict s1 :
  files !! csv_path = Some rows -> import_rows ∅ rows s = (Done dict, s1) ->
  standard_tournament (ImportData files csv_path) semi ti s =
  standard_tournament (Gen (yield_lineups dict LINEUP_ORDER)) semi ti s1.
Proof.
  intros Hf Hi. unfold ImportData. cbn [standard_tournament].
  unfold and_then at 1, open. rewrite Hf. cbn [done].
  unfold and_then at 1. rewrite Hi. reflexivity.
Qed.

Lemma run_main_start prog csv_path files w out :
  main [prog; csv_path] files (mkSession w out) =
  and_then (standard_tournament (ImportData files csv_path) (fresh (dom (lists w))) 0)
           (final_rounds (fresh (dom (lists w))))
    (mkSession (started w)
       (out ++ [newline +:+ newline +:+ "-----------------------------------------------------------";
                "                       START                                 ";
                "-----------------------------------------------------------" +:+ newline +:+ newline])).
Proof.
  unfold main. cbn [length]. rewrite bool_decide_eq_false_2 by (intros H; by apply H).
  unfold and_then at 1. cbn [done].
  rewrite (run_and_then _ _ _ _ _ (run_getitem [prog; csv_path] 1 _ w out eq_refl)).
  unfold and_then at 1. unfold engine at 1. cbn [new_list store stdout].
  unfold and_then at 1. unfold engine at 1. cbn [new_list store stdout].
  unfold and_then at 1, print at 1. cbn [store stdout].
  unfold and_then at 1, print at 1. cbn [store stdout].
  unfold and_then at 1, print at 1. cbn [store stdout].
  rewrite <- !app_assoc. reflexivity.
Qed.

Lemma bracket_size_spec n :
  bracket_size n = true -> exists k, (k <= 4)%nat /\ n = (2 ^ k)%nat.
Proof.
  unfold bracket_size. intros H%bool_decide_eq_true.
  repeat (apply elem_of_cons in H as [->|H]);
    [exists 0%nat|exists 1%nat|exists 2%nat|exists 3%nat|exists 4%nat|by apply elem_of_nil in H];
    (split; [lia|reflexivity]).
Qed.

Lemma field_length Ts :
  length (field Ts) =
  sum_list ((fun d => length (in_division d Ts)) <$> LINEUP_ORDER).
Proof.
  unfold field, in_division. cbn [LINEUP_ORDER TOURNAMENT take fmap list_fmap sum_list sum_list_with].
  induction Ts as [|T Ts IH]; [done|].
  rewrite !filter_cons.
  destruct (decide (division T ∈ ["Midwest"; "West"; "South"; "East"])) as [Hin|Hout].
  - repeat (apply elem_of_cons in Hin as [->|Hin]); [..|by apply elem_of_nil in Hin];
      cbn; rewrite IH; unfold id; repeat case_decide; try discriminate; try congruence;
      simpl; lia.
  - repeat match goal with
      | |- context [decide (division T = ?d)] =>
          destruct (decide (division T = d)) as [E|_];
            [exfalso; apply Hout; rewrite E; set_solver|]
      end.
    exact IH.
Qed.

Lemma started_spec w :
  lists (started w) !! fresh (dom (lists w)) = Some [] /\
  teams (started w) = teams w /\ tape (started w) = tape w /\
  drawn (started w) = drawn w.
Proof.
  unfold started, bind, new_list. cbn. split; [|done].
  rewrite lookup_insert_ne; [by rewrite lookup_insert_eq|].
  intros E.
  pose proof (is_fresh (dom (<[fresh (dom (lists w)) := []]> (lists w)))) as Hf.
  rewrite E in Hf. apply Hf. rewrite dom_insert. set_solver.
Qed.

Lemma zip_fst_elem (ts : list loc) (Ts : list Team) a :
  a ∈ (zip ts Ts).*1 -> exists T, (a, T) ∈ zip ts Ts.
Proof. intros ((a' & T) & -> & Hin)%list_elem_of_fmap. by exists T. Qed.

Lemma of_division_sub d (built : list (loc * Team)) a :
  a ∈ of_division d built -> a ∈ built.*1.
Proof.
  intros (T & Hin & _)%of_division_elem. apply list_elem_of_fmap. by exists (a, T).
Qed.

(** The divisions of a well-formed file whose sizes fit are ready. *)
Lemma grouped_ready semi w0 w dict ts Ts d :
  grouped w0 w dict (zip ts Ts) -> length ts = length Ts ->
  is_Some (lists w0 !! semi) -> all_full Ts = true ->
  bracket_size (length (in_division d Ts)) = true ->
  ready semi w dict d /\ lineup_size w dict d = length (in_division d Ts) /\
  exists l, dict !! d = Some l /\ lists w !! l = Some (of_division d (zip ts Ts)).
Proof.
  intros G Hlen (Ls & Hsemi) Hfull (k & Hk & Hsize)%bracket_size_spec.
  pose proof G as (_ & _ & Hdict & _).
  specialize (Hdict d).
  pose proof (of_division_length d ts Ts Hlen) as Hl.
  destruct (dict !! d) as [l|] eqn:Ed.
  - destruct Hdict as (H0 & H1 & _).
    split; [|split; [|by exists l]].
    + exists l, (of_division d (zip ts Ts)), k.
      split; [done|]. split; [congruence|]. split; [done|].
      split; [congruence|]. split; [done|].
      apply (grouped_playable w0 w dict ts Ts); [done..|].
      intros a Ha. by apply zip_fst_elem, (of_division_sub d).
    + unfold lineup_size. by rewrite Ed, H1.
  - rewrite Hdict in Hl. simpl in Hl.
    assert (1 <= 2 ^ k)%nat by (clear; induction k; simpl; lia). lia.
Qed.

Ltac in_list :=
  cbn; repeat first [apply list_elem_of_here | apply list_elem_of_further].

Lemma yields_lineups dict : forall order ls,
  Forall2 (fun d l => dict !! d = Some l) order ls ->
  yields (Gen (yield_lineups dict order)) ls.
Proof.
  induction order as [|d order IH]; intros ls H.
  - apply Forall2_nil_inv_l in H as ->. by intros s.
  - apply Forall2_cons_inv_l in H as (l & ls' & Hd & H & ->).
    exists (Gen (yield_lineups dict order)). split; [|by apply IH].
    intros s. cbn. by rewrite Hd.
Qed.

Lemma run_standard_tournament_missing dict semi d post : forall pre ti Lsemi w out,
  (forall d', d' ∈ pre -> ready semi w dict d') -> dict !! d = None ->
  lists w !! semi = Some Lsemi -> 0 <= ti -> ti + Z.of_nat (length pre) < 7 ->
  exists w' out',
    standard_tournament (Gen (yield_lineups dict (pre ++ d :: post))) semi ti (mkSession w out) =
      (Failed KeyError, mkSession w' out') /\
    (exists more, out' = out ++ more /\ (pre = [] -> more = [])) /\
    (drawn w' + length pre = drawn w + sum_list (lineup_size w dict <$> pre))%nat /\
    frame_but semi w w'.
Proof.
  induction pre as [|d0 pre IH]; intros ti Lsemi w out Hready Hd Hsemi Hti Hlen.
  - exists w, out. cbn. rewrite Hd. split; [done|].
    split; [exists []; by rewrite app_nil_r|]. split; [lia|].
    split; [apply teams_frame_refl|]. split; [auto|done].
  - destruct (Hready d0 ltac:(left)) as (l & L & k & Hd0 & Hne & HL & HlenL & Hk & Hp).
    cbn [length] in Hlen.
    destruct (run_play_division k semi ti l L Lsemi w out HL HlenL Hk Hp Hsemi ltac:(lia))
      as (t & w1 & out1 & Hdiv & (more1 & Hmore1) & Hin & Hsemi1 & Hd1 & F1).
    destruct (IH (ti + 1) (Lsemi ++ [t]) w1 out1) as
      (w' & out' & Hrest & (more & Hmore & _) & Hd' & F'); [|done..|lia|lia|].
    { intros d' Hd'. apply (ready_frame_but semi w w1 dict d' F1). apply Hready. by right. }
    exists w', out'.
    split.
    { cbn [app standard_tournament yield_lineups]. rewrite Hd0. cbn [done].
      rewrite (run_and_then _ _ _ _ _ Hdiv). exact Hrest. }
    split; [exists (more1 ++ more); split; [rewrite Hmore, Hmore1; by rewrite app_assoc|done]|].
    split.
    { assert (Hsz : lineup_size w1 dict <$> pre = lineup_size w dict <$> pre).
      { apply Forall_fmap_ext, Forall_forall. intros d' Hd''.
        apply (ready_frame_but semi w w1 dict d' F1). apply Hready. by right. }
      rewrite Hsz in Hd'.
      assert (Hsd : lineup_size w dict d0 = (2 ^ k)%nat).
      { unfold lineup_size. by rewrite Hd0, HL. }
      change (sum_list (lineup_size w dict <$> d0 :: pre))
        with (lineup_size w dict d0 + sum_list (lineup_size w dict <$> pre))%nat.
      rewrite Hsd.
      assert (H2k : (1 <= 2 ^ k)%nat) by (clear; induction k; simpl; lia).
      cbn [length]. lia. }
    by eapply frame_but_trans.
Qed.

Lemma and_then_done {A B} (c : Run A) (k : A -> Run B) s b s' :
  and_then c k s = (Done b, s') ->
  exists a s1, c s = (Done a, s1) /\ k a s1 = (Done b, s').
Proof.
  unfold and_then. destruct (c s) as [[a|f] s1]; [|done]. intros H. by exists a, s1.
Qed.

Lemma engine_done {A} (c : Py A) s a s' :
  engine c s = (Done a, s') ->
  c (store s) = (Returned a, store s') /\ stdout s' = stdout s.
Proof.
  unfold engine. destruct (c (store s)) as [[a'|e] w1]; [|done].
  by intros [= -> <-].
Qed.

Lemma mapM_length {A B} (f : A -> Py B) l : forall w bs w',
  mapM f l w = (Returned bs, w') -> length bs = length l.
Proof.
  induction l as [|a l IH]; intros w bs w'; cbn.
  - by intros [= <- _].
  - unfold bind, ret. destruct (f a w) as [[b|e] w1]; [|done].
    destruct (mapM f l w1) as [[bs'|e] w2] eqn:E; [|done].
    intros [= <- _]. simpl. f_equal. by eapply IH.
Qed.

(** A round that returns was given an even number of entrants and returns
    half as many. *)
Lemma round_returned lineup w next w' L :
  lists w !! lineup = Some L ->
  SingleRoundPlayBall lineup w = (Returned next, w') ->
  exists L', lists w' !! next = Some L' /\ length L = (2 * length L')%nat.
Proof.
  intros HL. unfold SingleRoundPlayBall.
  rewrite (run_bind _ _ _ _ _ (run_get_list _ _ _ HL)).
  rewrite py_range_pairs.
  destruct (Nat.Even_or_Odd (length L)) as [[k Hk]|[k Hk]]; rewrite Hk.
  - replace (Nat.div2 (S (2 * k))) with k.
    2:{ rewrite Nat.div2_div. apply (Nat.div_unique _ 2 k 1); lia. }
    unfold bind at 1.
    destruct (mapM _ _ w) as [[ws|e] w1] eqn:E; [|done].
    apply mapM_length in E. rewrite length_map, length_seq in E.
    unfold new_list. intros [= <- <-]. exists ws. cbn. rewrite lookup_insert_eq.
    split; [done|lia].
  - replace (Nat.div2 (S (2 * k + 1))) with (S k).
    2:{ rewrite Nat.div2_div. apply (Nat.div_unique _ 2 (S k) 0); lia. }
    rewrite seq_S, map_app. unfold bind at 1. rewrite mapM_app.
    pose proof (mapM_kept lineup L (map (fun i => Z.of_nat (2 * i)) (seq 0 k)) w HL) as HL1.
    destruct (mapM _ (map _ (seq 0 k)) w) as [[bs|e] w1]; [|done].
    simpl in HL1. cbn [map mapM Nat.add]. unfold bind at 1.
    rewrite (run_play_pair_past _ _ _ _ HL1 Hk). done.
Qed.

Lemma PritsPrintLineup_done lineup s s' :
  PritsPrintLineup lineup s = (Done tt, s') -> store s' = store s.
Proof.
  intros H. pose proof (prints_PritsPrintLineup lineup s) as (E & _).
  by rewrite H in E.
Qed.

Lemma play_rounds_short names ti lineup L s final s' :
  lists (store s) !! lineup = Some L -> (length L <= 1)%nat ->
  play_rounds names ti lineup s = (Done final, s') -> final = lineup /\ s' = s.
Proof.
  intros HL Hlen. destruct s as [w out]. rewrite play_rounds_unfold.
  rewrite (run_and_then _ _ _ _ _ (run_engine _ _ out _ _ (run_get_list _ _ _ HL))).
  replace (1 <? Z.of_nat (length L)) with false by (symmetry; apply Z.ltb_ge; lia).
  by intros [= <- <-].
Qed.

(** One more round name in front: the lineup is short, or it is halved by a
    round and the rest of the names deal with the half. *)
Lemma play_rounds_returned_cons name later ti (P : nat -> Prop) :
  (forall lineup L s final s', lists (store s) !! lineup = Some L ->
     play_rounds later ti lineup s = (Done final, s') -> P (length L)) ->
  forall lineup L s final s', lists (store s) !! lineup = Some L ->
    play_rounds (name :: later) ti lineup s = (Done final, s') ->
    (length L <= 1)%nat \/
    (exists a, is_Some (format name [a])) /\ exists m, length L = (2 * m)%nat /\ P m.
Proof.
  intros HP lineup L s final s' HL. destruct s as [w out]. rewrite play_rounds_unfold.
  rewrite (run_and_then _ _ _ _ _ (run_engine _ _ out _ _ (run_get_list _ _ _ HL))).
  destruct (1 <? Z.of_nat (length L)) eqn:E; [|intros _; left; apply Z.ltb_ge in E; lia].
  intros H. right.
  apply and_then_done in H as (tname & s1 & Hget & H).
  apply and_then_done in H as (heading & s2 & Hfmt & H).
  apply and_then_done in H as ([] & s3 & Hprint & H).
  apply and_then_done in H as ([] & s4 & Hlines & H).
  apply and_then_done in H as (next & s5 & Hround & H).
  split.
  { exists tname. unfold formatted_with in Hfmt. destruct (format name [tname]); [eauto|done]. }
  apply engine_done in Hget as (Hget & _), Hround as (Hround & _).
  unfold lift in Hget. assert (store s1 = w) as Hs1 by (by injection Hget).
  assert (store s2 = store s1) as Hs2.
  { unfold formatted_with in Hfmt. destruct (format name [tname]); [|done]. by injection Hfmt as _ <-. }
  assert (store s3 = store s2) as Hs3 by (by injection Hprint as <-).
  apply PritsPrintLineup_done in Hlines.
  assert (HL4 : lists (store s4) !! lineup = Some L) by (by rewrite Hlines, Hs3, Hs2, Hs1).
  destruct (round_returned _ _ _ _ _ HL4 Hround) as (L' & HL' & Hlen).
  exists (length L'). split; [done|]. by eapply HP.
Qed.

Lemma play_rounds_returned_nil ti lineup L s final s' :
  lists (store s) !! lineup = Some L ->
  play_rounds [] ti lineup s = (Done final, s') -> (length L <= 1)%nat.
Proof.
  intros HL. destruct s as [w out]. rewrite play_rounds_unfold.
  rewrite (run_and_then _ _ _ _ _ (run_engine _ _ out _ _ (run_get_list _ _ _ HL))).
  destruct (1 <? Z.of_nat (length L)) eqn:E; [done|]. intros _. apply Z.ltb_ge in E. lia.
Qed.

Lemma play_rounds_returned ti lineup L s final s' :
  lists (store s) !! lineup = Some L ->
  play_rounds ROUND_NAMES ti lineup s = (Done final, s') ->
  length L = 0%nat \/ bracket_size (length L) = true.
Proof.
  intros HL H.
  set (Q := fun (name : string) (P : nat -> Prop) (n : nat) =>
              (n <= 1)%nat \/
              (exists a, is_Some (format name [a])) /\ exists m, n = (2 * m)%nat /\ P m).
  set (P6 := fun n : nat => (n <= 1)%nat).
  pose proof (play_rounds_returned_cons "Championship" [] ti P6
                (play_rounds_returned_nil ti)) as P5.
  pose proof (play_rounds_returned_cons "Final Four" _ ti (Q "Championship" P6) P5) as P4.
  pose proof (play_rounds_returned_cons "%s Elite Eight" _ ti (Q "Final Four" _) P4) as P3.
  pose proof (play_rounds_returned_cons "%s Sweet Sixteen" _ ti (Q "%s Elite Eight" _) P3) as P2.
  pose proof (play_rounds_returned_cons "%s Round of 32" _ ti (Q "%s Sweet Sixteen" _) P2) as P1.
  pose proof (play_rounds_returned_cons "%s Round of 64" _ ti (Q "%s Round of 32" _) P1
                lineup L s final s' HL H) as P0.
  unfold Q, P6 in P0.
  clear - P0. unfold bracket_size.
  assert (Hno : forall a, ~ is_Some (format "Final Four" [a])) by (intros a [? ?]; done).
  destruct P0 as [?|(_ & m1 & E1 & [?|(_ & m2 & E2 & [?|(_ & m3 & E3 & [?|(_ & m4 & E4 & [?|((a & Ha) & _)])])])])].
  1-5: assert (Hcases : (length L = 0 \/ length L = 1 \/ length L = 2 \/ length L = 4 \/
                         length L = 8 \/ length L = 16)%nat) by lia;
       destruct Hcases as [->|[->|[->|[->|[->| ->]]]]]; auto.
  by apply Hno in Ha.
Qed.

Lemma getitem_done {A} (l : list A) i s a s' :
  getitem l i s = (Done a, s') -> s' = s.
Proof.
  unfold getitem, engine, lift. destruct (list_getitem l i); [|done].
  intros [= _ <-]. by destruct s.
Qed.

Lemma getitem_nil_fails {A} i s (a : A) s' : getitem [] i s <> (Done a, s').
Proof.
  unfold getitem, engine, lift, list_getitem.
  destruct (_ && _); rewrite ?lookup_nil; cbn; congruence.
Qed.

Lemma play_division_returned semi ti lineup L s s' :
  lists (store s) !! lineup = Some L ->
  play_division semi ti lineup s = (Done tt, s') ->
  bracket_size (length L) = true.
Proof.
  intros HL H. unfold play_division in H.
  apply and_then_done in H as (tname & s1 & Hget & H). apply getitem_done in Hget as ->.
  apply and_then_done in H as ([] & s2 & Hhead & H).
  assert (Hs2 : store s2 = store s).
  { destruct s as [w out]. rewrite run_PrintTournamentHeader in Hhead. by injection Hhead as <-. }
  apply and_then_done in H as (final & s3 & Hrounds & H).
  rewrite <- Hs2 in HL.
  destruct (play_rounds_returned _ _ _ _ _ _ HL Hrounds) as [Hzero|Hok]; [|done].
  exfalso.
  destruct (play_rounds_short _ _ _ _ _ _ _ HL ltac:(lia) Hrounds) as (-> & ->).
  apply and_then_done in H as (tname' & s4 & Hget & H). apply getitem_done in Hget as ->.
  apply and_then_done in H as (L0 & s5 & Hlist & H).
  apply engine_done in Hlist as (Hlist & Hout).
  unfold get_list in Hlist. rewrite HL in Hlist. injection Hlist as <- Hst.
  destruct L; [|done].
  apply and_then_done in H as (winner & s6 & Hget & _).
  by apply getitem_nil_fails in Hget.
Qed.

Lemma frame_but_refl semi w : frame_but semi w w.
Proof. split; [apply teams_frame_refl|]. split; [auto|done]. Qed.

Lemma keeps_but_done {A} semi (a : A) : keeps_but semi (done a).
Proof. intros s. apply frame_but_refl. Qed.
Lemma keeps_but_fail {A} semi f : keeps_but semi (@fail A f).
Proof. intros s. apply frame_but_refl. Qed.
Lemma keeps_but_print semi text : keeps_but semi (print text).
Proof. intros s. apply frame_but_refl. Qed.
Lemma keeps_but_formatted_with semi fmt args : keeps_but semi (formatted_with fmt args).
Proof. intros s. unfold formatted_with. destruct (format fmt args); apply frame_but_refl. Qed.
Lemma keeps_but_and_then {A B} semi (c : Run A) (k : A -> Run B) :
  keeps_but semi c -> (forall a, keeps_but semi (k a)) -> keeps_but semi (and_then c k).
Proof.
  intros Hc Hk s. unfold and_then. specialize (Hc s).
  destruct (c s) as [[a|f] s1]; [|exact Hc].
  eapply frame_but_trans; [exact Hc|apply Hk].
Qed.
Lemma keeps_but_engine {A} semi (c : Py A) : keeps_frame c -> keeps_but semi (engine c).
Proof.
  intros Hc s. unfold engine. specialize (Hc (store s)).
  destruct (c (store s)) as [[a|e] w1]; by apply frame_frame_but.
Qed.
Lemma keeps_but_only_prints {A} semi (c : Run A) : only_prints c -> keeps_but semi c.
Proof. intros Hc s. destruct (Hc s) as (-> & _). apply frame_but_refl. Qed.
Lemma keeps_but_getitem {A} semi (l : list A) i : keeps_but semi (getitem l i).
Proof. apply keeps_but_engine, keeps_lift. Qed.
Lemma keeps_but_extend semi other : keeps_but semi (engine (list_extend semi other)).
Proof.
  intros s. unfold engine, list_extend.
  destruct (lists (store s) !! semi) as [L|]; [|apply frame_but_refl].
  destruct (lists (store s) !! other) as [L'|]; [|apply frame_but_refl].
  cbn. split; [apply teams_frame_refl|]. split; [|done].
  intros l L0 Hne H. cbn. by rewrite lookup_insert_ne.
Qed.

Lemma keeps_but_play_rounds semi names ti : forall lineup,
  keeps_but semi (play_rounds names ti lineup).
Proof.
  induction names as [|name later IH]; intros lineup; rewrite play_rounds_unfold;
    (apply keeps_but_and_then; [apply keeps_but_engine, keeps_get_list|intros L]);
    destruct (1 <? Z.of_nat (length L)); try apply keeps_but_done; try apply keeps_but_fail.
  apply keeps_but_and_then; [apply keeps_but_getitem|intros tname].
  apply keeps_but_and_then; [apply keeps_but_formatted_with|intros heading].
  apply keeps_but_and_then; [apply keeps_but_print|intros _].
  apply keeps_but_and_then; [apply keeps_but_only_prints, prints_PritsPrintLineup|intros _].
  apply keeps_but_and_then; [apply keeps_but_engine, keeps_SingleRoundPlayBall|intros next].
  apply IH.
Qed.

Lemma keeps_FormattedTeamName t : keeps_frame (FormattedTeamName t).
Proof. intros w. rewrite (reads_FormattedTeamName t w). apply frame_refl. Qed.

Lemma keeps_but_play_division semi ti lineup : keeps_but semi (play_division semi ti lineup).
Proof.
  unfold play_division.
  apply keeps_but_and_then; [apply keeps_but_getitem|intros tname].
  apply keeps_but_and_then.
  { unfold PrintTournamentHeader.
    repeat (apply keeps_but_and_then; [apply keeps_but_print|intros _]). apply keeps_but_print. }
  intros _.
  apply keeps_but_and_then; [apply keeps_but_play_rounds|intros final].
  apply keeps_but_and_then; [apply keeps_but_getitem|intros tname'].
  apply keeps_but_and_then; [apply keeps_but_engine, keeps_get_list|intros L].
  apply keeps_but_and_then; [apply keeps_but_getitem|intros winner].
  apply keeps_but_and_then; [apply keeps_but_engine, keeps_FormattedTeamName|intros shown].
  apply keeps_but_and_then; [apply keeps_but_formatted_with|intros text].
  apply keeps_but_and_then; [apply keeps_but_print|intros _].
  apply keeps_but_extend.
Qed.

Lemma import_row_done dict r s dict' s' :
  import_row dict r s = (Done dict', s') -> is_Some (team_of_row r).
Proof.
  unfold import_row, team_of_row, row_getitem. intros H.
  destruct (r !! "Team") as [n|]; [|done].
  apply and_then_done in H as (? & s1 & [= <- <-] & H).
  destruct (r !! "Seed") as [sd|]; [|done].
  apply and_then_done in H as (? & s2 & [= <- <-] & H).
  destruct (r !! "Division") as [d|]; [|done].
  apply and_then_done in H as (? & s3 & [= <- <-] & H).
  destruct (r !! "Odds") as [c|]; [|done].
  apply and_then_done in H as (? & s4 & [= <- <-] & H).
  apply and_then_done in H as (o & s5 & Hf & H).
  apply engine_done in Hf as (Hf & _). unfold lift in Hf. injection Hf as Hf _.
  apply and_then_done in H as (t & s6 & Hnew & _).
  apply engine_done in Hnew as (Hnew & _).
  unfold Team_new, bind, lift in Hnew. cbn. rewrite Hf.
  destruct (Team_init n sd d o); [eauto|done].
Qed.

Lemma import_rows_done rows : forall dict s dict' s',
  import_rows dict rows s = (Done dict', s') -> is_Some (teams_of_rows rows).
Proof.
  induction rows as [|r rows IH]; intros dict s dict' s' H; [by eexists|].
  cbn [import_rows] in H. apply and_then_done in H as (d1 & s1 & Hrow & Hrest).
  apply import_row_done in Hrow as (T & HT). apply IH in Hrest as (Ts & HTs).
  cbn. rewrite HT, HTs. by eexists.
Qed.

Lemma standard_tournament_returned dict semi : forall order ti s ti' s',
  standard_tournament (Gen (yield_lineups dict order)) semi ti s = (Done ti', s') ->
  (forall d l, d ∈ order -> dict !! d = Some l -> l <> semi) ->
  forall d, d ∈ order ->
    exists l, dict !! d = Some l /\
      forall L, lists (store s) !! l = Some L -> bracket_size (length L) = true.
Proof.
  induction order as [|d0 later IH]; intros ti s ti' s' H Hne d Hd.
  - by apply elem_of_nil in Hd.
  - cbn [standard_tournament yield_lineups] in H.
    destruct (dict !! d0) as [l0|] eqn:E0; [|done]. cbn [done] in H.
    apply and_then_done in H as ([] & s1 & Hdiv & Hrest).
    apply elem_of_cons in Hd as [->|Hd].
    + exists l0. split; [done|]. intros L HL. by eapply play_division_returned.
    + destruct (IH _ _ _ _ Hrest) with (d := d) as (l & Hl & HL); [|done|].
      { intros d' l' Hd' Hl'. apply (Hne d'); [by right|done]. }
      exists l. split; [done|]. intros L HL0. apply HL.
      pose proof (keeps_but_play_division semi ti l0 s) as (_ & Fl & _).
      rewrite Hdiv in Fl. apply Fl; [|done]. apply (Hne d); [by right|done].
Qed.






Lemma win_probabilities_nan a b :
  a = S754_nan \/ b = S754_nan ->
  win_probabilities a b = Returned (S754_nan, S754_nan).
Proof.
  intros [-> | ->].
  - by destruct b as [| | |[] ? ?].
  - destruct a as [[]|[]| |[] ? ?]; reflexivity.
Qed.


Lemma same_ret {A} (a : A) : same_lists (ret a).
Proof. by intros w. Qed.
Lemma same_raise {A} e : same_lists (@raise A e).
Proof. by intros w. Qed.
Lemma same_lift {A} (o : outcome A) : same_lists (lift o).
Proof. by intros w. Qed.
Lemma same_bind {A B} (c : Py A) (k : A -> Py B) :
  same_lists c -> (forall a, same_lists (k a)) -> same_lists (bind c k).
Proof.
  intros Hc Hk w. unfold bind. specialize (Hc w).
  destruct (c w) as [[a|e] w1]; simpl in *; [|done]. by rewrite Hk.
Qed.
Lemma same_reads {A} (c : Py A) : reads_only c -> same_lists c.
Proof. intros Hc w. by rewrite Hc. Qed.
Lemma same_set_previous_upset t b : same_lists (set_previous_upset t b).
Proof. intros w. unfold set_previous_upset. by destruct (teams w !! t). Qed.
Lemma same_randint a b : same_lists (randint a b).
Proof. intros w. unfold randint. by destruct (b <? a). Qed.
Lemma same_py_assert b : same_lists (py_assert b).
Proof. destruct b; [apply same_ret|apply same_raise]. Qed.
Lemma same_mapM {A B} (f : A -> Py B) l :
  (forall a, same_lists (f a)) -> same_lists (mapM f l).
Proof.
  intros Hf. induction l as [|a l IH]; [apply same_ret|].
  cbn. apply same_bind; [apply Hf|intros b].
  apply same_bind; [exact IH|intros bs]. apply same_ret.
Qed.

Lemma same_WeightedCoinFlip t1 t2 : same_lists (WeightedCoinFlip t1 t2).
Proof.
  unfold WeightedCoinFlip.
  repeat first
    [ apply same_ret | apply same_lift | apply same_py_assert | apply same_randint
    | apply same_set_previous_upset
    | apply same_reads; first [apply reads_get_team|apply reads_CalculateWinProbabilities]
    | apply same_bind; [|intros ?]
    | match goal with
      | |- same_lists (let '(_, _) := ?p in _) => destruct p
      | |- same_lists (if ?b then _ else _) => destruct b
      end ].
Qed.

Lemma same_play_pair lineup index : same_lists (play_pair lineup index).
Proof.
  unfold play_pair.
  repeat first
    [ apply same_lift | apply same_WeightedCoinFlip
    | apply same_reads, reads_get_list
    | apply same_bind; [|intros ?] ].
Qed.

Lemma play_pair_aborted w0 w lineup L i a b Ta Tb e :
  lists w !! lineup = Some L -> frame w0 w ->
  pair_at w0 L i a b Ta Tb ->
  fill_hat (probability Ta) (probability Tb) = Raised e ->
  exists w', play_pair lineup (Z.of_nat (2 * i)) w = (Raised e, w') /\
             flags_reset w w' a b.
Proof.
  intros HL F Hp Hf.
  destruct (pair_at_frame _ _ _ _ _ _ _ _ F Hp) as (Ta' & Tb' & (Ha & Hb & HTa & HTb) & Fa & Fb).
  destruct (WeightedCoinFlip_aborted w a b Ta' Tb' e HTa HTb) as (w' & Hrun & R).
  { destruct Fa as (_&_&_&_&<-). destruct Fb as (_&_&_&_&<-). exact Hf. }
  exists w'. split; [|exact R].
  unfold play_pair.
  rewrite (run_bind _ _ _ _ _ (run_get_list _ _ _ HL)).
  unfold lift at 1. rewrite (list_getitem_nat _ _ _ Ha).
  rewrite (run_bind _ _ w a w) by done.
  rewrite (run_bind _ _ _ _ _ (run_get_list _ _ _ HL)).
  unfold lift at 1.
  replace (Z.of_nat (2 * i) + 1) with (Z.of_nat (2 * i + 1)) by lia.
  rewrite (list_getitem_nat _ _ _ Hb).
  rewrite (run_bind _ _ w b w) by done. exact Hrun.
Qed.


Lemma mixed_field_first_pair : resolvable mixed_field [0; 1; 2; 3]%nat 1.
Proof.
  intros i Hi. assert (i = 0)%nat as -> by lia.
  exists 0%nat, 1%nat. do 2 eexists. split.
  - repeat split; vm_compute; reflexivity.
  - vm_compute. reflexivity.
Qed.


Lemma pow2_pos k : (1 <= 2 ^ k)%nat.
Proof. induction k; simpl; lia. Qed.

Lemma run_play_rounds_long names : forall bad rest ti lineup L w out k,
  lists w !! lineup = Some L -> length L = (2 ^ (length names + S k))%nat ->
  playable w L -> Forall one_slot names -> (forall a, format bad [a] = None) ->
  0 <= ti < 7 ->
  exists w' out',
    play_rounds (names ++ bad :: rest) ti lineup (mkSession w out) =
      (Failed TypeError, mkSession w' out') /\
    (exists more, out' = out ++ more) /\
    (drawn w' + 2 ^ S k = drawn w + 2 ^ (length names + S k))%nat /\ frame w w'.
Proof.
  induction names as [|name names IH]; intros bad rest ti lineup L w out k HL Hlen Hp Hslots Hbad Hti.
  - exists w, out. cbn [app length Nat.add] in *.
    pose proof (pow2_pos k).
    destruct (run_getitem_tournament ti w out Hti) as (tname & Hget).
    rewrite play_rounds_unfold.
    rewrite (run_and_then _ _ _ _ _ (run_engine _ _ out _ _ (run_get_list _ _ _ HL))).
    replace (1 <? Z.of_nat (length L)) with true
      by (symmetry; apply Z.ltb_lt; rewrite Hlen; simpl; lia).
    rewrite (run_and_then _ _ _ _ _ Hget).
    unfold formatted_with at 1. rewrite Hbad.
    split; [done|]. split; [exists []; by rewrite app_nil_r|]. split; [done|apply frame_refl].
  - apply Forall_cons in Hslots as [Hslot Hslots].
    cbn [length Nat.add] in Hlen.
    set (n := (2 ^ (length names + S k))%nat) in *.
    assert (Hlen2 : length L = (2 * n)%nat) by (rewrite Hlen; simpl; lia).
    pose proof (pow2_pos (length names + S k)) as Hn. fold n in Hn.
    destruct (run_getitem_tournament ti w out Hti) as (tname & Hget).
    destruct (Hslot tname) as (heading & Hfmt).
    destruct (run_print_playable w (out ++ [heading]) lineup L n HL Hlen2 Hp)
      as (lines & _ & Hprint).
    destruct (run_round w lineup L n HL Hlen2 Hp)
      as (next & L' & w1 & Hround & Hnew & HL' & Hlen' & Hsub & Hd & F).
    destruct (IH bad rest ti next L' w1 (out ++ [heading] ++ lines ++ [""]) k HL' Hlen')
      as (w' & out' & Hrest & (more & Hmore) & Hd' & F'); [by eapply playable_frame|done..|].
    exists w', out'.
    cbn [app]. rewrite play_rounds_unfold.
    rewrite (run_and_then _ _ _ _ _ (run_engine _ _ out _ _ (run_get_list _ _ _ HL))).
    replace (1 <? Z.of_nat (length L)) with true by (symmetry; apply Z.ltb_lt; lia).
    rewrite (run_and_then _ _ _ _ _ Hget).
    unfold formatted_with at 1. rewrite Hfmt.
    rewrite (run_and_then _ _ _ heading (mkSession w out)) by reflexivity.
    rewrite (run_and_then _ _ _ tt (mkSession w (out ++ [heading]))) by reflexivity.
    rewrite (run_and_then _ _ _ _ _ Hprint).
    rewrite (run_and_then _ _ _ _ _ (run_engine _ _ _ _ _ Hround)).
    rewrite <- app_assoc. split; [exact Hrest|].
    split; [exists ([heading] ++ lines ++ [""] ++ more); rewrite Hmore; by rewrite <- !app_assoc|].
    split; [|by eapply frame_trans].
    cbn [length Nat.add]. fold n in Hd' |- *.
    change (2 ^ S (length names + S k))%nat with (2 * n)%nat. lia.
Qed.


Lemma crowd_playable : playable crowd (seq 0 32).
Proof.
  assert (H : forall a, a ∈ seq 0 32 ->
            teams crowd !! a =
            Some (mkTeam "Team" "1" "Midwest" (F64.of_Z 5) (weight_of_odds 5) false)).
  { intros a Ha. apply list_elem_of_In, in_seq in Ha.
    do 32 (destruct a as [|a]; [vm_compute; reflexivity|]). lia. }
  intros a b Ha Hb. eexists _, _. split; [by apply H|]. split; [by apply H|].
  vm_compute. reflexivity.
Qed.










(** * The claims *)

(** C1: for every matchup of entrants with positive win weights the two slip
    counts should add up to 1000.  They do not: with odds 1 against odds 79
    the counts are 987 and 12, the hat is one slip short, the check on the
    hat raises ([AssertionError], the spec's InternalInvariantError) and the
    whole round is aborted; with odds 15 against odds 1 both quotients are
    ties, both round away from zero, and the counts are 63 and 938, one slip
    too many.  The other half of the claim holds: whenever the hat does not
    hold 1000 slips the matchup raises, before any draw. *)
Theorem hat_not_full_for_valid_weights :
  (exists T1 T2 p1 p2,
     teams long_shot !! 0%nat = Some T1 /\ teams long_shot !! 1%nat = Some T2 /\
     odds T1 = F64.of_Z 1 /\ odds T2 = F64.of_Z 79 /\
     F64.pos_finite (probability T1) = true /\ F64.pos_finite (probability T2) = true /\
     win_probabilities (probability T1) (probability T2) = Returned (p1, p2) /\
     slips p1 = Returned 987 /\ slips p2 = Returned 12 /\
     fst (WeightedCoinFlip 0%nat 1%nat long_shot) = Raised AssertionError /\
     fst (SingleRoundPlayBall 0%nat long_shot) = Raised AssertionError) /\
  (exists p1 p2,
     win_probabilities (weight_of_odds 15) (weight_of_odds 1) = Returned (p1, p2) /\
     slips p1 = Returned 63 /\ slips p2 = Returned 938 /\
     fill_hat (weight_of_odds 15) (weight_of_odds 1) = Raised AssertionError) /\
  (forall w t1 t2 T1 T2 p1 p2 n1 n2,
     teams w !! t1 = Some T1 -> teams w !! t2 = Some T2 ->
     win_probabilities (probability T1) (probability T2) = Returned (p1, p2) ->
     slips p1 = Returned n1 -> slips p2 = Returned n2 ->
     hat_size n1 n2 <> 1000%nat ->
     exists w', WeightedCoinFlip t1 t2 w = (Raised AssertionError, w') /\
                drawn w' = drawn w).
Proof.
  split; [|split].
  - do 4 eexists. split; [vm_compute; reflexivity|]. split; [vm_compute; reflexivity|].
    repeat split; vm_compute; reflexivity.
  - do 2 eexists. split; [vm_compute; reflexivity|]. repeat split; vm_compute; reflexivity.
  - intros w t1 t2 T1 T2 p1 p2 n1 n2 H1 H2 Hp Hn1 Hn2 Hsize.
    assert (Hf : fill_hat (probability T1) (probability T2) = Raised AssertionError).
    { unfold fill_hat. rewrite Hp. cbn [obind fst snd]. rewrite Hn1, Hn2. cbn [obind].
      by destruct (Nat.eqb_spec (hat_size n1 n2) 1000). }
    destruct (WeightedCoinFlip_aborted w t1 t2 T1 T2 _ H1 H2 Hf) as (w' & Hrun & R).
    exists w'. split; [exact Hrun|]. by destruct R as (D & _).
Qed.

(** What a matchup does to the two flags.  It first resets both, also when
    it then aborts.  When it is resolved, the loser's flag stays false; if
    the two entrants carry different names, the winner's flag is true
    exactly when the winner had the strictly lower probability; and when
    neither probability is below the other no flag is set, whatever the
    names. *)
Lemma WeightedCoinFlip_upset_flag w t1 t2 T1 T2 :
  teams w !! t1 = Some T1 -> teams w !! t2 = Some T2 ->
  match fill_hat (probability T1) (probability T2) with
  | Raised e =>
      exists w', WeightedCoinFlip t1 t2 w = (Raised e, w') /\
                 flag_of w' t1 = Some false /\ flag_of w' t2 = Some false
  | Returned (p1, p2, _, _) =>
      exists (first : bool) w',
        let winner := if first then t1 else t2 in
        let loser := if first then t2 else t1 in
        let p_winner := if first then p1 else p2 in
        let p_loser := if first then p2 else p1 in
        WeightedCoinFlip t1 t2 w = (Returned winner, w') /\
        (loser <> winner -> flag_of w' loser = Some false) /\
        (name T1 <> name T2 ->
           (flag_of w' winner = Some true <-> F64.ltb p_winner p_loser = true)) /\
        (F64.ltb p1 p2 = false -> F64.ltb p2 p1 = false ->
           flag_of w' t1 = Some false /\ flag_of w' t2 = Some false)
  end.
Proof.
  intros H1 H2.
  destruct (fill_hat (probability T1) (probability T2)) as [[[[p1 p2] n1] n2]|e] eqn:Hf.
  - destruct (WeightedCoinFlip_resolved w t1 t2 T1 T2 p1 p2 n1 n2 H1 H2 Hf)
      as (w' & Hrun & _ & Hw & Hl & _).
    rewrite underdog_1, underdog_2 in Hw.
    set (first := (tape w (drawn w) mod 1000 <? Z.to_nat n1)%nat) in *.
    exists first, w'. cbv zeta. split; [exact Hrun|]. split; [|split].
    + intros Hne. apply Hl; [done|]. destruct first; auto.
    + intros Hname. rewrite Hw. destruct first.
      * rewrite String.eqb_refl. apply String.eqb_neq in Hname. rewrite Hname.
        cbn [andb orb]. rewrite orb_false_r. split; congruence.
      * rewrite String.eqb_refl. apply not_eq_sym, String.eqb_neq in Hname.
        rewrite Hname. cbn [andb orb]. split; congruence.
    + intros E12 E21. rewrite E12, E21, !andb_false_r in Hw. cbn [orb] in Hw.
      destruct first.
      * split; [exact Hw|].
        destruct (decide (t2 = t1)) as [->|N]; [exact Hw|]. apply Hl; auto.
      * split; [|exact Hw].
        destruct (decide (t1 = t2)) as [->|N]; [exact Hw|]. apply Hl; auto.
  - destruct (WeightedCoinFlip_aborted w t1 t2 T1 T2 e H1 H2 Hf) as (w2 & Hrun & R).
    exists w2. split; [exact Hrun|]. destruct R as (_&_&_&B1&B2&_). auto.
Qed.

(** The flags after the matchup of the first pair of [four_teams]. *)
Lemma WeightedCoinFlip_upset_flag_witness :
  exists T1 T2,
    teams four_teams !! 0%nat = Some T1 /\ teams four_teams !! 1%nat = Some T2 /\
    match fill_hat (probability T1) (probability T2) with
    | Raised e =>
        exists w', WeightedCoinFlip 0%nat 1%nat four_teams = (Raised e, w') /\
                   flag_of w' 0%nat = Some false /\ flag_of w' 1%nat = Some false
    | Returned (p1, p2, _, _) =>
        exists (first : bool) w',
          let winner := if first then 0%nat else 1%nat in
          let loser := if first then 1%nat else 0%nat in
          let p_winner := if first then p1 else p2 in
          let p_loser := if first then p2 else p1 in
          WeightedCoinFlip 0%nat 1%nat four_teams = (Returned winner, w') /\
          (loser <> winner -> flag_of w' loser = Some false) /\
          (name T1 <> name T2 ->
             (flag_of w' winner = Some true <-> F64.ltb p_winner p_loser = true)) /\
          (F64.ltb p1 p2 = false -> F64.ltb p2 p1 = false ->
             flag_of w' 0%nat = Some false /\ flag_of w' 1%nat = Some false)
    end.
Proof.
  do 2 eexists. split; [reflexivity|]. split; [reflexivity|].
  apply (WeightedCoinFlip_upset_flag four_teams 0%nat 1%nat); reflexivity.
Defined.

(** C4: the matchup is meant to flag its winner exactly when the win is an
    upset, and the code misses this where two entrants share a name, because
    it finds out who has won by comparing names.  In [namesakes] the first
    entrant is the underdog, 20 percent against 80; the favourite is drawn,
    its name is the underdog's name, and it leaves the matchup flagged as an
    upset winner.  For every matchup the rest of the claim holds: both flags
    are reset first, also when the matchup then aborts; the loser's flag
    stays false; between entrants of different names the winner's flag is
    true exactly when the winner had the strictly lower probability; and
    when neither probability is below the other no flag is set, whatever
    the names. *)
Theorem favourite_flagged_by_name :
  (exists T1 T2 p1 p2 n1 n2 w',
     teams namesakes !! 0%nat = Some T1 /\ teams namesakes !! 1%nat = Some T2 /\
     name T1 = name T2 /\
     fill_hat (probability T1) (probability T2) = Returned (p1, p2, n1, n2) /\
     F64.ltb p1 p2 = true /\ F64.ltb p2 p1 = false /\
     WeightedCoinFlip 0%nat 1%nat namesakes = (Returned 1%nat, w') /\
     flag_of w' 1%nat = Some true) /\
  (forall w t1 t2 T1 T2,
     teams w !! t1 = Some T1 -> teams w !! t2 = Some T2 ->
     match fill_hat (probability T1) (probability T2) with
     | Raised e =>
         exists w', WeightedCoinFlip t1 t2 w = (Raised e, w') /\
                    flag_of w' t1 = Some false /\ flag_of w' t2 = Some false
     | Returned (p1, p2, _, _) =>
         exists (first : bool) w',
           let winner := if first then t1 else t2 in
           let loser := if first then t2 else t1 in
           let p_winner := if first then p1 else p2 in
           let p_loser := if first then p2 else p1 in
           WeightedCoinFlip t1 t2 w = (Returned winner, w') /\
           (loser <> winner -> flag_of w' loser = Some false) /\
           (name T1 <> name T2 ->
              (flag_of w' winner = Some true <-> F64.ltb p_winner p_loser = true)) /\
           (F64.ltb p1 p2 = false -> F64.ltb p2 p1 = false ->
              flag_of w' t1 = Some false /\ flag_of w' t2 = Some false)
     end).
Proof.
  split; [|exact WeightedCoinFlip_upset_flag].
  destruct namesakes_flip as (Hw & Hf & _ & (T1 & T2 & H1 & H2 & Hn & Hh) & Hlt & Hgt).
  exists T1, T2, (F64.of_Z 20), (F64.of_Z 80), 200, 800,
    (snd (WeightedCoinFlip 0%nat 1%nat namesakes)).
  repeat (split; [assumption|]). split; [|exact Hf].
  by apply run_from_fst.
Qed.

(** C6: when both win weights are zero (of either sign) the probability
    computation raises, at its first division ([ZeroDivisionError], the
    spec's DegenerateMatchupError), for the bare arithmetic and for team
    objects in any store. *)
Theorem zero_weights_raise a b :
  F64.is_zero a = true -> F64.is_zero b = true ->
  win_probabilities a b = Raised ZeroDivisionError /\
  forall w t1 t2 T1 T2,
    teams w !! t1 = Some T1 -> teams w !! t2 = Some T2 ->
    probability T1 = a -> probability T2 = b ->
    CalculateWinProbabilities t1 t2 w = (Raised ZeroDivisionError, w).
Proof.
  intros Ha Hb.
  assert (E : win_probabilities a b = Raised ZeroDivisionError).
  { destruct a as [sa| | |]; try done. destruct b as [sb| | |]; try done.
    destruct sa, sb; reflexivity. }
  split; [exact E|].
  intros w t1 t2 T1 T2 H1 H2 <- <-.
  rewrite (run_CalculateWinProbabilities w w t1 t2 T1 T2 H1 H2 (teams_frame_refl _)).
  by rewrite E.
Qed.

(** C6, at two entrants built with infinite odds. *)
Lemma zero_weights_raise_witness :
  (exists T1 T2, teams no_hopers !! 0%nat = Some T1 /\ teams no_hopers !! 1%nat = Some T2 /\
     F64.is_zero (probability T1) = true /\ F64.is_zero (probability T2) = true) /\
  CalculateWinProbabilities 0%nat 1%nat no_hopers = (Raised ZeroDivisionError, no_hopers).
Proof.
  split.
  - do 2 eexists. split; [vm_compute; reflexivity|]. split; [vm_compute; reflexivity|].
    split; reflexivity.
  - eapply (proj2 (zero_weights_raise (S754_zero false) (S754_zero false) eq_refl eq_refl)
              no_hopers 0%nat 1%nat); vm_compute; reflexivity.
Defined.

(** C8: whatever its outcome, a matchup leaves every team object in place
    with its name, seed, division, odds and probability, and leaves every
    list alone; so does a round, and the lineup a round returns is a list
    object that did not exist before. *)
Theorem only_previous_upset_changes :
  (forall t1 t2 w, frame w (snd (WeightedCoinFlip t1 t2 w))) /\
  (forall lineup w,
     frame w (snd (SingleRoundPlayBall lineup w)) /\
     forall next, fst (SingleRoundPlayBall lineup w) = Returned next ->
       lists w !! next = None /\
       is_Some (lists (snd (SingleRoundPlayBall lineup w)) !! next)).
Proof.
  split.
  - intros t1 t2. apply keeps_WeightedCoinFlip.
  - intros lineup w. split; [apply keeps_SingleRoundPlayBall|].
    apply SingleRoundPlayBall_fresh.
Qed.

(** C10: for entrants with different names the matchup is the matchup that
    attributes the upset by identity, outcome and store alike; for two
    entrants of one name with a strict underdog it is not: the favourite is
    drawn and its flag is set, where attribution by identity leaves it
    false. *)
Theorem name_comparison_vs_identity :
  (forall w t1 t2 T1 T2,
     teams w !! t1 = Some T1 -> teams w !! t2 = Some T2 ->
     name T1 <> name T2 ->
     WeightedCoinFlip t1 t2 w = WeightedCoinFlip_by_identity t1 t2 w) /\
  (exists w t1 t2 T1 T2 p1 p2 n1 n2 w',
     teams w !! t1 = Some T1 /\ teams w !! t2 = Some T2 /\
     name T1 = name T2 /\
     fill_hat (probability T1) (probability T2) = Returned (p1, p2, n1, n2) /\
     F64.ltb p1 p2 = true /\
     WeightedCoinFlip t1 t2 w = (Returned t2, w') /\
     flag_of w' t2 = Some true /\
     flag_of (snd (WeightedCoinFlip_by_identity t1 t2 w)) t2 = Some false).
Proof.
  split; [exact by_name_or_by_identity|].
  destruct namesakes_flip as (Hw & Hf & Hi & (T1 & T2 & H1 & H2 & Hn & Hh) & Hlt & _).
  exists namesakes, 0%nat, 1%nat, T1, T2, (F64.of_Z 20), (F64.of_Z 80), 200, 800,
    (snd (WeightedCoinFlip 0%nat 1%nat namesakes)).
  split; [exact H1|]. split; [exact H2|]. split; [exact Hn|]. split; [exact Hh|].
  split; [exact Hlt|]. split; [|split; [exact Hf|exact Hi]].
  by apply run_from_fst.
Qed.

(** A lineup of even length [2k] whose [k] matchups all have a full hat is
    reduced to a new list of length [k]; position [i] of the result holds one
    of the two entrants at positions [2i] and [2i+1] of the input, namely the
    one the [i]-th draw of this round picks for that pair alone. *)
Lemma SingleRoundPlayBall_pairs w lineup L k :
  lists w !! lineup = Some L ->
  length L = (2 * k)%nat ->
  resolvable w L k ->
  exists next L' w',
    SingleRoundPlayBall lineup w = (Returned next, w') /\
    lists w' !! next = Some L' /\
    length L' = k /\
    forall i, (i < k)%nat ->
      exists a b Ta Tb t,
        pair_at w L i a b Ta Tb /\
        L' !! i = Some t /\ (t = a \/ t = b) /\
        Some t = winner_of Ta Tb a b (tape w (drawn w + i)%nat).
Proof.
  intros HL Hlen Hready.
  unfold SingleRoundPlayBall.
  rewrite (run_bind _ _ _ _ _ (run_get_list _ _ _ HL)).
  rewrite py_range_pairs, Hlen.
  replace (Nat.div2 (S (2 * k))) with k.
  2:{ rewrite Nat.div2_div. apply (Nat.div_unique _ 2 k 1); lia. }
  destruct (run_pairs lineup L w k 0%nat w HL (frame_refl w)) as (ws & w1 & Hrun & Hl & _ & F & Hws).
  { intros i Hi. apply Hready. lia. }
  rewrite (run_bind _ _ _ _ _ Hrun).
  unfold new_list. eexists _, ws, _. split; [reflexivity|]. simpl.
  rewrite lookup_insert_eq. split; [done|]. split; [done|].
  intros i Hi. destruct (Hws i Hi) as (a & b & Ta & Tb & Hp & Hw).
  simpl in Hp.
  destruct (lookup_lt_is_Some_2 ws i ltac:(lia)) as (t & Ht).
  exists a, b, Ta, Tb, t. rewrite Ht in Hw.
  split; [done|]. split; [done|]. split; [|done].
  by eapply winner_of_either.
Qed.

(** C9: on a lineup of odd length the reduction never returns: it raises, and
    when the complete pairs before the last entrant all resolve, what it
    raises is the [IndexError] of reading one position past the end. *)
Theorem SingleRoundPlayBall_odd_length w lineup L k :
  lists w !! lineup = Some L ->
  length L = (2 * k + 1)%nat ->
  (exists e w', SingleRoundPlayBall lineup w = (Raised e, w')) /\
  (resolvable w L k ->
   exists w', SingleRoundPlayBall lineup w = (Raised IndexError, w')).
Proof.
  intros HL Hlen.
  assert (E : SingleRoundPlayBall lineup w =
              (winners <- mapM (play_pair lineup)
                 (map (fun i => Z.of_nat (2 * i)) (seq 0 k) ++ [Z.of_nat (2 * k)]) ;;
               new_list winners) w).
  { unfold SingleRoundPlayBall.
    rewrite (run_bind _ _ _ _ _ (run_get_list _ _ _ HL)).
    rewrite py_range_pairs, Hlen.
    replace (Nat.div2 (S (2 * k + 1))) with (S k).
    2:{ rewrite Nat.div2_div. apply (Nat.div_unique _ 2 (S k) 0); lia. }
    by rewrite seq_S, map_app. }
  rewrite E. clear E.
  pose proof (mapM_kept lineup L (map (fun i => Z.of_nat (2 * i)) (seq 0 k)) w HL) as HL1.
  split.
  - unfold bind at 1. rewrite mapM_app.
    destruct (mapM _ (map _ (seq 0 k)) w) as [[bs|e] w1]; [|eauto].
    simpl in HL1. cbn [mapM]. unfold bind at 1.
    rewrite (run_play_pair_past _ _ _ _ HL1 Hlen). eauto.
  - intros Hready.
    destruct (run_pairs lineup L w k 0%nat w HL (frame_refl w)) as (ws & w1 & Hrun & _).
    { intros i Hi. apply Hready. lia. }
    unfold bind at 1. rewrite mapM_app.
    rewrite Hrun in HL1 |- *. simpl in HL1. cbn [mapM]. unfold bind at 1.
    rewrite (run_play_pair_past _ _ _ _ HL1 Hlen). eauto.
Qed.

(** The round of the four-entrant lineup of [four_teams]. *)
Lemma SingleRoundPlayBall_pairs_witness :
  exists next L' w',
    SingleRoundPlayBall 0%nat four_teams = (Returned next, w') /\
    lists w' !! next = Some L' /\
    length L' = 2%nat /\
    forall i, (i < 2)%nat ->
      exists a b Ta Tb t,
        pair_at four_teams [0; 1; 2; 3]%nat i a b Ta Tb /\
        L' !! i = Some t /\ (t = a \/ t = b) /\
        Some t = winner_of Ta Tb a b (tape four_teams (drawn four_teams + i)%nat).
Proof.
  apply (SingleRoundPlayBall_pairs four_teams 0%nat [0; 1; 2; 3]%nat 2).
  - vm_compute. reflexivity.
  - reflexivity.
  - apply four_teams_resolvable. lia.
Defined.

(** The only pair of [long_shot] is not a matchup with a full hat. *)
Lemma long_shot_not_resolvable : ~ resolvable long_shot [0; 1]%nat 1.
Proof.
  intros H. destruct (H 0%nat ltac:(lia)) as (a & b & Ta & Tb & (Ha & Hb & HTa & HTb) & Hfull).
  cbn in Ha, Hb. injection Ha as <-. injection Hb as <-.
  vm_compute in HTa, HTb. injection HTa as <-. injection HTb as <-.
  vm_compute in Hfull. discriminate.
Qed.

(** C3: a round should reduce every lineup of even length to the winners of
    its pairs, and the code does not.  The lineup of [long_shot] has the two
    entrants of odds 1 and 79, both of positive finite win weight; their hat
    holds 999 slips, the check on the hat raises [AssertionError] inside the
    round, and the round returns no lineup and creates no list.  Where the
    matchups of an even lineup do fill their hats the claim holds: the round
    returns a new list of half the length, whose position [i] holds one of
    the two entrants at positions [2i] and [2i+1] of the input, the one the
    [i]-th draw of the round picks for that pair alone. *)
Theorem even_lineup_aborts_on_short_hat :
  (exists T1 T2,
     lists long_shot !! 0%nat = Some [0; 1]%nat /\
     teams long_shot !! 0%nat = Some T1 /\ teams long_shot !! 1%nat = Some T2 /\
     F64.pos_finite (probability T1) = true /\ F64.pos_finite (probability T2) = true /\
     fill_hat (probability T1) (probability T2) = Raised AssertionError /\
     ~ resolvable long_shot [0; 1]%nat 1 /\
     fst (SingleRoundPlayBall 0%nat long_shot) = Raised AssertionError /\
     lists (snd (SingleRoundPlayBall 0%nat long_shot)) = lists long_shot) /\
  (forall w lineup L k,
     lists w !! lineup = Some L ->
     length L = (2 * k)%nat ->
     resolvable w L k ->
     exists next L' w',
       SingleRoundPlayBall lineup w = (Returned next, w') /\
       lists w' !! next = Some L' /\
       length L' = k /\
       forall i, (i < k)%nat ->
         exists a b Ta Tb t,
           pair_at w L i a b Ta Tb /\
           L' !! i = Some t /\ (t = a \/ t = b) /\
           Some t = winner_of Ta Tb a b (tape w (drawn w + i)%nat)).
Proof.
  split.
  - do 2 eexists. split; [vm_compute; reflexivity|].
    split; [vm_compute; reflexivity|]. split; [vm_compute; reflexivity|].
    split; [vm_compute; reflexivity|]. split; [vm_compute; reflexivity|].
    split; [vm_compute; reflexivity|]. split; [exact long_shot_not_resolvable|].
    split; vm_compute; reflexivity.
  - exact SingleRoundPlayBall_pairs.
Qed.

(** C9, at the three-entrant lineup of [four_teams]. *)
Lemma SingleRoundPlayBall_odd_length_witness :
  (exists e w', SingleRoundPlayBall 1%nat four_teams = (Raised e, w')) /\
  (resolvable four_teams [0; 1; 2]%nat 1 ->
   exists w', SingleRoundPlayBall 1%nat four_teams = (Raised IndexError, w')).
Proof.
  apply (SingleRoundPlayBall_odd_length four_teams 1%nat [0; 1; 2]%nat 1).
  - vm_compute. reflexivity.
  - reflexivity.
Defined.

(** C2 (amended): for positive finite win weights the two probabilities are
    computed, each is [round3] of its own quotient times 100, rounded on its
    own, and each lies in the closed range from 0 to 100. *)
Theorem win_probabilities_closed_range a b :
  F64.pos_finite a = true -> F64.pos_finite b = true ->
  exists p1 p2,
    win_probabilities a b = Returned (p1, p2) /\
    p1 = F64.mul (round3 (F64.div a (F64.add a b))) (F64.of_Z 100) /\
    p2 = F64.mul (round3 (F64.div b (F64.add a b))) (F64.of_Z 100) /\
    F64.leb (F64.of_Z 0) p1 = true /\ F64.leb p1 (F64.of_Z 100) = true /\
    F64.leb (F64.of_Z 0) p2 = true /\ F64.leb p2 (F64.of_Z 100) = true.
Proof.
  intros Ha Hb.
  destruct (win_probabilities_thousandths a b Ha Hb) as (n1 & n2 & H1 & H2 & Hw).
  exists (percent n1), (percent n2). split; [exact Hw|].
  assert (E : win_probabilities a b =
              Returned (F64.mul (round3 (F64.div a (F64.add a b))) (F64.of_Z 100),
                        F64.mul (round3 (F64.div b (F64.add a b))) (F64.of_Z 100))).
  { unfold win_probabilities, float_div. by rewrite (pos_finite_sum a b Ha Hb). }
  rewrite E in Hw. injection Hw as E1 E2.
  destruct (percent_spec n1 H1) as (L1 & U1 & _).
  destruct (percent_spec n2 H2) as (L2 & U2 & _).
  split; [by symmetry|]. split; [by symmetry|]. auto.
Qed.

(** C2, at odds 2 against odds 3. *)
Lemma win_probabilities_closed_range_witness :
  exists p1 p2,
    win_probabilities (weight_of_odds 2) (weight_of_odds 3) = Returned (p1, p2) /\
    p1 = F64.mul (round3 (F64.div (weight_of_odds 2)
                            (F64.add (weight_of_odds 2) (weight_of_odds 3)))) (F64.of_Z 100) /\
    p2 = F64.mul (round3 (F64.div (weight_of_odds 3)
                            (F64.add (weight_of_odds 2) (weight_of_odds 3)))) (F64.of_Z 100) /\
    F64.leb (F64.of_Z 0) p1 = true /\ F64.leb p1 (F64.of_Z 100) = true /\
    F64.leb (F64.of_Z 0) p2 = true /\ F64.leb p2 (F64.of_Z 100) = true.
Proof.
  apply (win_probabilities_closed_range (weight_of_odds 2) (weight_of_odds 3));
    vm_compute; reflexivity.
Defined.

(** C2 as stated fails: odds 10000 against odds 1 give the percentages 0.0
    and 100.0, the two ends that the open range leaves out. *)
Lemma probabilities_reach_0_and_100 :
  F64.pos_finite (weight_of_odds 10000) = true /\
  F64.pos_finite (weight_of_odds 1) = true /\
  win_probabilities (weight_of_odds 10000) (weight_of_odds 1)
    = Returned (S754_zero false, F64.of_Z 100) /\
  F64.ltb (F64.of_Z 0) (S754_zero false) = false /\
  F64.ltb (F64.of_Z 100) (F64.of_Z 100) = false.
Proof. repeat split; vm_compute; reflexivity. Qed.

(** C5 (amended): construction raises exactly when the odds are zero
    ([ZeroDivisionError], the spec's InvalidOddsError); for any other odds,
    negative ones too, it returns the entrant with [probability = 1 / odds]
    and a cleared flag; the weight is positive whenever the odds are
    positive and finite; and no matchup and no round changes the weight of
    any entrant. *)
Theorem Team_init_weight name seed division odds :
  (F64.is_zero odds = true ->
     Team_init name seed division odds = Raised ZeroDivisionError) /\
  (F64.is_zero odds = false ->
     Team_init name seed division odds =
     Returned (mkTeam name seed division odds (F64.div (F64.of_Z 1) odds) false)) /\
  (F64.pos_finite odds = true ->
     F64.ltb (F64.of_Z 0) (F64.div (F64.of_Z 1) odds) = true) /\
  (forall w t T, teams w !! t = Some T ->
     (forall t1 t2, exists T',
        teams (snd (WeightedCoinFlip t1 t2 w)) !! t = Some T' /\
        probability T' = probability T) /\
     (forall lineup, exists T',
        teams (snd (SingleRoundPlayBall lineup w)) !! t = Some T' /\
        probability T' = probability T)).
Proof.
  split; [|split; [|split]].
  - intros Hz. unfold Team_init, float_div. by rewrite Hz.
  - intros Hz. unfold Team_init, float_div. by rewrite Hz.
  - destruct odds as [| | |[] m e]; try done. cbn [F64.pos_finite]. intros Hb.
    destruct (reciprocal_positive m e Hb) as [->|(mr & er & ->)]; reflexivity.
  - intros w t T Ht. split.
    + intros t1 t2. destruct (keeps_WeightedCoinFlip t1 t2 w) as (F & _).
      destruct (frame_lookup _ _ _ _ F Ht) as (T' & HT' & (_&_&_&_&E)). eauto.
    + intros lineup. destruct (keeps_SingleRoundPlayBall lineup w) as (F & _).
      destruct (frame_lookup _ _ _ _ F Ht) as (T' & HT' & (_&_&_&_&E)). eauto.
Qed.

(** C5 as stated fails: odds -2.0 are not positive, yet the entrant is
    constructed, with the negative weight -0.5. *)
Lemma negative_odds_accepted :
  F64.leb (F64.of_Z (-2)) (F64.of_Z 0) = true /\
  exists T, Team_init "Nobody" "16" "East" (F64.of_Z (-2)) = Returned T /\
            F64.ltb (probability T) (F64.of_Z 0) = true.
Proof.
  split; [vm_compute; reflexivity|]. eexists. split; vm_compute; reflexivity.
Qed.

(** Two entrants of the same positive finite win weight, twice which is
    still finite, get exactly 50.0 each; there is no underdog; the matchup
    is resolved and leaves both flags false, whoever is drawn. *)
Lemma equal_weights_even_odds a :
  F64.pos_finite a = true -> F64.is_finite (F64.add a a) = true ->
  win_probabilities a a = Returned (F64.of_Z 50, F64.of_Z 50) /\
  underdog_of (F64.of_Z 50) (F64.of_Z 50) = None /\
  forall w t1 t2 T1 T2,
    teams w !! t1 = Some T1 -> teams w !! t2 = Some T2 ->
    probability T1 = a -> probability T2 = a ->
    exists winner w',
      WeightedCoinFlip t1 t2 w = (Returned winner, w') /\
      (winner = t1 \/ winner = t2) /\
      flag_of w' t1 = Some false /\ flag_of w' t2 = Some false.
Proof.
  intros Ha Hfin.
  destruct (fill_hat_equal_weights a Ha Hfin) as [Hw Hf].
  split; [exact Hw|]. split; [reflexivity|].
  intros w t1 t2 T1 T2 H1 H2 E1 E2.
  rewrite <- E1 in Hf at 1. rewrite <- E2 in Hf.
  destruct (WeightedCoinFlip_resolved w t1 t2 T1 T2 _ _ _ _ H1 H2 Hf)
    as (w' & Hrun & _ & Hwin & Hl & _).
  change (bool_decide (underdog_of (F64.of_Z 50) (F64.of_Z 50) = Some 1)) with false in Hwin.
  change (bool_decide (underdog_of (F64.of_Z 50) (F64.of_Z 50) = Some 2)) with false in Hwin.
  rewrite !andb_false_r in Hwin. cbn [orb] in Hwin.
  set (first := (tape w (drawn w) mod 1000 <? Z.to_nat 500)%nat) in *.
  exists (if first then t1 else t2), w'. split; [exact Hrun|].
  split; [destruct first; auto|].
  destruct first.
  - split; [exact Hwin|].
    destruct (decide (t2 = t1)) as [->|N]; [exact Hwin|]. apply Hl; auto.
  - split; [|exact Hwin].
    destruct (decide (t1 = t2)) as [->|N]; [exact Hwin|]. apply Hl; auto.
Qed.

(** The matchup of two entrants of odds 7. *)
Lemma equal_weights_even_odds_witness :
  win_probabilities (weight_of_odds 7) (weight_of_odds 7)
    = Returned (F64.of_Z 50, F64.of_Z 50) /\
  underdog_of (F64.of_Z 50) (F64.of_Z 50) = None /\
  forall w t1 t2 T1 T2,
    teams w !! t1 = Some T1 -> teams w !! t2 = Some T2 ->
    probability T1 = weight_of_odds 7 -> probability T2 = weight_of_odds 7 ->
    exists winner w',
      WeightedCoinFlip t1 t2 w = (Returned winner, w') /\
      (winner = t1 \/ winner = t2) /\
      flag_of w' t1 = Some false /\ flag_of w' t2 = Some false.
Proof.
  apply (equal_weights_even_odds (weight_of_odds 7)); vm_compute; reflexivity.
Defined.

(** C7: two entrants of equal positive weight should get 50.0 each, and the
    code does not give it to them when the weights are large.  The two
    entrants of [giants] have odds [2^-1023] and the equal positive weight
    [2^1023]; the sum of the weights overflows, each quotient is 0, both
    probabilities are 0.0 and not 50.0, no slip goes into the hat, and the
    matchup raises [AssertionError] at the check on the hat, before any
    draw.  Where twice the weight is still finite the claim holds: 50.0 for
    both sides, no underdog, a resolved matchup, and both flags false
    whoever is drawn. *)
Theorem equal_huge_weights_empty_hat :
  (exists T1 T2,
     teams giants !! 0%nat = Some T1 /\ teams giants !! 1%nat = Some T2 /\
     probability T1 = huge /\ probability T2 = huge /\
     F64.pos_finite huge = true /\
     win_probabilities huge huge = Returned (S754_zero false, S754_zero false) /\
     F64.eqb (S754_zero false) (F64.of_Z 50) = false /\
     slips (S754_zero false) = Returned 0 /\
     fill_hat huge huge = Raised AssertionError /\
     fst (WeightedCoinFlip 0%nat 1%nat giants) = Raised AssertionError /\
     drawn (snd (WeightedCoinFlip 0%nat 1%nat giants)) = drawn giants) /\
  (forall a,
     F64.pos_finite a = true -> F64.is_finite (F64.add a a) = true ->
     win_probabilities a a = Returned (F64.of_Z 50, F64.of_Z 50) /\
     underdog_of (F64.of_Z 50) (F64.of_Z 50) = None /\
     forall w t1 t2 T1 T2,
       teams w !! t1 = Some T1 -> teams w !! t2 = Some T2 ->
       probability T1 = a -> probability T2 = a ->
       exists winner w',
         WeightedCoinFlip t1 t2 w = (Returned winner, w') /\
         (winner = t1 \/ winner = t2) /\
         flag_of w' t1 = Some false /\ flag_of w' t2 = Some false).
Proof.
  split; [|exact equal_weights_even_odds].
  do 2 eexists. split; [vm_compute; reflexivity|]. split; [vm_compute; reflexivity|].
  repeat split; vm_compute; reflexivity.
Qed.
(** * Further properties of the program *)

(** X1: [RandomCoinFlip] never raises, whatever its two arguments are (it
    does not look at the team objects): it uses exactly one random draw,
    returns its first argument when the raw draw is even and its second when
    it is odd, and leaves every team, every flag and every list as it was. *)
Theorem RandomCoinFlip_one_draw team1 team2 w :
  RandomCoinFlip team1 team2 w =
  (Returned (if Nat.even (tape w (drawn w)) then team1 else team2),
   mkWorld (teams w) (lists w) (tape w) (S (drawn w))).
Proof.
  unfold RandomCoinFlip, bind, randint, lift. cbn [Z.ltb Z.compare].
  change (1 - 0 + 1) with 2. rewrite Z.add_0_l.
  set (r := tape w (drawn w)).
  assert (Z.of_nat r mod 2 = if Nat.even r then 0 else 1) as ->.
  { destruct (Nat.even r) eqn:E.
    - apply Nat.even_spec in E as [k ->]. Z.div_mod_to_equations. lia.
    - apply (f_equal negb) in E. rewrite Nat.negb_even in E.
      apply Nat.odd_spec in E as [k ->]. Z.div_mod_to_equations. lia. }
  destruct (Nat.even r); reflexivity.
Qed.

(** X2: [FormattedTeamName] returns the name with only its letter case
    changed, and reads the store without changing it: the text has the
    length of the name and is the name up to case; a name without an ASCII
    letter is shown as it is, flagged or not, so that for such a team an
    upset does not show; a name with a letter is shown in capitals exactly
    when [previous_upset] is set. *)
Theorem FormattedTeamName_case_only w t T :
  teams w !! t = Some T ->
  exists shown,
    FormattedTeamName t w = (Returned shown, w) /\
    String.length shown = String.length (name T) /\
    str_lower shown = str_lower (name T) /\
    (has_letter (name T) = false -> shown = name T) /\
    (has_letter (name T) = true ->
       (shown = str_upper (name T) <-> previous_upset T = true)).
Proof.
  intros H. exists (formatted T). split; [by apply run_FormattedTeamName|].
  unfold formatted. destruct (previous_upset T).
  - split; [apply str_map_length|]. split; [apply str_lower_upper|].
    split; [intros Hn; by apply str_no_letter|]. done.
  - split; [apply str_map_length|]. split; [apply str_lower_idem|].
    split; [intros Hn; by apply str_no_letter|].
    intros Hl. split; [|done]. intros E. symmetry in E.
    apply str_case_differs in E. congruence.
Qed.

(** X2, at the first entrant of [four_teams]. *)
Lemma FormattedTeamName_case_only_witness :
  exists T, teams four_teams !! 0%nat = Some T /\
  exists shown,
    FormattedTeamName 0%nat four_teams = (Returned shown, four_teams) /\
    String.length shown = String.length (name T) /\
    str_lower shown = str_lower (name T) /\
    (has_letter (name T) = false -> shown = name T) /\
    (has_letter (name T) = true ->
       (shown = str_upper (name T) <-> previous_upset T = true)).
Proof.
  eexists. split; [vm_compute; reflexivity|].
  apply (FormattedTeamName_case_only four_teams 0%nat). vm_compute. reflexivity.
Defined.

(** X3: after a resolved matchup between two entrants of different names,
    [FormattedTeamName] shows the winner in capitals exactly when the winner
    had the strictly lower probability, in small letters otherwise, and shows
    the loser in small letters. *)
Theorem upset_winner_in_capitals w t1 t2 T1 T2 p1 p2 n1 n2 :
  teams w !! t1 = Some T1 -> teams w !! t2 = Some T2 ->
  name T1 <> name T2 ->
  fill_hat (probability T1) (probability T2) = Returned (p1, p2, n1, n2) ->
  exists (first : bool) w',
    let winner := if first then t1 else t2 in
    let loser := if first then t2 else t1 in
    let Tw := if first then T1 else T2 in
    let Tl := if first then T2 else T1 in
    let p_winner := if first then p1 else p2 in
    let p_loser := if first then p2 else p1 in
    WeightedCoinFlip t1 t2 w = (Returned winner, w') /\
    FormattedTeamName winner w' =
      (Returned (if F64.ltb p_winner p_loser then str_upper (name Tw)
                 else str_lower (name Tw)), w') /\
    FormattedTeamName loser w' = (Returned (str_lower (name Tl)), w').
Proof.
  intros H1 H2 Hn Hf.
  assert (Hne : t1 <> t2) by (intros ->; congruence).
  destruct (WeightedCoinFlip_resolved w t1 t2 T1 T2 p1 p2 n1 n2 H1 H2 Hf)
    as (w' & Hrun & _ & Hflag & Hothers & _).
  pose proof (keeps_WeightedCoinFlip t1 t2 w) as (F & _). rewrite Hrun in F. simpl in F.
  destruct (frame_lookup _ _ _ _ F H1) as (T1' & G1 & F1).
  destruct (frame_lookup _ _ _ _ F H2) as (T2' & G2 & F2).
  set (first := (tape w (drawn w) mod 1000 <? Z.to_nat n1)%nat) in *.
  exists first, w'. cbv zeta. split; [exact Hrun|].
  assert (Eu1 : bool_decide (underdog_of p1 p2 = Some 1) = F64.ltb p1 p2).
  { unfold underdog_of. destruct (F64.ltb p2 p1) eqn:E21.
    - rewrite (ltb_asym _ _ E21). by rewrite bool_decide_eq_false_2.
    - destruct (F64.ltb p1 p2); [by rewrite bool_decide_eq_true_2|by rewrite bool_decide_eq_false_2]. }
  assert (Eu2 : bool_decide (underdog_of p1 p2 = Some 2) = F64.ltb p2 p1).
  { unfold underdog_of. destruct (F64.ltb p2 p1) eqn:E21.
    - by rewrite bool_decide_eq_true_2.
    - destruct (F64.ltb p1 p2); by rewrite bool_decide_eq_false_2. }
  assert (N12 : String.eqb (name T1) (name T2) = false) by (by apply String.eqb_neq).
  assert (N21 : String.eqb (name T2) (name T1) = false) by (apply String.eqb_neq; congruence).
  destruct first.
  - rewrite String.eqb_refl, N12, Eu1 in Hflag. simpl in Hflag. rewrite orb_false_r in Hflag.
    specialize (Hothers t2 ltac:(congruence) ltac:(auto)).
    unfold flag_of in Hflag, Hothers. rewrite G1 in Hflag. rewrite G2 in Hothers.
    simpl in Hflag, Hothers. injection Hflag as Hflag. injection Hothers as Hothers.
    rewrite (run_FormattedTeamName _ _ _ G1), (run_FormattedTeamName _ _ _ G2).
    unfold formatted. rewrite Hflag, Hothers.
    destruct F1 as (<- & _). destruct F2 as (<- & _). done.
  - rewrite String.eqb_refl, N21, Eu2 in Hflag. simpl in Hflag.
    specialize (Hothers t1 ltac:(congruence) ltac:(auto)).
    unfold flag_of in Hflag, Hothers. rewrite G2 in Hflag. rewrite G1 in Hothers.
    simpl in Hflag, Hothers. injection Hflag as Hflag. injection Hothers as Hothers.
    rewrite (run_FormattedTeamName _ _ _ G1), (run_FormattedTeamName _ _ _ G2).
    unfold formatted. rewrite Hflag, Hothers.
    destruct F1 as (<- & _). destruct F2 as (<- & _). done.
Qed.

(** X3, at the first pair of [four_teams]. *)
Lemma upset_winner_in_capitals_witness :
  exists T1 T2 p1 p2 (first : bool) w',
    teams four_teams !! 0%nat = Some T1 /\ teams four_teams !! 1%nat = Some T2 /\
    let winner := if first then 0%nat else 1%nat in
    let loser := if first then 1%nat else 0%nat in
    let Tw := if first then T1 else T2 in
    let Tl := if first then T2 else T1 in
    let p_winner := if first then p1 else p2 in
    let p_loser := if first then p2 else p1 in
    WeightedCoinFlip 0%nat 1%nat four_teams = (Returned winner, w') /\
    FormattedTeamName winner w' =
      (Returned (if F64.ltb p_winner p_loser then str_upper (name Tw)
                 else str_lower (name Tw)), w') /\
    FormattedTeamName loser w' = (Returned (str_lower (name Tl)), w').
Proof.
  pose proof (upset_winner_in_capitals four_teams 0%nat 1%nat
                (mkTeam "Duke" "1" "South" (F64.of_Z 2) (weight_of_odds 2) false)
                (mkTeam "Butler" "8" "South" (F64.of_Z 3) (weight_of_odds 3) false)
                (percent 600) (percent 400) 600 400) as H.
  destruct H as (first & w' & H); [vm_compute; reflexivity..|discriminate|vm_compute; reflexivity|].
  eexists _, _, _, _, first, w'. split; [vm_compute; reflexivity|].
  split; [vm_compute; reflexivity|]. exact H.
Defined.

(** X4: for positive finite win weights, the text [PritsPrintLineup] prints
    for a probability (its [str]) is the number of slips the entrant gets in
    the hat, divided by ten and written with exactly one decimal: 623 slips
    read [62.3]. *)
Theorem percentages_shown_in_tenths a b :
  F64.pos_finite a = true -> F64.pos_finite b = true ->
  exists p1 p2 n1 n2,
    win_probabilities a b = Returned (p1, p2) /\
    slips p1 = Returned n1 /\ slips p2 = Returned n2 /\
    0 <= n1 <= 1000 /\ 0 <= n2 <= 1000 /\
    float_str p1 = tenths n1 /\ float_str p2 = tenths n2.
Proof.
  intros Ha Hb.
  destruct (fill_hat_thousandths a b Ha Hb) as (n1 & n2 & H1 & H2 & Hw & S1 & S2 & _).
  exists (percent n1), (percent n2), n1, n2.
  split; [exact Hw|]. split; [exact S1|]. split; [exact S2|].
  split; [exact H1|]. split; [exact H2|].
  split; by apply tenths_spec.
Qed.

(** X4, at odds 2 against odds 3. *)
Lemma percentages_shown_in_tenths_witness :
  exists p1 p2 n1 n2,
    win_probabilities (weight_of_odds 2) (weight_of_odds 3) = Returned (p1, p2) /\
    slips p1 = Returned n1 /\ slips p2 = Returned n2 /\
    0 <= n1 <= 1000 /\ 0 <= n2 <= 1000 /\
    float_str p1 = tenths n1 /\ float_str p2 = tenths n2.
Proof.
  apply (percentages_shown_in_tenths (weight_of_odds 2) (weight_of_odds 3));
    vm_compute; reflexivity.
Defined.

(** X5: whatever the lineup and whatever the outcome, [PritsPrintLineup]
    leaves the store as it is (teams, flags, lists, random draws) and only
    adds to what has been printed. *)
Theorem PritsPrintLineup_only_prints lineup s :
  store (snd (PritsPrintLineup lineup s)) = store s /\
  exists out, stdout (snd (PritsPrintLineup lineup s)) = stdout s ++ out.
Proof. apply prints_PritsPrintLineup. Qed.

(** X6: on a lineup of even length whose pairs all have computable
    probabilities, [PritsPrintLineup] returns after printing one line per
    pair, in lineup order, and then an empty line; each line is
    [[seed] name (p%) vs. [seed] name (p%)].  No hat is checked: the lineup
    is printed also when the round then fails on it.  On the empty lineup
    only the empty line is printed. *)
Theorem PritsPrintLineup_prints_pairs s lineup L lines :
  lists (store s) !! lineup = Some L ->
  length L = (2 * length lines)%nat ->
  (forall i, (i < length lines)%nat -> line_at (store s) L i = lines !! i) ->
  PritsPrintLineup lineup s =
  (Done tt, mkSession (store s) (stdout s ++ lines ++ [""])).
Proof. destruct s as [w out]. apply PritsPrintLineup_even. Qed.

(** X6, at the four-entrant lineup of [four_teams]. *)
Lemma PritsPrintLineup_prints_pairs_witness :
  PritsPrintLineup 0%nat (mkSession four_teams []) =
  (Done tt, mkSession four_teams
     ["[1] duke (60.0%) vs. [8] butler (40.0%)";
      "[6] xavier (20.0%) vs. [2] kansas (80.0%)"; ""]).
Proof.
  apply (PritsPrintLineup_prints_pairs (mkSession four_teams []) 0%nat [0; 1; 2; 3]%nat
           ["[1] duke (60.0%) vs. [8] butler (40.0%)";
            "[6] xavier (20.0%) vs. [2] kansas (80.0%)"]).
  - vm_compute. reflexivity.
  - reflexivity.
  - intros [|[|i]] Hi; [vm_compute; reflexivity..|simpl in Hi; lia].
Defined.

(** X7: on a lineup of odd length [PritsPrintLineup] raises [IndexError] at
    the last entrant, after printing the lines of the complete pairs and
    without the closing empty line; the store is unchanged. *)
Theorem PritsPrintLineup_odd_lineup s lineup L lines :
  lists (store s) !! lineup = Some L ->
  length L = (2 * length lines + 1)%nat ->
  (forall i, (i < length lines)%nat -> line_at (store s) L i = lines !! i) ->
  PritsPrintLineup lineup s =
  (Failed (Engine IndexError), mkSession (store s) (stdout s ++ lines)).
Proof. destruct s as [w out]. apply PritsPrintLineup_odd. Qed.

(** X7, at the three-entrant lineup of [four_teams]. *)
Lemma PritsPrintLineup_odd_lineup_witness :
  PritsPrintLineup 1%nat (mkSession four_teams []) =
  (Failed (Engine IndexError),
   mkSession four_teams ["[1] duke (60.0%) vs. [8] butler (40.0%)"]).
Proof.
  apply (PritsPrintLineup_odd_lineup (mkSession four_teams []) 1%nat [0; 1; 2]%nat
           ["[1] duke (60.0%) vs. [8] butler (40.0%)"]).
  - vm_compute. reflexivity.
  - reflexivity.
  - intros [|i] Hi; [vm_compute; reflexivity|simpl in Hi; lia].
Defined.

(** X8: for a file whose rows are all well formed, in which each of the four
    divisions Midwest, West, South and East has 1, 2, 4, 8 or 16 entrants and
    any two entrants have a full hat, [main] with one argument runs to its
    end: it returns, the champion it prints last before the end banner is an
    entrant of one of the four divisions, shown in capitals or in small
    letters, and it has used exactly one random draw less than there are
    entrants in the four divisions.  Rows of other divisions are read and
    never play. *)
Theorem main_plays_the_tournament prog csv_path files rows Ts s :
  files !! csv_path = Some rows ->
  teams_of_rows rows = Some Ts ->
  forallb (fun d => bracket_size (length (in_division d Ts))) LINEUP_ORDER = true ->
  all_full Ts = true ->
  exists s' T (upset : bool) more,
    main [prog; csv_path] files s = (Done tt, s') /\
    T ∈ Ts /\ division T ∈ LINEUP_ORDER /\
    stdout s' = stdout s ++ more ++
      [(if upset then str_upper (name T) else str_lower (name T));
       newline +:+ "-----------------------------------------------------------";
       "                        END                                ";
       "-----------------------------------------------------------"] /\
    (drawn (store s') + 1 = drawn (store s) + length (field Ts))%nat /\
    tape (store s') = tape (store s).
Proof.
  intros Hfile HTs Hsizes Hfull. destruct s as [w out].
  rewrite run_main_start.
  set (semi := fresh (dom (lists w))).
  set (out0 := out ++ _).
  destruct (started_spec w) as (Hsemi0 & _ & Htape0 & Hdrawn0). fold semi in Hsemi0.
  destruct (run_import_rows (started w) rows Ts (started w) out0 ∅ [] HTs (grouped_start _))
    as (dict & w1 & ts & Himport & Hlen & G).
  rewrite app_nil_l in G.
  rewrite forallb_forall in Hsizes.
  assert (Hready : forall d, d ∈ LINEUP_ORDER ->
            ready semi w1 dict d /\ lineup_size w1 dict d = length (in_division d Ts) /\
            exists l, dict !! d = Some l /\ lists w1 !! l = Some (of_division d (zip ts Ts))).
  { intros d Hd. apply (grouped_ready semi (started w) w1 dict ts Ts d); [done..|eauto|done|].
    apply Hsizes. by apply list_elem_of_In. }
  pose proof G as (_ & Hbuilt & _ & _ & _ & Hkept & Htape1 & Hdrawn1).
  destruct (run_standard_tournament dict semi LINEUP_ORDER 0 [] w1 out0)
    as (winners & w2 & out2 & Hloop & (more2 & Hmore2) & Hsemi2 & Hwl & Hwin & Hd2 & F2);
    [intros d Hd; by apply Hready|by apply Hkept|lia|simpl; lia|].
  rewrite app_nil_l in Hsemi2.
  assert (Hbuiltw : forall t, t ∈ winners ->
            exists d T, d ∈ LINEUP_ORDER /\ (t, T) ∈ zip ts Ts /\ division T = d).
  { intros t Ht. rewrite Forall_forall in Hwin.
    destruct (Hwin t Ht) as (d & l & L & Hd & Hl & HL & Hin).
    destruct (Hready d Hd) as (_ & _ & l' & Hl' & HL').
    assert (l' = l) as -> by congruence. rewrite HL in HL'. injection HL' as ->.
    apply of_division_elem in Hin as (T & Hin & HdT). by exists d, T. }
  assert (Hp2 : playable w2 winners).
  { apply (playable_teams_frame w1 w2); [apply F2|].
    apply (grouped_playable (started w) w1 dict ts Ts); [done..|].
    intros a Ha. destruct (Hbuiltw a Ha) as (d & T & _ & Hin & _). by exists T. }
  destruct (run_final_rounds semi winners w2 out2 Hsemi2 Hwl Hp2)
    as (champion & T & w3 & more3 & Hfinal & Hc & HT & Hd3 & F3).
  destruct (Hbuiltw champion Hc) as (d & T0 & Hd & Hin0 & HdT0).
  destruct (Hbuilt _ _ Hin0) as (_ & HT0).
  destruct (frame_lookup _ _ _ _ (proj1 F2) HT0) as (T2 & HT2 & Fr2).
  destruct (frame_lookup _ _ _ _ (proj1 F3) HT2) as (T3 & HT3 & Fr3).
  assert (T3 = T) as -> by congruence.
  pose proof (frozen_trans _ _ _ Fr2 Fr3) as (Hname & _).
  set (banner := [newline +:+ newline +:+ "-----------------------------------------------------------";
                  "                       START                                 ";
                  "-----------------------------------------------------------" +:+ newline +:+ newline]) in *.
  eexists (mkSession w3 _), T0, (previous_upset T), (banner ++ more2 ++ more3).
  split.
  { unfold and_then at 1.
    rewrite (standard_tournament_import files csv_path rows semi 0 _ dict _ Hfile Himport).
    rewrite Hloop. cbn [Z.add length LINEUP_ORDER TOURNAMENT take Z.of_nat Pos.of_succ_nat Pos.succ].
    exact Hfinal. }
  split; [by eapply elem_of_zip_r|]. split; [by rewrite HdT0|].
  split.
  { cbn [stdout]. rewrite Hmore2. unfold out0.
    unfold formatted. rewrite Hname.
    repeat first [rewrite <- app_assoc | rewrite <- app_comm_cons]. reflexivity. }
  split.
  { cbn [store]. rewrite field_length.
    assert (Hsum : sum_list (lineup_size w1 dict <$> LINEUP_ORDER) =
                   sum_list ((fun d => length (in_division d Ts)) <$> LINEUP_ORDER)).
    { f_equal. apply Forall_fmap_ext, Forall_forall. intros d' Hd'. by apply Hready. }
    rewrite Hsum in Hd2. simpl length in Hd2. lia. }
  cbn [store]. destruct F3 as (_ & _ & ->). destruct F2 as (_ & _ & ->). congruence.
Qed.

(** X8, at the nine rows of [bracket_rows]. *)
Lemma main_plays_the_tournament_witness :
  exists s' T (upset : bool) more,
    main ["march-madness.py"; "teams.csv"] bracket_files fresh_session = (Done tt, s') /\
    T ∈ bracket_teams /\ division T ∈ LINEUP_ORDER /\
    stdout s' = stdout fresh_session ++ more ++
      [(if upset then str_upper (name T) else str_lower (name T));
       newline +:+ "-----------------------------------------------------------";
       "                        END                                ";
       "-----------------------------------------------------------"] /\
    (drawn (store s') + 1 = drawn (store fresh_session) + length (field bracket_teams))%nat /\
    tape (store s') = tape (store fresh_session).
Proof.
  apply (main_plays_the_tournament "march-madness.py" "teams.csv" bracket_files
           bracket_rows bracket_teams fresh_session); vm_compute; reflexivity.
Defined.

(** X9: asked for its first lineup, the generator of [ImportData] reads a
    well-formed file in which each of the four divisions occurs into one new
    team object per row, in row order, and one new list object per division;
    it prints nothing, draws nothing and leaves what the store held before in
    place.  It yields the lineups of Midwest, West, South and East, in this
    order whatever the order of the rows, and then stops; each lineup holds
    the objects of its division in row order. *)
Theorem ImportData_groups_by_division files csv_path rows Ts s :
  files !! csv_path = Some rows -> teams_of_rows rows = Some Ts ->
  (forall d, d ∈ LINEUP_ORDER -> in_division d Ts <> []) ->
  exists ts s' midwest west south east g,
    next (ImportData files csv_path) s = (Done (Some (midwest, g)), s') /\
    yields g [west; south; east] /\
    stdout s' = stdout s /\ drawn (store s') = drawn (store s) /\
    length ts = length Ts /\ NoDup ts /\
    (forall t T, (t, T) ∈ zip ts Ts ->
       teams (store s) !! t = None /\ teams (store s') !! t = Some T) /\
    (forall t T, teams (store s) !! t = Some T -> teams (store s') !! t = Some T) /\
    (forall l L, lists (store s) !! l = Some L -> lists (store s') !! l = Some L) /\
    Forall2 (fun d l => lists (store s) !! l = None /\
                        lists (store s') !! l = Some (of_division d (zip ts Ts)))
            LINEUP_ORDER [midwest; west; south; east].
Proof.
  intros Hfile HTs Hall. destruct s as [w out].
  destruct (run_import_rows w rows Ts w out ∅ [] HTs (grouped_start _))
    as (dict & w1 & ts & Himport & Hlen & G).
  rewrite app_nil_l in G.
  pose proof G as (Hnd & Hbuilt & Hdict & _ & Hteams & Hlists & _ & Hdrawn).
  assert (Hd : forall d, d ∈ LINEUP_ORDER ->
            exists l, dict !! d = Some l /\ lists w !! l = None /\
                      lists w1 !! l = Some (of_division d (zip ts Ts))).
  { intros d Hin. specialize (Hdict d). specialize (Hall d Hin).
    destruct (dict !! d) as [l|]; [exists l; by destruct Hdict as (? & ? & _)|].
    exfalso. apply Hall. apply length_zero_iff_nil.
    rewrite <- (of_division_length d ts Ts Hlen), Hdict. done. }
  destruct (Hd "Midwest") as (l1 & D1 & N1 & L1); [in_list|].
  destruct (Hd "West") as (l2 & D2 & N2 & L2); [in_list|].
  destruct (Hd "South") as (l3 & D3 & N3 & L3); [in_list|].
  destruct (Hd "East") as (l4 & D4 & N4 & L4); [in_list|].
  exists ts, (mkSession w1 out), l1, l2, l3, l4,
    (Gen (yield_lineups dict ["West"; "South"; "East"])).
  split.
  { unfold ImportData, next. unfold and_then at 1, open. rewrite Hfile. cbn [done].
    unfold and_then at 1. rewrite Himport. cbn. by rewrite D1. }
  split; [apply yields_lineups; repeat constructor; done|].
  split; [done|]. split; [done|]. split; [done|].
  split; [by rewrite fst_zip in Hnd by lia|].
  split; [exact Hbuilt|]. split; [exact Hteams|]. split; [exact Hlists|].
  repeat constructor; done.
Qed.

(** X9, at the nine rows of [bracket_rows]. *)
Lemma ImportData_groups_by_division_witness :
  exists ts s' midwest west south east g,
    next (ImportData bracket_files "teams.csv") fresh_session = (Done (Some (midwest, g)), s') /\
    yields g [west; south; east] /\
    stdout s' = stdout fresh_session /\ drawn (store s') = drawn (store fresh_session) /\
    length ts = length bracket_teams /\ NoDup ts /\
    (forall t T, (t, T) ∈ zip ts bracket_teams ->
       teams (store fresh_session) !! t = None /\ teams (store s') !! t = Some T) /\
    (forall t T, teams (store fresh_session) !! t = Some T -> teams (store s') !! t = Some T) /\
    (forall l L, lists (store fresh_session) !! l = Some L -> lists (store s') !! l = Some L) /\
    Forall2 (fun d l => lists (store fresh_session) !! l = None /\
                        lists (store s') !! l = Some (of_division d (zip ts bracket_teams)))
            LINEUP_ORDER [midwest; west; south; east].
Proof.
  apply (ImportData_groups_by_division bracket_files "teams.csv" bracket_rows bracket_teams
           fresh_session); [vm_compute; reflexivity..|].
  intros d Hd. repeat (apply elem_of_cons in Hd as [->|Hd]); [..|by apply elem_of_nil in Hd];
    vm_compute; discriminate.
Defined.

(** X10: a division that the file has no row for is only noticed when its
    turn comes.  If the divisions before it in the order Midwest, West,
    South, East have 1, 2, 4, 8 or 16 entrants each and all hats are full,
    [main] prints the start banner, plays those divisions, and then raises
    [KeyError]; when the missing division is Midwest nothing follows the
    banner. *)
Theorem main_missing_division prog csv_path files rows Ts s pre d post :
  files !! csv_path = Some rows ->
  teams_of_rows rows = Some Ts ->
  LINEUP_ORDER = pre ++ d :: post ->
  in_division d Ts = [] ->
  forallb (fun d' => bracket_size (length (in_division d' Ts))) pre = true ->
  all_full Ts = true ->
  exists s' more,
    main [prog; csv_path] files s = (Failed KeyError, s') /\
    stdout s' = stdout s ++
      [newline +:+ newline +:+ "-----------------------------------------------------------";
       "                       START                                 ";
       "-----------------------------------------------------------" +:+ newline +:+ newline]
      ++ more /\
    (pre = [] -> more = []) /\
    (drawn (store s') + length pre =
     drawn (store s) + sum_list ((fun d' => length (in_division d' Ts)) <$> pre))%nat.
Proof.
  intros Hfile HTs Horder Hnone Hsizes Hfull. destruct s as [w out].
  rewrite run_main_start.
  set (semi := fresh (dom (lists w))).
  set (out0 := out ++ _).
  destruct (started_spec w) as (Hsemi0 & _ & Htape0 & Hdrawn0). fold semi in Hsemi0.
  destruct (run_import_rows (started w) rows Ts (started w) out0 ∅ [] HTs (grouped_start _))
    as (dict & w1 & ts & Himport & Hlen & G).
  rewrite app_nil_l in G.
  rewrite forallb_forall in Hsizes.
  assert (Hready : forall d', d' ∈ pre ->
            ready semi w1 dict d' /\ lineup_size w1 dict d' = length (in_division d' Ts)).
  { intros d' Hd'.
    destruct (grouped_ready semi (started w) w1 dict ts Ts d') as (R & Sz & _);
      [done..|eauto|done| |done].
    apply Hsizes. by apply list_elem_of_In. }
  pose proof G as (_ & _ & Hdict & _ & _ & Hkept & _ & Hdrawn1).
  assert (Hd : dict !! d = None).
  { specialize (Hdict d). destruct (dict !! d) as [l|]; [|done].
    destruct Hdict as (_ & _ & Hne). exfalso. apply Hne. apply length_zero_iff_nil.
    by rewrite (of_division_length d ts Ts Hlen), Hnone. }
  assert (Hpre : (length pre < 4)%nat).
  { apply (f_equal length) in Horder. rewrite length_app in Horder. simpl in Horder. lia. }
  destruct (run_standard_tournament_missing dict semi d post pre 0 [] w1 out0)
    as (w2 & out2 & Hloop & (more & Hmore & Hmore0) & Hd2 & _);
    [intros d' Hd'; by apply Hready|done|by apply Hkept|lia|lia|].
  exists (mkSession w2 out2), more.
  split.
  { unfold and_then at 1.
    rewrite (standard_tournament_import files csv_path rows semi 0 _ dict _ Hfile Himport).
    rewrite Horder, Hloop. reflexivity. }
  split; [cbn [stdout]; rewrite Hmore; unfold out0; by rewrite <- app_assoc|].
  split; [exact Hmore0|].
  cbn [store].
  assert (Hsum : sum_list (lineup_size w1 dict <$> pre) =
                 sum_list ((fun d' => length (in_division d' Ts)) <$> pre)).
  { f_equal. apply Forall_fmap_ext, Forall_forall. intros d' Hd'. by apply Hready. }
  rewrite Hsum in Hd2. lia.
Qed.

(** X10, at a file with entrants of Midwest and West only. *)
Lemma main_missing_division_witness :
  exists s' more,
    main ["march-madness.py"; "teams.csv"] half_bracket_files fresh_session =
      (Failed KeyError, s') /\
    stdout s' = stdout fresh_session ++
      [newline +:+ newline +:+ "-----------------------------------------------------------";
       "                       START                                 ";
       "-----------------------------------------------------------" +:+ newline +:+ newline]
      ++ more /\
    (["Midwest"; "West"] = [] -> more = []) /\
    (drawn (store s') + length ["Midwest"; "West"] =
     drawn (store fresh_session) +
     sum_list ((fun d' => length (in_division d' half_bracket_teams)) <$> ["Midwest"; "West"]))%nat.
Proof.
  apply (main_missing_division "march-madness.py" "teams.csv" half_bracket_files
           (take 4 bracket_rows) half_bracket_teams fresh_session
           ["Midwest"; "West"] "South" ["East"]); vm_compute; reflexivity.
Defined.

(** X11: the check of the argument count prints the usage line and goes on.
    With no argument [main] then raises [IndexError] at [sys.argv[1]],
    having printed nothing else and changed nothing; with more than one
    argument it prints the usage line and runs as with the first argument
    alone. *)
Theorem main_usage files s :
  (forall argv, (length argv < 2)%nat ->
     main argv files s =
     (Failed (Engine IndexError),
      mkSession (store s)
        (stdout s ++ ["usage: python march-madness.py /path/to/file.csv"]))) /\
  (forall prog csv_path x extra,
     main (prog :: csv_path :: x :: extra) files s =
     main [prog; csv_path] files
       (mkSession (store s)
          (stdout s ++ ["usage: python march-madness.py /path/to/file.csv"]))).
Proof.
  destruct s as [w out]. split.
  - intros [|prog [|? ?]] Hlen; [reflexivity..|simpl in Hlen; lia].
  - intros prog csv_path x extra. cbn [store stdout]. rewrite run_main_start.
    unfold main. cbn [length].
    rewrite bool_decide_eq_true_2 by lia.
    unfold and_then at 1, print at 1. cbn [store stdout].
    rewrite (run_and_then _ _ _ _ _
               (run_getitem (prog :: csv_path :: x :: extra) 1 _ w _ eq_refl)).
    unfold and_then at 1. unfold engine at 1. cbn [new_list store stdout].
    unfold and_then at 1. unfold engine at 1. cbn [new_list store stdout].
    unfold and_then at 1, print at 1. cbn [store stdout].
    unfold and_then at 1, print at 1. cbn [store stdout].
    unfold and_then at 1, print at 1. cbn [store stdout].
    rewrite <- !app_assoc. reflexivity.
Qed.

(** X11, at an argument list with the program name only. *)
Lemma main_usage_witness :
  main ["march-madness.py"] bracket_files fresh_session =
  (Failed (Engine IndexError),
   mkSession (store fresh_session) ["usage: python march-madness.py /path/to/file.csv"]).
Proof. apply (proj1 (main_usage bracket_files fresh_session) ["march-madness.py"]). simpl. lia. Defined.

(** X12: [ImportData] is a generator, so the file is opened only when the
    loop over the lineups starts: for a path with no file [main] first makes
    its two empty lineups and prints the start banner, and only then raises
    [IOError]. *)
Theorem main_file_not_found prog csv_path files s :
  files !! csv_path = None ->
  main [prog; csv_path] files s =
  (Failed IOError,
   mkSession (started (store s))
     (stdout s ++
      [newline +:+ newline +:+ "-----------------------------------------------------------";
       "                       START                                 ";
       "-----------------------------------------------------------" +:+ newline +:+ newline])).
Proof.
  intros Hfile. destruct s as [w out]. rewrite run_main_start.
  unfold and_then at 1. unfold ImportData. cbn [standard_tournament].
  unfold and_then at 1, open. rewrite Hfile. reflexivity.
Qed.

(** X12, at a path that [bracket_files] does not have. *)
Lemma main_file_not_found_witness :
  main ["march-madness.py"; "nothing.csv"] bracket_files fresh_session =
  (Failed IOError,
   mkSession (started (store fresh_session))
     (stdout fresh_session ++
      [newline +:+ newline +:+ "-----------------------------------------------------------";
       "                       START                                 ";
       "-----------------------------------------------------------" +:+ newline +:+ newline])).
Proof.
  apply (main_file_not_found "march-madness.py" "nothing.csv" bracket_files fresh_session).
  vm_compute. reflexivity.
Defined.

(** X13: on a file none of whose records is shorter than the header, [main]
    with one argument returns only if the file exists, every row of it is
    well formed, and each of the four divisions has 1, 2, 4, 8 or 16
    entrants: on any other such file (a division that is missing, of three,
    of six, of thirty-two entrants) it never runs to its end, whatever the
    odds and whatever the draws. *)
Theorem main_returns_only_for_brackets prog csv_path files s s' :
  (forall rows, files !! csv_path = Some rows -> same_columns rows) ->
  main [prog; csv_path] files s = (Done tt, s') ->
  exists rows Ts,
    files !! csv_path = Some rows /\ teams_of_rows rows = Some Ts /\
    forall d, d ∈ LINEUP_ORDER -> bracket_size (length (in_division d Ts)) = true.
Proof.
  intros _. destruct s as [w out]. rewrite run_main_start.
  set (semi := fresh (dom (lists w))). set (out0 := out ++ _).
  intros H. apply and_then_done in H as (ti & s2 & Hloop & _).
  destruct (started_spec w) as (Hsemi0 & _). fold semi in Hsemi0.
  destruct (files !! csv_path) as [rows|] eqn:Hfile.
  2:{ unfold ImportData in Hloop. cbn [standard_tournament] in Hloop.
      unfold and_then at 1, open in Hloop. by rewrite Hfile in Hloop. }
  destruct (import_rows ∅ rows (mkSession (started w) out0)) as [[dict|f] s1] eqn:Himport.
  2:{ unfold ImportData in Hloop. cbn [standard_tournament] in Hloop.
      unfold and_then at 1, open in Hloop. rewrite Hfile in Hloop. cbn [done] in Hloop.
      unfold and_then at 1 in Hloop. by rewrite Himport in Hloop. }
  rewrite (standard_tournament_import files csv_path rows semi 0 _ dict s1 Hfile Himport) in Hloop.
  destruct (import_rows_done _ _ _ _ _ Himport) as (Ts & HTs).
  destruct (run_import_rows (started w) rows Ts (started w) out0 ∅ [] HTs (grouped_start _))
    as (dict' & w1 & ts & Himport' & Hlen & G).
  rewrite Himport in Himport'. injection Himport' as <- ->.
  rewrite app_nil_l in G. pose proof G as (_ & _ & Hdict & _).
  exists rows, Ts. split; [done|]. split; [done|]. intros d Hd.
  destruct (standard_tournament_returned dict semi LINEUP_ORDER 0 _ _ _ Hloop) with (d := d)
    as (l & Hl & Hsize); [|done|].
  { intros d' l' _ Hl' ->. specialize (Hdict d'). rewrite Hl' in Hdict.
    destruct Hdict as (Hnone & _). congruence. }
  specialize (Hdict d). rewrite Hl in Hdict. destruct Hdict as (_ & HL & _).
  specialize (Hsize _ HL). by rewrite (of_division_length d ts Ts Hlen) in Hsize.
Qed.

(** X13, at the run of [main] on [bracket_files]. *)
Lemma main_returns_only_for_brackets_witness :
  (forall rows, bracket_files !! "teams.csv" = Some rows -> same_columns rows) /\
  exists rows Ts,
    bracket_files !! "teams.csv" = Some rows /\ teams_of_rows rows = Some Ts /\
    forall d, d ∈ LINEUP_ORDER -> bracket_size (length (in_division d Ts)) = true.
Proof.
  assert (H : forall rows, bracket_files !! "teams.csv" = Some rows -> same_columns rows).
  { intros rows [= <-]. refine (bool_decide_unpack _ _). vm_compute. exact I. }
  split; [exact H|].
  apply (main_returns_only_for_brackets "march-madness.py" "teams.csv" bracket_files
           fresh_session
           (snd (main ["march-madness.py"; "teams.csv"] bracket_files fresh_session)) H).
  vm_compute. reflexivity.
Defined.



(** X15: odds that are not a number pass the loader and fail in the first
    matchup.  A row whose odds read [nan] is built into a team whose weight is
    NaN, without any error; whenever one of two weights is NaN both
    probabilities are NaN, [PritsPrintLineup] prints them as [nan], and the
    matchup raises [ValueError] at [int], with both flags reset and before
    any draw. *)
Theorem nan_odds_accepted_then_ValueError :
  (forall n sd d,
     team_of_row (csv_row n sd d "nan") = Some (mkTeam n sd d S754_nan S754_nan false)) /\
  (forall a b, a = S754_nan \/ b = S754_nan ->
     win_probabilities a b = Returned (S754_nan, S754_nan) /\
     float_str S754_nan = "nan" /\
     fill_hat a b = Raised ValueError) /\
  (forall w t1 t2 T1 T2,
     teams w !! t1 = Some T1 -> teams w !! t2 = Some T2 ->
     probability T1 = S754_nan \/ probability T2 = S754_nan ->
     exists w', WeightedCoinFlip t1 t2 w = (Raised ValueError, w') /\
                drawn w' = drawn w /\
                flag_of w' t1 = Some false /\ flag_of w' t2 = Some false).
Proof.
  assert (Hfill : forall a b, a = S754_nan \/ b = S754_nan -> fill_hat a b = Raised ValueError).
  { intros a b H. unfold fill_hat. by rewrite (win_probabilities_nan a b H). }
  split; [|split].
  - intros n sd d. reflexivity.
  - intros a b H. split; [by apply win_probabilities_nan|]. split; [done|by apply Hfill].
  - intros w t1 t2 T1 T2 H1 H2 H.
    destruct (WeightedCoinFlip_aborted w t1 t2 T1 T2 ValueError H1 H2 (Hfill _ _ H))
      as (w' & Hrun & Hd & _ & _ & Hf1 & Hf2 & _).
    by exists w'.
Qed.

(** X15, at an entrant of odds NaN against one of odds 2. *)
Lemma nan_odds_accepted_then_ValueError_witness :
  exists w', WeightedCoinFlip 0%nat 1%nat unknown_odds = (Raised ValueError, w') /\
             drawn w' = drawn unknown_odds /\
             flag_of w' 0%nat = Some false /\ flag_of w' 1%nat = Some false.
Proof.
  apply (proj2 (proj2 nan_odds_accepted_then_ValueError) unknown_odds 0%nat 1%nat
           (mkTeam "Alpha" "1" "West" S754_nan S754_nan false)
           (mkTeam "Omega" "2" "West" (F64.of_Z 2) (weight_of_odds 2) false));
    [vm_compute; reflexivity..|left; reflexivity].
Defined.


(** X16: a round stops at the first pair whose hat cannot be filled.  When
    the pairs before pair [i] resolve and pair [i] does not, the round raises
    what that pair raises, after exactly [i] draws; no lineup is created (the
    list objects are what they were), the flags of the failing pair have been
    reset, and the pairs after it are not played. *)
Theorem SingleRoundPlayBall_stops_at_first_failure w lineup L i a b Ta Tb e :
  lists w !! lineup = Some L ->
  resolvable w L i ->
  pair_at w L i a b Ta Tb ->
  fill_hat (probability Ta) (probability Tb) = Raised e ->
  exists w',
    SingleRoundPlayBall lineup w = (Raised e, w') /\
    drawn w' = (drawn w + i)%nat /\
    lists w' = lists w /\
    flag_of w' a = Some false /\ flag_of w' b = Some false.
Proof.
  intros HL Hready Hp Hf.
  assert (Hi : (i < Nat.div2 (S (length L)))%nat).
  { destruct Hp as (_ & Hb & _). apply lookup_lt_Some in Hb.
    rewrite Nat.div2_div.
    pose proof (Nat.div_mod_eq (S (length L)) 2) as E.
    pose proof (Nat.mod_upper_bound (S (length L)) 2 ltac:(lia)) as U. lia. }
  destruct (run_pairs lineup L w i 0%nat w HL (frame_refl w))
    as (ws & w1 & Hrun & _ & Hd & F & _).
  { intros j Hj. apply Hready. lia. }
  assert (HL1 : lists w1 !! lineup = Some L) by (by apply F).
  destruct (play_pair_aborted w w1 lineup L i a b Ta Tb e HL1 F Hp Hf)
    as (w' & Hpair & (Hd' & _ & Hl' & Hfa & Hfb & _)).
  exists w'. split.
  { unfold SingleRoundPlayBall.
    rewrite (run_bind _ _ _ _ _ (run_get_list _ _ _ HL)).
    rewrite py_range_pairs.
    replace (Nat.div2 (S (length L))) with (i + S (Nat.div2 (S (length L)) - S i))%nat by lia.
    rewrite seq_app, map_app. unfold bind at 1. rewrite mapM_app, Hrun.
    cbn [seq map mapM Nat.add]. unfold bind at 1. by rewrite Hpair. }
  split; [lia|]. split; [|done].
  rewrite Hl'.
  pose proof (same_mapM (play_pair lineup) (map (fun i => Z.of_nat (2 * i)) (seq 0 i))
                (same_play_pair lineup) w) as Hs.
  by rewrite Hrun in Hs.
Qed.

(** X16, at the four entrants of [mixed_field]. *)
Lemma SingleRoundPlayBall_stops_at_first_failure_witness :
  exists w',
    SingleRoundPlayBall 0%nat mixed_field = (Raised AssertionError, w') /\
    drawn w' = (drawn mixed_field + 1)%nat /\
    lists w' = lists mixed_field /\
    flag_of w' 2%nat = Some false /\ flag_of w' 3%nat = Some false.
Proof.
  apply (SingleRoundPlayBall_stops_at_first_failure mixed_field 0%nat [0; 1; 2; 3]%nat 1
           2%nat 3%nat
           (mkTeam "Kentucky" "1" "South" (F64.of_Z 1) (weight_of_odds 1) false)
           (mkTeam "Hampton" "16" "South" (F64.of_Z 79) (weight_of_odds 79) false)).
  - vm_compute. reflexivity.
  - apply mixed_field_first_pair.
  - repeat split; vm_compute; reflexivity.
  - vm_compute. reflexivity.
Defined.


(** X17: only four of the round names take the name of the division.  A
    division of 32, 64, ... entrants whose hats are all full is played for
    four rounds; when its fifth round is announced, the name [Final Four]
    takes no argument and the run ends in [TypeError], after all draws of
    the four rounds and with two or more entrants left. *)
Theorem oversized_division_raises_TypeError semi ti lineup L k w out :
  lists w !! lineup = Some L -> length L = (2 ^ (5 + k))%nat ->
  playable w L -> 0 <= ti < 7 ->
  exists w' out',
    play_division semi ti lineup (mkSession w out) =
      (Failed TypeError, mkSession w' out') /\
    (exists more, out' = out ++ more) /\
    (drawn w' + 2 ^ S k = drawn w + 2 ^ (5 + k))%nat /\
    frame w w'.
Proof.
  intros HL Hlen Hp Hti.
  destruct (run_getitem_tournament ti w out Hti) as (tname & Hget).
  set (out1 := out ++ ["**************************************************"; tname;
                       "**************************************************"]).
  destruct (run_play_rounds_long (take 4 ROUND_NAMES) "Final Four" ["Championship"]
              ti lineup L w out1 k HL) as (w' & out' & Hrun & (more & Hmore) & Hd & F);
    [exact Hlen|exact Hp|apply one_slot_round_names|done|exact Hti|].
  exists w', out'. split.
  { unfold play_division.
    rewrite (run_and_then _ _ _ _ _ Hget).
    rewrite (run_and_then _ _ _ _ _ (run_PrintTournamentHeader _ _ _)). fold out1.
    by apply run_and_then_failed. }
  split; [|split; [exact Hd|exact F]].
  exists (["**************************************************"; tname;
           "**************************************************"] ++ more).
  rewrite Hmore. unfold out1. by rewrite <- app_assoc.
Qed.


(** X17, at the thirty-two entrants of [crowd]. *)
Lemma oversized_division_raises_TypeError_witness :
  exists w' out',
    play_division 1%nat 0 0%nat (mkSession crowd []) =
      (Failed TypeError, mkSession w' out') /\
    (exists more, out' = [] ++ more) /\
    (drawn w' + 2 ^ 1 = drawn crowd + 2 ^ (5 + 0))%nat /\
    frame crowd w'.
Proof.
  apply (oversized_division_raises_TypeError 1%nat 0 0%nat (seq 0 32) 0%nat crowd []).
  - vm_compute. reflexivity.
  - reflexivity.
  - apply crowd_playable.
  - lia.
Defined.



